(** * RollupTileGrid: the tile view-model engine, load orchestration and
      cross-instance coordination of the Lightning web component

    The development embeds the component (rollupTileGrid.js) as Rocq
    functions: the pure helpers become functions, the component instance
    becomes a record that handlers transform, and the asynchronous
    [loadTile] is split at its single [await].  A small model of the
    JavaScript runtime (values, coercions, string and number primitives,
    [Intl.NumberFormat]) comes first. *)

From Stdlib Require Import ZArith List String Ascii Bool Lia DecimalString.
From stdpp Require Import base strings gmap.
Import ListNotations.

Local Open Scope string_scope.
Local Open Scope Z_scope.

(* ===================================================================== *)
(** ** The JavaScript runtime the component runs on                       *)
(* ===================================================================== *)

Module Js.

(** Numbers.  A finite number [Finite m s] stands for [m / 10^s]: the
    model works with exact decimal fractions, so the binary rounding of
    IEEE doubles and the sign of zero are outside it. *)
Inductive JsNumber : Type :=
| NaN
| Infinity (negative : bool)
| Finite (mant : Z) (scale : nat).

(** Primitive values, as the component receives them from the App Builder
    properties, from DOM datasets and from the Apex service. *)
Inductive JsValue : Type :=
| JUndefined
| JNull
| JBool (b : bool)
| JNumber (n : JsNumber)
| JString (s : string).

Definition pow10 (n : nat) : Z := 10 ^ Z.of_nat n.

Definition num_eqb (a b : JsNumber) : bool :=
  match a, b with
  | Finite m1 s1, Finite m2 s2 => m1 * pow10 s2 =? m2 * pow10 s1
  | Infinity n1, Infinity n2 => Bool.eqb n1 n2
  | _, _ => false
  end.

Definition num_ltb (a b : JsNumber) : bool :=
  match a, b with
  | Finite m1 s1, Finite m2 s2 => m1 * pow10 s2 <? m2 * pow10 s1
  | Infinity true, Finite _ _ => true
  | Finite _ _, Infinity false => true
  | Infinity true, Infinity false => true
  | _, _ => false
  end.

Definition isNaN (n : JsNumber) : bool :=
  match n with NaN => true | _ => false end.

Definition of_Z (z : Z) : JsNumber := Finite z 0.

(** [!!v] *)
Definition truthy (v : JsValue) : bool :=
  match v with
  | JUndefined | JNull => false
  | JBool b => b
  | JNumber NaN => false
  | JNumber (Infinity _) => true
  | JNumber (Finite m _) => negb (m =? 0)
  | JString s => negb (String.eqb s EmptyString)
  end.

(** [a === b] *)
Definition strict_eq (a b : JsValue) : bool :=
  match a, b with
  | JUndefined, JUndefined => true
  | JNull, JNull => true
  | JBool x, JBool y => Bool.eqb x y
  | JNumber x, JNumber y => num_eqb x y
  | JString x, JString y => String.eqb x y
  | _, _ => false
  end.

(** [a || b] and [a && b] return one of their operands. *)
Definition js_or (a b : JsValue) : JsValue := if truthy a then a else b.
Definition js_and (a b : JsValue) : JsValue := if truthy a then b else a.

Definition is_string (v : JsValue) : bool :=
  match v with JString _ => true | _ => false end.

Definition is_nullish (v : JsValue) : bool :=
  match v with JUndefined | JNull => true | _ => false end.

(** *** Characters and strings

    Strings are sequences of 8-bit characters read as ASCII; characters
    above 127 are neither letters nor white space.  [trim] and
    [toUpperCase] on all strings are in the module [Unicode] further
    down; on ASCII strings they are the functions below. *)

Definition is_whitespace (c : ascii) : bool :=
  let n := nat_of_ascii c in
  ((9 <=? n) && (n <=? 13) || (n =? 32))%nat.

Definition is_lower (c : ascii) : bool :=
  let n := nat_of_ascii c in ((97 <=? n) && (n <=? 122))%nat.

Definition is_upper (c : ascii) : bool :=
  let n := nat_of_ascii c in ((65 <=? n) && (n <=? 90))%nat.

Definition is_digit (c : ascii) : bool :=
  let n := nat_of_ascii c in ((48 <=? n) && (n <=? 57))%nat.

Definition upper_char (c : ascii) : ascii :=
  if is_lower c then ascii_of_nat (nat_of_ascii c - 32) else c.

Definition lower_char (c : ascii) : ascii :=
  if is_upper c then ascii_of_nat (nat_of_ascii c + 32) else c.

Fixpoint map_string (f : ascii -> ascii) (s : string) : string :=
  match s with
  | EmptyString => EmptyString
  | String c s' => String (f c) (map_string f s')
  end.

Definition toUpperCase (s : string) : string := map_string upper_char s.
Definition toLowerCase (s : string) : string := map_string lower_char s.

Definition is_empty (s : string) : bool :=
  match s with EmptyString => true | _ => false end.

Fixpoint trimStart (s : string) : string :=
  match s with
  | EmptyString => EmptyString
  | String c s' => if is_whitespace c then trimStart s' else s
  end.

Fixpoint trimEnd (s : string) : string :=
  match s with
  | EmptyString => EmptyString
  | String c s' =>
      let r := trimEnd s' in
      if is_whitespace c && is_empty r then EmptyString else String c r
  end.

Definition trim (s : string) : string := trimEnd (trimStart s).

(** [s.startsWith(p)], returning what follows the prefix. *)
Fixpoint strip_prefix (p s : string) : option string :=
  match p, s with
  | EmptyString, _ => Some s
  | String a p', String b s' =>
      if Ascii.eqb a b then strip_prefix p' s' else None
  | String _ _, EmptyString => None
  end.

Fixpoint join (sep : string) (l : list string) : string :=
  match l with
  | [] => EmptyString
  | [x] => x
  | x :: rest => x ++ sep ++ join sep rest
  end.

(** *** Decimal digits *)

Definition digit_char (d : Z) : ascii := ascii_of_nat (48 + Z.to_nat d).
Definition digit_val (c : ascii) : Z := Z.of_nat (nat_of_ascii c - 48).

Definition string_of_nonneg (z : Z) : string :=
  NilZero.string_of_uint (N.to_uint (Z.to_N z)).

Fixpoint fixed_digits (width : nat) (n : Z) : string :=
  match width with
  | O => EmptyString
  | S w => fixed_digits w (n / 10) ++ String (digit_char (n mod 10)) EmptyString
  end.

Fixpoint strip_trailing_zeros (s : string) : string :=
  match s with
  | EmptyString => EmptyString
  | String c s' =>
      let r := strip_trailing_zeros s' in
      if Ascii.eqb c "0" && is_empty r then EmptyString else String c r
  end.

(** The longest prefix of decimal digits: its value, its length, the rest. *)
Fixpoint take_digits (s : string) (acc : Z) (len : nat) : Z * nat * string :=
  match s with
  | String c s' =>
      if is_digit c then take_digits s' (10 * acc + digit_val c) (S len)
      else (acc, len, s)
  | EmptyString => (acc, len, s)
  end.

(** An optional sign: [true] for a minus. *)
Definition take_sign (s : string) : bool * string :=
  match s with
  | String "-" s' => (true, s')
  | String "+" s' => (false, s')
  | _ => (false, s)
  end.

Definition signed (neg : bool) (z : Z) : Z := if neg then - z else z.

(** *** Number to string and back *)

Fixpoint zeros (n : nat) : string :=
  match n with
  | O => EmptyString
  | S n' => String "0" (zeros n')
  end.

(** The first [n] characters of [s] and what follows them. *)
Fixpoint split_at (n : nat) (s : string) : string * string :=
  match n, s with
  | S n', String c s' =>
      let '(a, b) := split_at n' s' in (String c a, b)
  | _, _ => (EmptyString, s)
  end.

(** [Number.prototype.toString].  With [digits] the significant digits of
    the number, [k] their count and [n] the position of the decimal point
    after them, the four layouts of the standard: integer, fraction,
    leading zeros, exponent. *)
Definition number_toString (x : JsNumber) : string :=
  match x with
  | NaN => "NaN"
  | Infinity false => "Infinity"
  | Infinity true => "-Infinity"
  | Finite m s =>
      if m =? 0 then "0"
      else
        let all := string_of_nonneg (Z.abs m) in
        let digits := strip_trailing_zeros all in
        let k := Z.of_nat (String.length digits) in
        let n := Z.of_nat (String.length all) - Z.of_nat s in
        let body :=
          if (k <=? n) && (n <=? 21) then
            digits ++ zeros (Z.to_nat (n - k))
          else if (0 <? n) && (n <=? 21) then
            let '(ip, fp) := split_at (Z.to_nat n) digits in
            ip ++ "." ++ fp
          else if (-6 <? n) && (n <=? 0) then
            "0." ++ zeros (Z.to_nat (- n)) ++ digits
          else
            let e := n - 1 in
            let exponent :=
              (if e <? 0 then "e-" else "e+") ++ string_of_nonneg (Z.abs e) in
            match digits with
            | String d EmptyString => String d exponent
            | String d rest => String d ("." ++ rest ++ exponent)
            | EmptyString => exponent
            end in
        if m <? 0 then "-" ++ body else body
  end.

Definition ToString (v : JsValue) : string :=
  match v with
  | JUndefined => "undefined"
  | JNull => "null"
  | JBool true => "true"
  | JBool false => "false"
  | JNumber n => number_toString n
  | JString s => s
  end.

(** [parseInt(v, 10)]: leading white space, a sign, then the longest run
    of digits; [NaN] when there is none. *)
Definition parseInt (v : JsValue) : JsNumber :=
  let '(neg, s) := take_sign (trimStart (ToString v)) in
  let '(z, len, _) := take_digits s 0 O in
  match len with
  | O => NaN
  | _ => Finite (signed neg z) 0
  end.

(** The exponent part of a decimal literal, when one is there. *)
Definition take_exponent (s : string) : Z * string :=
  match s with
  | String c s' =>
      if Ascii.eqb c "e" || Ascii.eqb c "E" then
        let '(neg, s1) := take_sign s' in
        let '(e, len, rest) := take_digits s1 0 O in
        match len with
        | O => (0, s)
        | _ => (signed neg e, rest)
        end
      else (0, s)
  | EmptyString => (0, s)
  end.

Definition scale_by (m : Z) (s : nat) (e : Z) : JsNumber :=
  if 0 <=? e then
    let k := Z.to_nat e in
    if (k <=? s)%nat then Finite m (s - k) else Finite (m * pow10 (k - s)) 0
  else Finite m (s + Z.to_nat (- e)).

(** The longest prefix that is a [StrDecimalLiteral], with what follows. *)
Definition decimal_prefix (str : string) : option (JsNumber * string) :=
  let '(neg, s) := take_sign str in
  match strip_prefix "Infinity" s with
  | Some rest => Some (Infinity neg, rest)
  | None =>
      let '(ip, ilen, s1) := take_digits s 0 O in
      let '(m, flen, s2) :=
        match s1 with
        | String "." s1' =>
            let '(m, flen, s2) := take_digits s1' ip O in
            match ilen, flen with
            | O, O => (ip, O, s1)
            | _, _ => (m, flen, s2)
            end
        | _ => (ip, O, s1)
        end in
      match ilen, flen with
      | O, O => None
      | _, _ =>
          let '(e, rest) := take_exponent s2 in
          Some (scale_by (signed neg m) flen e, rest)
      end
  end.

(** [parseFloat(v)] *)
Definition parseFloat (v : JsValue) : JsNumber :=
  match decimal_prefix (trimStart (ToString v)) with
  | Some (n, _) => n
  | None => NaN
  end.

(** The digits of a literal in radix 2, 8 or 16: the value, when every
    character is a digit of the radix and there is at least one. *)
Definition radix_digit (radix : Z) (c : ascii) : option Z :=
  let n := Z.of_nat (nat_of_ascii c) in
  let d := if is_digit c then n - 48
           else if (97 <=? n) && (n <=? 102) then n - 87
           else if (65 <=? n) && (n <=? 70) then n - 55
           else radix in
  if d <? radix then Some d else None.

Fixpoint radix_digits (radix : Z) (s : string) (acc : Z) : option Z :=
  match s with
  | EmptyString => Some acc
  | String c s' =>
      match radix_digit radix c with
      | Some d => radix_digits radix s' (radix * acc + d)
      | None => None
      end
  end.

Definition radix_literal (s : string) : option Z :=
  match s with
  | String "0" (String p (String c rest)) =>
      let digits := String c rest in
      if Ascii.eqb p "x" || Ascii.eqb p "X" then radix_digits 16 digits 0
      else if Ascii.eqb p "o" || Ascii.eqb p "O" then radix_digits 8 digits 0
      else if Ascii.eqb p "b" || Ascii.eqb p "B" then radix_digits 2 digits 0
      else None
  | _ => None
  end.

(** [Number(v)] *)
Definition ToNumber (v : JsValue) : JsNumber :=
  match v with
  | JUndefined => NaN
  | JNull => Finite 0 0
  | JBool true => Finite 1 0
  | JBool false => Finite 0 0
  | JNumber n => n
  | JString s =>
      let t := trim s in
      if is_empty t then Finite 0 0
      else match radix_literal t with
           | Some z => Finite z 0
           | None =>
               match decimal_prefix t with
               | Some (n, EmptyString) => n
               | _ => NaN
               end
           end
  end.

(** *** [Intl.NumberFormat] for the [en-US] locale *)

(** Modelled from the spec: [LOCALE], imported from
    [@salesforce/i18n/locale], is the locale of the user; the grouping of
    Scenario C ("1,234") is that of [en-US], for which the formatting
    below is written. *)
Definition LOCALE : string := "en-US".

(** Digits in groups of three, from the right. *)
Fixpoint insert_commas (rev_digits : list ascii) (count : nat) : list ascii :=
  match rev_digits with
  | [] => []
  | c :: rest =>
      if (count =? 3)%nat then "," %char :: c :: insert_commas rest 1
      else c :: insert_commas rest (S count)
  end.

Definition group_thousands (digits : string) : string :=
  string_of_list_ascii
    (rev (insert_commas (rev (list_ascii_of_string digits)) O)).

(** [new Intl.NumberFormat(LOCALE, { minimumFractionDigits: 0,
    maximumFractionDigits: maxFrac }).format(n)]: rounding half away from
    zero to [maxFrac] fraction digits, no padding with zeros. *)
Definition NumberFormat_format (maxFrac : nat) (n : JsNumber) : string :=
  match n with
  | NaN => "NaN"
  | Infinity false => "∞"
  | Infinity true => "-∞"
  | Finite m s =>
      let a := Z.abs m in
      let r := (2 * a * pow10 maxFrac + pow10 s) / (2 * pow10 s) in
      let ip := group_thousands (string_of_nonneg (r / pow10 maxFrac)) in
      let fp := strip_trailing_zeros (fixed_digits maxFrac (r mod pow10 maxFrac)) in
      let body := if is_empty fp then ip else ip ++ "." ++ fp in
      if m <? 0 then "-" ++ body else body
  end.

(** The constructor reads [maximumFractionDigits] with a range check and
    throws a [RangeError] ([None]) outside 0..100 or on [NaN]. *)
Definition NumberFormat_maxFrac (digits : JsNumber) : option nat :=
  match digits with
  | Finite m s =>
      if (0 <=? m) && (m <=? 100 * pow10 s)
      then Some (Z.to_nat (m / pow10 s)) else None
  | _ => None
  end.

End Js.

Import Js.

(* ===================================================================== *)
(** ** Module constants                                                   *)
(* ===================================================================== *)

Definition MAX_ROWS : Z := 5.
Definition MAX_COLUMNS : Z := 5.
Definition MAX_TILES : Z := MAX_ROWS * MAX_COLUMNS.

Definition VALID_AGGREGATION_TYPES : list string :=
  ["SUM"; "AVERAGE"; "MAX"; "MIN"; "COUNT"; "COUNT_DISTINCT";
   "CONCATENATE"; "CONCATENATE_DISTINCT"; "FIRST"; "LAST"].

Definition NUMERIC_TYPES : list string :=
  ["SUM"; "AVERAGE"; "MAX"; "MIN"; "COUNT"; "COUNT_DISTINCT"].

Definition NUMERIC_FIELD_AGG_TYPES : list string :=
  ["SUM"; "AVERAGE"; "MAX"; "MIN"].

Definition TEXT_FIELD_AGG_TYPES : list string :=
  ["CONCATENATE"; "CONCATENATE_DISTINCT"].

(** The four values of the [FIELD_CATEGORY] object; as strings all four
    are truthy. *)
Inductive FIELD_CATEGORY : Type := NUMERIC | TEXT | DATE | UNKNOWN.

Definition NUMERIC_FIELD_ALLOWED_AGG_TYPES : list string :=
  ["SUM"; "AVERAGE"; "MAX"; "MIN"; "COUNT"; "COUNT_DISTINCT"; "FIRST"; "LAST"].

Definition TEXT_FIELD_ALLOWED_AGG_TYPES : list string :=
  ["CONCATENATE"; "CONCATENATE_DISTINCT"; "COUNT"; "COUNT_DISTINCT";
   "FIRST"; "LAST"].

Definition DATE_FIELD_ALLOWED_AGG_TYPES : list string :=
  ["MAX"; "MIN"; "COUNT"; "COUNT_DISTINCT"].

Definition LOAD_TIMEOUT_MS : Z := 15000.

Record AggregationOption : Type := mkOption {
  opt_label : string;
  opt_value : string
}.

Definition BASE_AGGREGATION_OPTIONS : list AggregationOption :=
  [ mkOption "Average" "AVERAGE";
    mkOption "Concatenate" "CONCATENATE";
    mkOption "Concatenate Distinct" "CONCATENATE_DISTINCT";
    mkOption "Count" "COUNT";
    mkOption "Count Distinct" "COUNT_DISTINCT";
    mkOption "Max" "MAX";
    mkOption "Min" "MIN";
    mkOption "Sum" "SUM" ].

(** [array.includes(v)] and [set.has(v)] for collections of strings. *)
Definition includes (l : list string) (v : JsValue) : bool :=
  existsb (fun s => strict_eq (JString s) v) l.

(* ===================================================================== *)
(** ** Module-level helpers                                               *)
(* ===================================================================== *)

(** [raw.toString().trim().toUpperCase()], with the alias of AVERAGE. *)
Definition normalizeAggTypeValue (raw : JsValue) : JsValue :=
  if is_nullish raw then JNull
  else
    let upper := toUpperCase (trim (ToString raw)) in
    if is_empty upper then JNull
    else JString (if String.eqb upper "AVG" then "AVERAGE" else upper).

Definition inferFieldCategoryFromAggregationType (rawAggType : JsValue)
  : FIELD_CATEGORY :=
  let canonical := normalizeAggTypeValue rawAggType in
  if negb (truthy canonical) then UNKNOWN
  else if includes NUMERIC_FIELD_AGG_TYPES canonical then NUMERIC
  else if includes TEXT_FIELD_AGG_TYPES canonical then TEXT
  else UNKNOWN.

(** [null] stands for "no filtering". *)
Definition getAllowedAggregationsForCategory (category : FIELD_CATEGORY)
  : option (list string) :=
  match category with
  | NUMERIC => Some NUMERIC_FIELD_ALLOWED_AGG_TYPES
  | TEXT => Some TEXT_FIELD_ALLOWED_AGG_TYPES
  | DATE => Some DATE_FIELD_ALLOWED_AGG_TYPES
  | UNKNOWN => None
  end.

(* ===================================================================== *)
(** ** The tile view model                                                *)
(* ===================================================================== *)

Record MenuOption : Type := mkMenuOption {
  mo_label : string;
  mo_value : string;
  mo_isSelected : bool;
  mo_itemClass : string;
  mo_ariaChecked : string
}.

Record Tile : Type := mkTile {
  (* configuration *)
  index : Z;
  label : JsValue;
  aggregateFieldApiName : JsValue;
  initialAggregationType : JsValue;
  filterCondition : JsValue;
  decimalPlaces : JsValue;
  fieldCategory : FIELD_CATEGORY;
  (* runtime state *)
  aggregateType : JsValue;
  isLoading : bool;
  error : JsValue;
  value : JsValue;
  recordCount : JsValue;
  isCurrency : bool;
  isPercent : bool;
  isDate : bool;
  fieldLabel : JsValue;
  isAggregationMenuOpen : bool;
  (* derived view fields *)
  displayValue : JsValue;
  hasRecordCount : bool;
  summaryRecordLabel : JsValue;
  summaryLabel : JsValue;
  aggregationMenuOptions : list MenuOption;
  gearMenuClass : string
}.

Definition resolveFieldCategory (tile : Tile) : FIELD_CATEGORY :=
  let category := fieldCategory tile in
  if isDate tile then DATE
  else if isCurrency tile || isPercent tile then NUMERIC
  else category.

(* ===================================================================== *)
(** ** The component instance                                             *)
(* ===================================================================== *)

(** The four numbered App Builder properties of one tile slot:
    [tileNLabel], [tileNAggregateFieldApiName],
    [tileNInitialAggregationType] and [tileNFilterCondition]. *)
Record TileProps : Type := mkTileProps {
  tileLabel : JsValue;
  tileAggregateFieldApiName : JsValue;
  tileInitialAggregationType : JsValue;
  tileFilterCondition : JsValue
}.

(** [this]: the public properties the engine reads and its private
    state.  The public properties are set from outside (the App Builder)
    and no handler writes them.  [tileProps n] stands for the properties
    [tile<n>...];
    [_tileTimeouts] is an object, keyed by the property name the tile
    index converts to, holding timer handles (positive integers). *)
Record Grid : Type := mkGrid {
  recordId : JsValue;
  rows : JsValue;
  columns : JsValue;
  childObjectApiName : JsValue;
  relationshipFieldApiName : JsValue;
  grandchildObjectApiName : JsValue;
  grandchildRelationshipFieldApiName : JsValue;
  gridDecimalPlaces : JsValue;            (* [this.decimalPlaces] *)
  tileProps : Z -> TileProps;
  tiles : list Tile;
  _initialized : bool;
  _tileTimeouts : gmap string positive;
  _instanceId : JsValue
}.

Definition set_tiles (this : Grid) (ts : list Tile) : Grid :=
  mkGrid (recordId this) (rows this) (columns this) (childObjectApiName this)
    (relationshipFieldApiName this) (grandchildObjectApiName this)
    (grandchildRelationshipFieldApiName this) (gridDecimalPlaces this)
    (tileProps this) ts (_initialized this) (_tileTimeouts this)
    (_instanceId this).

Definition set_tileTimeouts (this : Grid) (m : gmap string positive) : Grid :=
  mkGrid (recordId this) (rows this) (columns this) (childObjectApiName this)
    (relationshipFieldApiName this) (grandchildObjectApiName this)
    (grandchildRelationshipFieldApiName this) (gridDecimalPlaces this)
    (tileProps this) (tiles this) (_initialized this) m (_instanceId this).

Definition set_initialized (this : Grid) (b : bool) : Grid :=
  mkGrid (recordId this) (rows this) (columns this) (childObjectApiName this)
    (relationshipFieldApiName this) (grandchildObjectApiName this)
    (grandchildRelationshipFieldApiName this) (gridDecimalPlaces this)
    (tileProps this) (tiles this) b (_tileTimeouts this) (_instanceId this).

Definition set_instanceId (this : Grid) (id : JsValue) : Grid :=
  mkGrid (recordId this) (rows this) (columns this) (childObjectApiName this)
    (relationshipFieldApiName this) (grandchildObjectApiName this)
    (grandchildRelationshipFieldApiName this) (gridDecimalPlaces this)
    (tileProps this) (tiles this) (_initialized this) (_tileTimeouts this) id.

(** *** Layout helpers *)

Definition normalizeDimension (v : JsValue) (min max : Z) : Z :=
  let num := parseInt v in
  if isNaN num || num_ltb num (of_Z min) then min
  else if num_ltb (of_Z max) num then max
  else match num with
       | Finite m s => m / pow10 s        (* [parseInt] yields integers *)
       | _ => min
       end.

Definition normalizedRows (this : Grid) : Z :=
  normalizeDimension (rows this) 1 MAX_ROWS.

Definition normalizedColumns (this : Grid) : Z :=
  normalizeDimension (columns this) 1 MAX_COLUMNS.

(** *** Grandchild mode *)

(** [x && x.toString().trim()] *)
Definition trimmed_if_set (x : JsValue) : JsValue :=
  js_and x (JString (trim (ToString x))).

Definition isGrandchildMode (this : Grid) : bool :=
  let obj := trimmed_if_set (grandchildObjectApiName this) in
  let rel := trimmed_if_set (grandchildRelationshipFieldApiName this) in
  truthy (js_and obj rel).

Definition aggregateObjectApiNameForLabel (this : Grid) : JsValue :=
  if isGrandchildMode this && truthy (grandchildObjectApiName this)
  then grandchildObjectApiName this
  else childObjectApiName this.

(** *** The shared configuration error *)

Definition missingProperties (this : Grid) : list string :=
  (if negb (truthy (childObjectApiName this))
   then ["Child Object"] else []) ++
  (if negb (truthy (relationshipFieldApiName this))
   then ["Relationship Field (lookup on child)"] else []) ++
  (let hasAnyGrandchildConfig :=
     js_or (trimmed_if_set (grandchildObjectApiName this))
           (trimmed_if_set (grandchildRelationshipFieldApiName this)) in
   if truthy hasAnyGrandchildConfig then
     (if negb (truthy (grandchildObjectApiName this))
      then ["Grandchild Object"] else []) ++
     (if negb (truthy (grandchildRelationshipFieldApiName this))
      then ["Relationship Field (lookup on grandchild)"] else [])
   else [])%list.

Definition dquote : string := String (ascii_of_nat 34) EmptyString.

Definition globalConfigError (this : Grid) : JsValue :=
  let missing := missingProperties this in
  match missing with
  | [] => JNull
  | _ =>
      JString
        ("Rollup Tile Grid is not fully configured yet. Missing: " ++
         join ", " missing ++
         ". In the Lightning App Builder, set these properties (and at minimum configure "
         ++ dquote ++ "Tile 1 Aggregate Field" ++ dquote ++
         ") before using this component.")
  end.

(** *** The object label used in summaries *)

Definition rev_string (s : string) : string :=
  string_of_list_ascii (rev (list_ascii_of_string s)).

Fixpoint strip_prefix_ci (p s : string) : option string :=
  match p, s with
  | EmptyString, _ => Some s
  | String a p', String b s' =>
      if Ascii.eqb (lower_char a) (lower_char b)
      then strip_prefix_ci p' s' else None
  | String _ _, EmptyString => None
  end.

(** [s.replace(/<suffix>$/i, '')] for a literal suffix. *)
Definition remove_suffix_ci (suffix s : string) : string :=
  match strip_prefix_ci (rev_string suffix) (rev_string s) with
  | Some rest => rev_string rest
  | None => s
  end.

(** [s.split('__')] *)
Fixpoint split_double_underscore (s : string) (cur : list ascii) : list string :=
  match s with
  | EmptyString => [string_of_list_ascii (rev cur)]
  | String c s' =>
      match s' with
      | String d s'' =>
          if Ascii.eqb c "_" && Ascii.eqb d "_"
          then string_of_list_ascii (rev cur) :: split_double_underscore s'' []
          else split_double_underscore s' (c :: cur)
      | EmptyString => split_double_underscore s' (c :: cur)
      end
  end.

(** [s.split(' ')] *)
Fixpoint split_spaces (s : string) (cur : list ascii) : list string :=
  match s with
  | EmptyString => [string_of_list_ascii (rev cur)]
  | String c s' =>
      if Ascii.eqb c " "
      then string_of_list_ascii (rev cur) :: split_spaces s' []
      else split_spaces s' (c :: cur)
  end.

(** [s.replace(/_/g, ' ')] *)
Definition underscores_to_spaces (s : string) : string :=
  map_string (fun c => if Ascii.eqb c "_" then " "%char else c) s.

(** [s.replace(/([a-z])([A-Z])/g, '$1 $2')] *)
Fixpoint space_camel_case (s : string) : string :=
  match s with
  | EmptyString => EmptyString
  | String a s' =>
      match s' with
      | String b _ =>
          if is_lower a && is_upper b
          then String a (String " " (space_camel_case s'))
          else String a (space_camel_case s')
      | EmptyString => String a EmptyString
      end
  end.

(** [w ? w[0].toUpperCase() + w.slice(1).toLowerCase() : ''] *)
Definition capitalize (w : string) : string :=
  match w with
  | EmptyString => EmptyString
  | String c rest => String (upper_char c) (toLowerCase rest)
  end.

Definition childObjectLabelSingular (this : Grid) : string :=
  match aggregateObjectApiNameForLabel this with
  | JString apiName =>
      if is_empty apiName then "record"
      else
        let name := trim apiName in
        let name := remove_suffix_ci "__x" (remove_suffix_ci "__c" name) in
        let parts := split_double_underscore name [] in
        let name := match parts with
                    | _ :: second :: _ => second
                    | _ => name
                    end in
        let name := trim (space_camel_case (underscores_to_spaces name)) in
        if is_empty name then "record"
        else
          let name := trim (join " " (List.map capitalize (split_spaces name []))) in
          if is_empty name then "record" else name
  | _ => "record"
  end.

(* ===================================================================== *)
(** ** Recomputation of the derived fields                                *)
(* ===================================================================== *)

Definition normalizeAggregationType (raw : JsValue) : JsValue :=
  let canonical := normalizeAggTypeValue raw in
  if negb (truthy canonical) then JString "SUM"
  else if includes VALID_AGGREGATION_TYPES canonical then canonical
  else JString "SUM".

(** The local [aggregateType] of [recomputeTileDerivedFields]. *)
Definition currentAggregateType (tile : Tile) : JsValue :=
  js_or
    (normalizeAggTypeValue
       (js_or (js_or (aggregateType tile) (initialAggregationType tile))
              (JString "SUM")))
    (JString "SUM").

Definition isDateAggregate (tile : Tile) : bool :=
  isDate tile &&
  (strict_eq (currentAggregateType tile) (JString "MIN") ||
   strict_eq (currentAggregateType tile) (JString "MAX")).

Definition isNumericAggregate (tile : Tile) : bool :=
  includes NUMERIC_TYPES (currentAggregateType tile) &&
  negb (isDateAggregate tile).

(** The [fractionDigits] handed to [Intl.NumberFormat]. *)
Definition fractionDigits (tile : Tile) : JsNumber :=
  if negb (is_nullish (decimalPlaces tile))
  then parseInt (decimalPlaces tile)
  else of_Z 2.

(** The numeric branch: parse, format, wrap; the raw value when the value
    does not parse or the formatter throws. *)
Definition formatNumericValue (tile : Tile) : JsValue :=
  let num := parseFloat (value tile) in
  if isNaN num then value tile
  else
    match NumberFormat_maxFrac (fractionDigits tile) with
    | Some digits =>
        let formatted := NumberFormat_format digits num in
        if isCurrency tile then JString ("$" ++ formatted)
        else if isPercent tile then JString (formatted ++ "%")
        else JString formatted
    | None => value tile
    end.

Definition computeDisplayValue (tile : Tile) : JsValue :=
  if is_nullish (value tile) || strict_eq (value tile) (JString EmptyString)
  then JString "-"
  else if isNumericAggregate tile then formatNumericValue tile
  else value tile.

Definition computeHasRecordCount (tile : Tile) : bool :=
  negb (is_nullish (recordCount tile)).

Definition computeSummaryRecordLabel (this : Grid) (tile : Tile) : JsValue :=
  if negb (is_nullish (recordCount tile)) then
    let count := ToNumber (recordCount tile) in
    let objectLabel :=
      if is_empty (childObjectLabelSingular this) then "record"
      else childObjectLabelSingular this in
    if isNaN count then
      JString (ToString (recordCount tile) ++ " " ++ objectLabel ++ " records")
    else
      let formattedCount := NumberFormat_format 3 count in
      let recordWord := if num_eqb count (of_Z 1) then "record" else "records" in
      JString (formattedCount ++ " " ++ objectLabel ++ " " ++ recordWord)
  else JNull.

(** [v && typeof v === 'string' ? v.trim() : ''] *)
Definition trimmed_string (v : JsValue) : string :=
  match v with
  | JString s => trim s
  | _ => EmptyString
  end.

Definition fieldLabelForSummary (tile : Tile) : string :=
  let serverLabel := trimmed_string (fieldLabel tile) in
  if negb (is_empty serverLabel) then serverLabel
  else
    let explicitLabel := trimmed_string (label tile) in
    if negb (is_empty explicitLabel) then explicitLabel
    else
      let apiName := trimmed_string (aggregateFieldApiName tile) in
      if negb (is_empty apiName) then apiName else "this field".

Definition friendlyAggregationLabel (aggType : JsValue) : string :=
  if strict_eq aggType (JString "AVERAGE") || strict_eq aggType (JString "AVG")
  then "Average"
  else if strict_eq aggType (JString "COUNT") then "Count"
  else if strict_eq aggType (JString "COUNT_DISTINCT") then "Distinct count"
  else if strict_eq aggType (JString "MAX") then "Maximum"
  else if strict_eq aggType (JString "MIN") then "Minimum"
  else if strict_eq aggType (JString "FIRST") then "First value"
  else if strict_eq aggType (JString "LAST") then "Last value"
  else if strict_eq aggType (JString "CONCATENATE") then "Combined values"
  else if strict_eq aggType (JString "CONCATENATE_DISTINCT")
  then "Unique combined values"
  else "Sum".

Definition computeSummaryLabel (this : Grid) (tile : Tile) : JsValue :=
  let phrase := friendlyAggregationLabel (currentAggregateType tile) in
  if truthy (computeSummaryRecordLabel this tile) then
    JString (phrase ++ " of '" ++ fieldLabelForSummary tile ++ "' across " ++
             ToString (computeSummaryRecordLabel this tile))
  else
    JString (phrase ++ " of '" ++ fieldLabelForSummary tile ++ "'").

Definition computeAggregationMenuOptions (tile : Tile) : list MenuOption :=
  let allowedSet := getAllowedAggregationsForCategory (resolveFieldCategory tile) in
  List.map
    (fun opt =>
       let isSelected :=
         strict_eq (JString (opt_value opt)) (currentAggregateType tile) in
       mkMenuOption (opt_label opt) (opt_value opt) isSelected
         ("slds-dropdown__item" ++ (if isSelected then " slds-is-selected" else ""))
         (if isSelected then "true" else "false"))
    (List.filter
       (fun opt =>
          match allowedSet with
          | None => true
          | Some allowed => includes allowed (JString (opt_value opt))
          end)
       BASE_AGGREGATION_OPTIONS).

Definition computeGearMenuClass (tile : Tile) : string :=
  "st-rollup-gear-menu slds-dropdown-trigger slds-dropdown-trigger_click" ++
  (if isAggregationMenuOpen tile then " slds-is-open" else "").

(** [{ ...tile, aggregateType, fieldCategory, displayValue, hasRecordCount,
       summaryRecordLabel, summaryLabel, aggregationMenuOptions,
       gearMenuClass }] *)
Definition recomputeTileDerivedFields (this : Grid) (tile : Tile) : Tile :=
  {| index := index tile;
     label := label tile;
     aggregateFieldApiName := aggregateFieldApiName tile;
     initialAggregationType := initialAggregationType tile;
     filterCondition := filterCondition tile;
     decimalPlaces := decimalPlaces tile;
     fieldCategory := resolveFieldCategory tile;
     aggregateType := currentAggregateType tile;
     isLoading := isLoading tile;
     error := error tile;
     value := value tile;
     recordCount := recordCount tile;
     isCurrency := isCurrency tile;
     isPercent := isPercent tile;
     isDate := isDate tile;
     fieldLabel := fieldLabel tile;
     isAggregationMenuOpen := isAggregationMenuOpen tile;
     displayValue := computeDisplayValue tile;
     hasRecordCount := computeHasRecordCount tile;
     summaryRecordLabel := computeSummaryRecordLabel this tile;
     summaryLabel := computeSummaryLabel this tile;
     aggregationMenuOptions := computeAggregationMenuOptions tile;
     gearMenuClass := computeGearMenuClass tile |}.

(* ===================================================================== *)
(** ** Tile initialization                                                *)
(* ===================================================================== *)

Definition buildInitialTileConfig (this : Grid) (idx : Z) : Tile :=
  let props := tileProps this idx in
  let initialAggregationType :=
    normalizeAggregationType (tileInitialAggregationType props) in
  let fieldCategory :=
    inferFieldCategoryFromAggregationType initialAggregationType in
  let decimalPlaces :=
    if negb (is_nullish (gridDecimalPlaces this))
    then gridDecimalPlaces this else JNumber (of_Z 2) in
  let baseTile :=
    {| index := idx;
       label := js_or (tileLabel props)
                      (JString ("Tile " ++ number_toString (of_Z idx)));
       aggregateFieldApiName := tileAggregateFieldApiName props;
       initialAggregationType := initialAggregationType;
       filterCondition := tileFilterCondition props;
       decimalPlaces := decimalPlaces;
       fieldCategory := fieldCategory;
       aggregateType := initialAggregationType;
       isLoading := false;
       error := JNull;
       value := JNull;
       recordCount := JNull;
       isCurrency := false;
       isPercent := false;
       isDate := false;
       fieldLabel := JNull;
       isAggregationMenuOpen := false;
       displayValue := JString "-";
       hasRecordCount := false;
       summaryRecordLabel := JNull;
       summaryLabel := JNull;
       aggregationMenuOptions := [];
       gearMenuClass := EmptyString |} in
  recomputeTileDerivedFields this baseTile.

Definition maxSlots (this : Grid) : Z :=
  Z.min (normalizedRows this * normalizedColumns this) MAX_TILES.

(** The indices the [for] loop runs over: 1 .. [maxSlots]. *)
Definition slotIndices (this : Grid) : list Z :=
  List.map Z.of_nat (seq 1 (Z.to_nat (maxSlots this))).

Definition initializeTilesFromConfig (this : Grid) : Grid :=
  set_tiles this (List.map (buildInitialTileConfig this) (slotIndices this)).

(* ===================================================================== *)
(** ** The aggregation service and the page                               *)
(* ===================================================================== *)

(** The parameters of one [getRollup] call. *)
Module Request.
Record t : Type := mk {
  parentId : JsValue;
  childObjectApiName : JsValue;
  relationshipFieldApiName : JsValue;
  aggregateFieldApiName : JsValue;
  aggregateType : JsValue;
  filterCondition : JsValue;
  grandchildObjectApiName : JsValue;
  grandchildRelationshipFieldApiName : JsValue
}.
End Request.

(** The object the service resolves with. *)
Module Response.
Record t : Type := mk {
  value : JsValue;
  recordCount : JsValue;
  isCurrency : JsValue;
  isPercent : JsValue;
  isDate : JsValue;
  fieldLabel : JsValue;
  errorMessage : JsValue
}.
End Response.

(** What a rejected promise carries: an error object, seen through
    [error.body && error.body.message] and [error.message], or a
    primitive value. *)
Inductive Thrown : Type :=
| ThrownObject (bodyMessage message : JsValue)
| ThrownValue (v : JsValue).

(** How the race between the service call and the timeout settles; a
    falsy resolution is [Resolved None]. *)
Inductive Settlement : Type :=
| Resolved (data : option Response.t)
| Rejected (err : Thrown).

(** The two page-wide signals. *)
Inductive Signal : Type :=
| RefreshSignal (sourceRecordId : JsValue)
| CloseMenusSignal (instanceId : JsValue) (tileIndex : JsNumber).

(** What lies outside the instance: the window's timers, the calls made
    to the service, the events dispatched on the window, the module-level
    instance counter. *)
Record Env : Type := mkEnv {
  windowDefined : bool;
  nextTimer : positive;
  pendingTimers : gset positive;
  requests : list Request.t;
  dispatched : list Signal;
  NEXT_INSTANCE_ID : Z
}.

Definition setTimeout (env : Env) : positive * Env :=
  (nextTimer env,
   mkEnv (windowDefined env) (Pos.succ (nextTimer env))
         ({[ nextTimer env ]} ∪ pendingTimers env)
         (requests env) (dispatched env) (NEXT_INSTANCE_ID env)).

Definition clearTimeout (id : positive) (env : Env) : Env :=
  mkEnv (windowDefined env) (nextTimer env) (pendingTimers env ∖ {[ id ]})
        (requests env) (dispatched env) (NEXT_INSTANCE_ID env).

Definition getRollup (req : Request.t) (env : Env) : Env :=
  mkEnv (windowDefined env) (nextTimer env) (pendingTimers env)
        (requests env ++ [req]) (dispatched env) (NEXT_INSTANCE_ID env).

Definition dispatchEvent (sig : Signal) (env : Env) : Env :=
  mkEnv (windowDefined env) (nextTimer env) (pendingTimers env)
        (requests env) (dispatched env ++ [sig]) (NEXT_INSTANCE_ID env).

Definition takeInstanceId (env : Env) : Z * Env :=
  (NEXT_INSTANCE_ID env,
   mkEnv (windowDefined env) (nextTimer env) (pendingTimers env)
         (requests env) (dispatched env) (NEXT_INSTANCE_ID env + 1)).

(* ===================================================================== *)
(** ** Loading a tile                                                     *)
(* ===================================================================== *)

(** [{ ...tile, isLoading, error, value, recordCount, isCurrency,
       isPercent, isDate, fieldLabel }] *)
Definition withLoadState (tile : Tile) (isLoading' : bool) (error' value'
    recordCount' : JsValue) (isCurrency' isPercent' isDate' : bool)
    (fieldLabel' : JsValue) : Tile :=
  {| index := index tile;
     label := label tile;
     aggregateFieldApiName := aggregateFieldApiName tile;
     initialAggregationType := initialAggregationType tile;
     filterCondition := filterCondition tile;
     decimalPlaces := decimalPlaces tile;
     fieldCategory := fieldCategory tile;
     aggregateType := aggregateType tile;
     isLoading := isLoading';
     error := error';
     value := value';
     recordCount := recordCount';
     isCurrency := isCurrency';
     isPercent := isPercent';
     isDate := isDate';
     fieldLabel := fieldLabel';
     isAggregationMenuOpen := isAggregationMenuOpen tile;
     displayValue := displayValue tile;
     hasRecordCount := hasRecordCount tile;
     summaryRecordLabel := summaryRecordLabel tile;
     summaryLabel := summaryLabel tile;
     aggregationMenuOptions := aggregationMenuOptions tile;
     gearMenuClass := gearMenuClass tile |}.

(** The recurring reset [{ ...tile, isLoading, error, value: null,
    recordCount: null, isCurrency: false, isPercent: false, isDate: false,
    fieldLabel: null }]. *)
Definition withClearedResult (tile : Tile) (isLoading' : bool) (error' : JsValue)
  : Tile :=
  withLoadState tile isLoading' error' JNull JNull false false false JNull.

(** [tile.index === index] *)
Definition hasIndex (idx : JsNumber) (tile : Tile) : bool :=
  num_eqb (of_Z (index tile)) idx.

(** [this.tiles = this.tiles.map(tile => tile.index === index ? f(tile) : tile)] *)
Definition updateTile (this : Grid) (idx : JsNumber) (f : Tile -> Tile) : Grid :=
  set_tiles this
    (List.map (fun tile => if hasIndex idx tile then f tile else tile)
              (tiles this)).

(** [this.tiles.find(t => t.index === index)] *)
Definition findTile (this : Grid) (idx : JsNumber) : option Tile :=
  List.find (hasIndex idx) (tiles this).

Definition tileConfigMessage (idx : JsNumber) : string :=
  "Tile " ++ number_toString idx ++ " is not fully configured. Set " ++
  dquote ++ "Tile " ++ number_toString idx ++ " Aggregate Field" ++ dquote ++
  " in the Lightning App Builder.".

Definition timeoutKey (idx : JsNumber) : string := number_toString idx.

(** Clearing the pending timeout of a tile, when there is one. *)
Definition clearTileTimeout (this : Grid) (idx : JsNumber) (env : Env)
  : Grid * Env :=
  match _tileTimeouts this !! timeoutKey idx with
  | Some id =>
      (set_tileTimeouts this (delete (timeoutKey idx) (_tileTimeouts this)),
       clearTimeout id env)
  | None => (this, env)
  end.

(** The [getRollup] parameters built from the tile after its reset. *)
Definition rollupRequest (this : Grid) (tileAfterReset : Tile) : Request.t :=
  let aggregateTypeToUse :=
    js_or (js_or (aggregateType tileAfterReset)
                 (initialAggregationType tileAfterReset))
          (JString "SUM") in
  {| Request.parentId := recordId this;
     Request.childObjectApiName := childObjectApiName this;
     Request.relationshipFieldApiName := relationshipFieldApiName this;
     Request.aggregateFieldApiName := aggregateFieldApiName tileAfterReset;
     Request.aggregateType := aggregateTypeToUse;
     Request.filterCondition := filterCondition tileAfterReset;
     Request.grandchildObjectApiName :=
       if isGrandchildMode this then grandchildObjectApiName this else JNull;
     Request.grandchildRelationshipFieldApiName :=
       if isGrandchildMode this
       then grandchildRelationshipFieldApiName this else JNull |}.

(** [loadTile] runs to its [await] or returns before it. *)
Inductive LoadStep : Type :=
| Returned (this : Grid) (env : Env)
| Awaiting (this : Grid) (env : Env).

Definition loadTile_begin (this : Grid) (idx : JsNumber) (env : Env) : LoadStep :=
  let globalConfigError := globalConfigError this in
  if truthy globalConfigError then
    Returned
      (updateTile this idx (fun tile =>
         recomputeTileDerivedFields this
           (withClearedResult tile false globalConfigError)))
      env
  else
    match findTile this idx with
    | None => Returned this env
    | Some currentTile =>
        if negb (truthy (aggregateFieldApiName currentTile)) then
          let configMsg := JString (tileConfigMessage idx) in
          Returned
            (updateTile this idx (fun tile =>
               recomputeTileDerivedFields this
                 (withClearedResult tile false configMsg)))
            env
        else
          let '(this1, env1) := clearTileTimeout this idx env in
          let this2 :=
            updateTile this1 idx (fun tile =>
              recomputeTileDerivedFields this1
                (withClearedResult tile true JNull)) in
          let '(id, env2) := setTimeout env1 in
          let this3 :=
            set_tileTimeouts this2
              (<[ timeoutKey idx := id ]> (_tileTimeouts this2)) in
          match findTile this3 idx with
          | None =>
              let '(this4, env4) := clearTileTimeout this3 idx env2 in
              Returned this4 env4
          | Some tileAfterReset =>
              Awaiting this3 (getRollup (rollupRequest this3 tileAfterReset) env2)
          end
    end.

(** The message shown for a rejection. *)
Definition rejectionMessage (err : Thrown) : JsValue :=
  let default := JString "Unexpected error while loading rollup." in
  match err with
  | ThrownObject bodyMessage message =>
      if truthy bodyMessage then bodyMessage
      else if truthy message then message
      else default
  | ThrownValue v =>
      if truthy v && is_string v then v else default
  end.

Definition timeoutError : Thrown :=
  ThrownObject JUndefined
    (JString "Timed out while loading rollup. Please refresh the page or contact your admin.").

(** The state a tile takes when the race settles. *)
Definition settledTile (this : Grid) (outcome : Settlement) (tile : Tile) : Tile :=
  match outcome with
  | Resolved None =>
      recomputeTileDerivedFields this
        (withClearedResult tile false
           (JString "No data was returned for this rollup."))
  | Resolved (Some data) =>
      let errorMsg :=
        if truthy (Response.errorMessage data)
        then Response.errorMessage data else JNull in
      let value :=
        if truthy (Response.errorMessage data)
        then JUndefined else Response.value data in
      recomputeTileDerivedFields this
        (withLoadState tile false errorMsg value
           (Response.recordCount data)
           (truthy (Response.isCurrency data))
           (truthy (Response.isPercent data))
           (truthy (Response.isDate data))
           (Response.fieldLabel data))
  | Rejected err =>
      recomputeTileDerivedFields this
        (withClearedResult tile false (rejectionMessage err))
  end.

(** [loadTile] from its [await] on, [finally] block included. *)
Definition loadTile_settle (this : Grid) (idx : JsNumber) (outcome : Settlement)
    (env : Env) : Grid * Env :=
  clearTileTimeout (updateTile this idx (settledTile this outcome)) idx env.

Definition refreshAllTiles (this : Grid) (env : Env) : Grid * Env :=
  fold_left
    (fun st tile =>
       match loadTile_begin (fst st) (of_Z (index tile)) (snd st) with
       | Returned this' env' | Awaiting this' env' => (this', env')
       end)
    (tiles this) (this, env).

(* ===================================================================== *)
(** ** Dropdown menus                                                     *)
(* ===================================================================== *)

(** [{ ...tile, isAggregationMenuOpen }] *)
Definition withMenuOpen (tile : Tile) (isOpen : bool) : Tile :=
  {| index := index tile;
     label := label tile;
     aggregateFieldApiName := aggregateFieldApiName tile;
     initialAggregationType := initialAggregationType tile;
     filterCondition := filterCondition tile;
     decimalPlaces := decimalPlaces tile;
     fieldCategory := fieldCategory tile;
     aggregateType := aggregateType tile;
     isLoading := isLoading tile;
     error := error tile;
     value := value tile;
     recordCount := recordCount tile;
     isCurrency := isCurrency tile;
     isPercent := isPercent tile;
     isDate := isDate tile;
     fieldLabel := fieldLabel tile;
     isAggregationMenuOpen := isOpen;
     displayValue := displayValue tile;
     hasRecordCount := hasRecordCount tile;
     summaryRecordLabel := summaryRecordLabel tile;
     summaryLabel := summaryLabel tile;
     aggregationMenuOptions := aggregationMenuOptions tile;
     gearMenuClass := gearMenuClass tile |}.

(** [{ ...tile, aggregateType }] *)
Definition withAggregateType (tile : Tile) (aggregateType' : JsValue) : Tile :=
  {| index := index tile;
     label := label tile;
     aggregateFieldApiName := aggregateFieldApiName tile;
     initialAggregationType := initialAggregationType tile;
     filterCondition := filterCondition tile;
     decimalPlaces := decimalPlaces tile;
     fieldCategory := fieldCategory tile;
     aggregateType := aggregateType';
     isLoading := isLoading tile;
     error := error tile;
     value := value tile;
     recordCount := recordCount tile;
     isCurrency := isCurrency tile;
     isPercent := isPercent tile;
     isDate := isDate tile;
     fieldLabel := fieldLabel tile;
     isAggregationMenuOpen := isAggregationMenuOpen tile;
     displayValue := displayValue tile;
     hasRecordCount := hasRecordCount tile;
     summaryRecordLabel := summaryRecordLabel tile;
     summaryLabel := summaryLabel tile;
     aggregationMenuOptions := aggregationMenuOptions tile;
     gearMenuClass := gearMenuClass tile |}.

(** [{ ...tile, isLoading: false, error: msg }] *)
Definition withError (tile : Tile) (msg : JsValue) : Tile :=
  withLoadState tile false msg (value tile) (recordCount tile)
    (isCurrency tile) (isPercent tile) (isDate tile) (fieldLabel tile).

Definition closeAllAggregationMenus (this : Grid) : Grid :=
  let anyOpen := existsb isAggregationMenuOpen (tiles this) in
  let updated :=
    List.map
      (fun tile =>
         if isAggregationMenuOpen tile
         then recomputeTileDerivedFields this (withMenuOpen tile false)
         else tile)
      (tiles this) in
  if anyOpen then set_tiles this updated else this.

Definition handleRootClick (this : Grid) : Grid :=
  closeAllAggregationMenus this.

(** [hasTemplate] is [!!this.template]; [targetInside] is
    [this.template.contains(event.target)]. *)
Definition handleWindowClick (this : Grid) (hasTemplate targetInside : bool)
  : Grid :=
  if negb hasTemplate then this
  else if targetInside then this
  else closeAllAggregationMenus this.

(** [detail] is [event.detail.instanceId] of an event that has a detail. *)
Definition handleGlobalCloseMenus (this : Grid) (detail : option JsValue) : Grid :=
  match detail with
  | None => this
  | Some instanceId =>
      if negb (truthy instanceId) || strict_eq instanceId (_instanceId this)
      then this
      else closeAllAggregationMenus this
  end.

(** [dataIndex] is [event.currentTarget.dataset.index]. *)
Definition handleGearClick (this : Grid) (dataIndex : JsValue) (env : Env)
  : Grid * Env :=
  let idx := ToNumber dataIndex in
  if negb (truthy (JNumber idx)) then (this, env)
  else
    let env1 :=
      if windowDefined env
      then dispatchEvent (CloseMenusSignal (_instanceId this) idx) env
      else env in
    (set_tiles this
       (List.map
          (fun tile =>
             if hasIndex idx tile then
               recomputeTileDerivedFields this
                 (withMenuOpen tile (negb (isAggregationMenuOpen tile)))
             else if isAggregationMenuOpen tile then
               recomputeTileDerivedFields this (withMenuOpen tile false)
             else tile)
          (tiles this)),
     env1).

(** [dataIndex] and [dataValue] are the [index] and [value] entries of
    [event.currentTarget.dataset]. *)
Definition handleAggregationMenuClick (this : Grid) (dataIndex dataValue : JsValue)
    (env : Env) : LoadStep :=
  let idx := ToNumber dataIndex in
  if negb (truthy (JNumber idx)) then Returned this env
  else
    let newTypeUpper :=
      toUpperCase (ToString (js_or dataValue (JString EmptyString))) in
    if is_empty newTypeUpper then
      Returned
        (updateTile this idx (fun tile =>
           recomputeTileDerivedFields this (withMenuOpen tile false)))
        env
    else
      let this1 :=
        updateTile this idx (fun tile =>
          let normalizedType := normalizeAggregationType (JString newTypeUpper) in
          recomputeTileDerivedFields this
            (withMenuOpen (withAggregateType tile normalizedType) false)) in
      loadTile_begin this1 idx env.

(* ===================================================================== *)
(** ** Refresh and lifecycle                                              *)
(* ===================================================================== *)

(** [detail] is [event.detail.sourceRecordId]; an event without a detail
    reads as [undefined]. *)
Definition handleGlobalRefresh (this : Grid) (sourceRecordId : JsValue)
    (env : Env) : Grid * Env :=
  if truthy sourceRecordId && truthy (recordId this) &&
     negb (strict_eq sourceRecordId (recordId this))
  then (this, env)
  else refreshAllTiles this env.

(** The detail of the refresh event an instance dispatches. *)
Definition refreshDetail (this : Grid) : JsValue :=
  js_or (recordId this) JNull.

(** Delivery of a refresh event to the listeners, in registration order. *)
Fixpoint deliverRefresh (sourceRecordId : JsValue) (listeners : list Grid)
    (env : Env) : list Grid * Env :=
  match listeners with
  | [] => ([], env)
  | g :: rest =>
      let '(g', env') := handleGlobalRefresh g sourceRecordId env in
      let '(rest', env'') := deliverRefresh sourceRecordId rest env' in
      (g' :: rest', env'')
  end.

(** A page: the connected instances, each listening on the window since
    its [connectedCallback]. *)
Record Page : Type := mkPage {
  instances : list Grid;
  pageEnv : Env
}.

(** [handleRefreshAllClick] on the [n]-th instance of the page. *)
Definition handleRefreshAllClick (page : Page) (n : nat) : Page :=
  match nth_error (instances page) n with
  | None => page
  | Some this =>
      if windowDefined (pageEnv page) then
        let env1 := dispatchEvent (RefreshSignal (refreshDetail this)) (pageEnv page) in
        let '(gs, env2) := deliverRefresh (refreshDetail this) (instances page) env1 in
        mkPage gs env2
      else
        let '(this', env') := refreshAllTiles this (pageEnv page) in
        mkPage (<[ n := this' ]> (instances page)) env'
  end.

Definition connectedCallback (this : Grid) (env : Env) : Grid * Env :=
  let '(this1, env1) :=
    if negb (truthy (_instanceId this)) then
      let '(n, env1) := takeInstanceId env in
      (set_instanceId this (JString ("rtg_" ++ number_toString (of_Z n))), env1)
    else (this, env) in
  (initializeTilesFromConfig this1, env1).

Definition renderedCallback (this : Grid) (env : Env) : Grid * Env :=
  if _initialized this then (this, env)
  else if negb (truthy (recordId this)) then (this, env)
  else
    let this1 := set_initialized this true in
    if negb (truthy (globalConfigError this1)) then refreshAllTiles this1 env
    else (this1, env).

(** Pending timeouts are cleared and forgotten; the listeners leave the
    window. *)
Definition disconnectedCallback (this : Grid) (env : Env) : Grid * Env :=
  (set_tileTimeouts this ∅,
   fold_right (fun entry env' => clearTimeout (snd entry) env') env
     (map_to_list (_tileTimeouts this))).

(** [thrown] is the error handed to [errorCallback], when there is one. *)
Definition errorCallback (this : Grid) (thrown : option Thrown) : Grid :=
  let msg :=
    if truthy (globalConfigError this) then globalConfigError this
    else
      let base :=
        "Unexpected error while rendering these rollup tiles. " ++
        "Please check the configuration and try again." in
      match thrown with
      | Some (ThrownObject bodyMessage message) =>
          if truthy bodyMessage then JString (base ++ " " ++ ToString bodyMessage)
          else if truthy message then JString (base ++ " " ++ ToString message)
          else JString base
      | _ => JString base
      end in
  set_tiles this
    (List.map (fun tile => recomputeTileDerivedFields this (withError tile msg))
              (tiles this)).

(* ===================================================================== *)
(** ** The earlier copy of the component                                  *)
(* ===================================================================== *)

(** lwc/rollupTileGrid/rollupTileGrid.js holds an earlier copy of the
    component.  Its [loadTile] builds the request differently: COUNT is
    rewritten and no grandchild parameter is passed (a property that is
    not passed reads as [undefined]). *)
Module Legacy.

Definition rollupRequest (this : Grid) (tileAfterReset : Tile) : Request.t :=
  let aggregateTypeToUse :=
    js_or (js_or (aggregateType tileAfterReset)
                 (initialAggregationType tileAfterReset))
          (JString "SUM") in
  let aggregateTypeToUse :=
    if strict_eq aggregateTypeToUse (JString "COUNT")
    then JString "COUNT()" else aggregateTypeToUse in
  {| Request.parentId := recordId this;
     Request.childObjectApiName := childObjectApiName this;
     Request.relationshipFieldApiName := relationshipFieldApiName this;
     Request.aggregateFieldApiName := aggregateFieldApiName tileAfterReset;
     Request.aggregateType := aggregateTypeToUse;
     Request.filterCondition := filterCondition tileAfterReset;
     Request.grandchildObjectApiName := JUndefined;
     Request.grandchildRelationshipFieldApiName := JUndefined |}.

End Legacy.

(* ===================================================================== *)
(** ** The life of an instance                                            *)
(* ===================================================================== *)

Definition afterLoadStep (s : LoadStep) : Grid * Env :=
  match s with
  | Returned this env | Awaiting this env => (this, env)
  end.

(** One callback or handler run on an instance.  A settlement may reach
    any tile index at any time: the component does not match settlements
    against the load that started them. *)
Inductive step : Grid * Env -> Grid * Env -> Prop :=
| step_connected this env :
    step (this, env) (connectedCallback this env)
| step_rendered this env :
    step (this, env) (renderedCallback this env)
| step_error this env thrown :
    step (this, env) (errorCallback this thrown, env)
| step_load this env idx :
    step (this, env) (afterLoadStep (loadTile_begin this idx env))
| step_settle this env idx outcome :
    step (this, env) (loadTile_settle this idx outcome env)
| step_global_refresh this env sourceRecordId :
    step (this, env) (handleGlobalRefresh this sourceRecordId env)
| step_root_click this env :
    step (this, env) (handleRootClick this, env)
| step_window_click this env hasTemplate targetInside :
    step (this, env) (handleWindowClick this hasTemplate targetInside, env)
| step_global_close this env detail :
    step (this, env) (handleGlobalCloseMenus this detail, env)
| step_gear_click this env dataIndex :
    step (this, env) (handleGearClick this dataIndex env)
| step_menu_click this env dataIndex dataValue :
    step (this, env)
         (afterLoadStep (handleAggregationMenuClick this dataIndex dataValue env))
| step_disconnected this env :
    step (this, env) (disconnectedCallback this env).

(** The states an instance can be in: it is created with [tiles = []]. *)
Inductive reachable : Grid * Env -> Prop :=
| reachable_created this env :
    tiles this = [] -> reachable (this, env)
| reachable_step s s' :
    reachable s -> step s s' -> reachable s'.

(** The tiles whose dropdown menu is open. *)
Definition openMenus (ts : list Tile) : list Tile :=
  List.filter isAggregationMenuOpen ts.

Definition atMostOneMenuOpen (this : Grid) : Prop :=
  (length (openMenus (tiles this)) <= 1)%nat.

(** Tile by tile: same slot, and no menu open that was closed before. *)
Definition menusOnlyClosed (before after : list Tile) : Prop :=
  Forall2
    (fun t t' =>
       index t' = index t /\
       (isAggregationMenuOpen t' = true -> isAggregationMenuOpen t = true))
    before after.

(* ===================================================================== *)
(** ** Notions used in the statements                                     *)
(* ===================================================================== *)

(** [s] contains [sub]. *)
Definition contains (s sub : string) : Prop :=
  exists pre post, s = (pre ++ sub ++ post)%string.

(** Two strings that differ only in the case of their letters. *)
Inductive sameUpToCase : string -> string -> Prop :=
| sameUpToCase_nil : sameUpToCase EmptyString EmptyString
| sameUpToCase_cons a b s t :
    lower_char a = lower_char b -> sameUpToCase s t ->
    sameUpToCase (String a s) (String b t).


(** The presentation wrappers of the numeric branch. *)
Definition wrapFormatted (isCurrency' isPercent' : bool) (formatted : string)
  : string :=
  if isCurrency' then "$" ++ formatted
  else if isPercent' then formatted ++ "%"
  else formatted.

(** The refresh rule as the specification words it: a signal is ignored
    when its source record id is non-empty and differs from the
    listener's own. *)
Definition spec_ignoresRefresh (this : Grid) (sourceRecordId : JsValue) : bool :=
  truthy sourceRecordId && negb (strict_eq sourceRecordId (recordId this)).

(** The rule of [handleGlobalRefresh]. *)
Definition ignoresRefresh (this : Grid) (sourceRecordId : JsValue) : bool :=
  truthy sourceRecordId && truthy (recordId this) &&
  negb (strict_eq sourceRecordId (recordId this)).

(** A string that does not start with white space. *)
Definition startsClean (s : string) : bool :=
  match s with
  | EmptyString => true
  | String c _ => negb (is_whitespace c)
  end.

(* ===================================================================== *)
(** ** Scenario fixtures                                                  *)
(* ===================================================================== *)

Definition noTileProps : TileProps :=
  mkTileProps JUndefined JUndefined JUndefined JUndefined.

(** Tile 1 sums Amount__c, tile 2 counts Id, tile 3 has a label only. *)
Definition sampleTileProps (n : Z) : TileProps :=
  if n =? 1 then
    mkTileProps (JString "Revenue") (JString "Amount__c") (JString "Sum") JUndefined
  else if n =? 2 then
    mkTileProps JUndefined (JString "Id") (JString "count")
                (JString "Status__c = 'Open'")
  else if n =? 3 then
    mkTileProps (JString "Margin") JUndefined (JString "avg") JUndefined
  else noTileProps.

Definition emptyEnv : Env :=
  mkEnv true 1%positive ∅ [] [] 1.

(** A one-by-three grid on record 001A, configured for Project__c. *)
Definition sampleConfig : Grid :=
  mkGrid (JString "001A") (JNumber (of_Z 1)) (JString "3")
    (JString "Project__c") (JString "Account__c") JUndefined JUndefined
    (JNumber (of_Z 2)) sampleTileProps [] false ∅ JUndefined.

Definition sampleGrid : Grid := fst (connectedCallback sampleConfig emptyEnv).

(** The same grid with no child object configured. *)
Definition unconfiguredGrid : Grid :=
  fst (connectedCallback
         (mkGrid (JString "001A") (JNumber (of_Z 1)) (JString "3")
            JUndefined (JString "Account__c") JUndefined JUndefined
            (JNumber (of_Z 2)) sampleTileProps [] false ∅ JUndefined)
         emptyEnv).

(** The same grid placed where no record id is bound. *)
Definition unboundGrid : Grid :=
  fst (connectedCallback
         (mkGrid JUndefined (JNumber (of_Z 1)) (JString "3")
            (JString "Project__c") (JString "Account__c") JUndefined JUndefined
            (JNumber (of_Z 2)) sampleTileProps [] false ∅ JUndefined)
         emptyEnv).

(** A second instance, bound to record 001B. *)
Definition otherGrid : Grid :=
  fst (connectedCallback
         (mkGrid (JString "001B") (JNumber (of_Z 1)) (JString "3")
            (JString "Project__c") (JString "Account__c") JUndefined JUndefined
            (JNumber (of_Z 2)) sampleTileProps [] false ∅ JUndefined)
         emptyEnv).

(** The service answers 1234.5, flagged as currency, over 7 records. *)
Definition currencyResponse : Response.t :=
  Response.mk (JNumber (Finite 12345 1)) (JNumber (of_Z 7)) (JBool true)
    (JBool false) (JBool false) (JString "Amount") JUndefined.

(** The service reports a business error, with metadata. *)
Definition businessErrorResponse : Response.t :=
  Response.mk (JNumber (Finite 12345 1)) (JNumber (of_Z 7)) (JBool true)
    (JBool false) (JBool false) (JString "Amount")
    (JString "Invalid field: Amount__c").

(** The sample grid with a grandchild object and a grandchild relationship
    field that holds blanks only. *)
Definition blankGrandchildGrid : Grid :=
  fst (connectedCallback
         (mkGrid (JString "001A") (JNumber (of_Z 1)) (JString "3")
            (JString "Project__c") (JString "Account__c")
            (JString "Task__c") (JString "   ")
            (JNumber (of_Z 2)) sampleTileProps [] false ∅ JUndefined)
         emptyEnv).

(* ===================================================================== *)
(** ** Invariants of an instance                                          *)
(* ===================================================================== *)

(** A tile whose aggregate type is the one recomputation gives it. *)
Definition canonical (t : Tile) : Prop :=
  aggregateType t = currentAggregateType t.

(** A tile update that keeps the slot and what recomputation established. *)
Definition keepsSlot (t t' : Tile) : Prop :=
  index t' = index t /\ (canonical t -> canonical t').

(** A tile update that, besides, opens no menu. *)
Definition keeps (t t' : Tile) : Prop :=
  keepsSlot t t' /\
  (isAggregationMenuOpen t' = true -> isAggregationMenuOpen t = true).

(** The public properties that no handler writes. *)
Definition config (this : Grid) :=
  (recordId this, rows this, columns this, childObjectApiName this,
   relationshipFieldApiName this, grandchildObjectApiName this,
   grandchildRelationshipFieldApiName this, gridDecimalPlaces this).

Definition evolvesWith (R : Tile -> Tile -> Prop) (this this' : Grid) : Prop :=
  config this' = config this /\ tileProps this' = tileProps this /\
  Forall2 R (tiles this) (tiles this').

(** What holds of every state of an instance. *)
Definition wellFormed (this : Grid) : Prop :=
  (tiles this = [] \/ List.map index (tiles this) = slotIndices this) /\
  atMostOneMenuOpen this /\
  Forall canonical (tiles this).

(* ===================================================================== *)
(** ** The layout rule in the words of the specification                  *)
(* ===================================================================== *)


(* ===================================================================== *)
(** ** Strings beyond ASCII                                               *)
(* ===================================================================== *)

(** Strings of ASCII characters. *)
Definition isAscii (c : ascii) : bool := (nat_of_ascii c <? 128)%nat.

Fixpoint asciiOnly (s : string) : bool :=
  match s with
  | EmptyString => true
  | String c s' => isAscii c && asciiOnly s'
  end.

(** The string functions of [Js] read 8-bit characters as ASCII.  The
    module below has [trim] and [toUpperCase] on every string: a string
    is the list of its UTF-16 code units, white space is the WhiteSpace
    and LineTerminator of ECMAScript, and case conversion is the default
    case conversion of Unicode (version 14.0), code point by code point.
    [normalizeAggTypeValue] is given on these strings. *)
Module Unicode.

(** TAB, LF, VT, FF, CR, the space separators, LS, PS and the byte order
    mark. *)
Definition WHITE_SPACE : list Z :=
  [0x9; 0xA; 0xB; 0xC; 0xD; 0x20; 0xA0; 0x1680; 0x2000; 0x2001; 0x2002;
   0x2003; 0x2004; 0x2005; 0x2006; 0x2007; 0x2008; 0x2009; 0x200A; 0x2028;
   0x2029; 0x202F; 0x205F; 0x3000; 0xFEFF].

Definition is_whitespace (u : Z) : bool := existsb (Z.eqb u) WHITE_SPACE.

Definition is_empty (s : list Z) : bool :=
  match s with [] => true | _ => false end.

(** *** Code units and code points *)

Definition is_high_surrogate (u : Z) : bool := (0xD800 <=? u) && (u <=? 0xDBFF).
Definition is_low_surrogate (u : Z) : bool := (0xDC00 <=? u) && (u <=? 0xDFFF).
Definition is_surrogate (u : Z) : bool :=
  is_high_surrogate u || is_low_surrogate u.

Definition UTF16SurrogatePairToCodePoint (lead trail : Z) : Z :=
  (lead - 0xD800) * 0x400 + (trail - 0xDC00) + 0x10000.

(** A high surrogate followed by a low one is one code point; every other
    code unit is a code point of its own. *)
Fixpoint StringToCodePoints (s : list Z) : list Z :=
  match s with
  | [] => []
  | first :: rest =>
      match rest with
      | second :: rest' =>
          if is_high_surrogate first && is_low_surrogate second
          then UTF16SurrogatePairToCodePoint first second ::
               StringToCodePoints rest'
          else first :: StringToCodePoints rest
      | [] => [first]
      end
  end.

Definition UTF16EncodeCodePoint (cp : Z) : list Z :=
  if (0x10000 <=? cp) && (cp <=? 0x10FFFF) then
    [(cp - 0x10000) / 0x400 + 0xD800; (cp - 0x10000) mod 0x400 + 0xDC00]
  else [cp].

Definition CodePointsToString (text : list Z) : list Z :=
  flat_map UTF16EncodeCodePoint text.

(** *** Case conversion of a code point *)

(** Code points with a one-character upper-case form, as runs
    [(first, last, stride, delta)]: every [stride]-th code point from
    [first] to [last] maps to itself plus [delta]. *)
Definition upperRanges : list (Z * Z * Z * Z) :=
  [(0x61, 0x7A, 1, -32); (0xB5, 0xB5, 1, 743); (0xE0, 0xF6, 1, -32);
   (0xF8, 0xFE, 1, -32); (0xFF, 0xFF, 1, 121); (0x101, 0x12F, 2, -1);
   (0x131, 0x131, 1, -232); (0x133, 0x137, 2, -1); (0x13A, 0x148, 2, -1);
   (0x14B, 0x177, 2, -1); (0x17A, 0x17E, 2, -1); (0x17F, 0x17F, 1, -300);
   (0x180, 0x180, 1, 195); (0x183, 0x185, 2, -1); (0x188, 0x188, 1, -1);
   (0x18C, 0x18C, 1, -1); (0x192, 0x192, 1, -1); (0x195, 0x195, 1, 97);
   (0x199, 0x199, 1, -1); (0x19A, 0x19A, 1, 163); (0x19E, 0x19E, 1, 130);
   (0x1A1, 0x1A5, 2, -1); (0x1A8, 0x1A8, 1, -1); (0x1AD, 0x1AD, 1, -1);
   (0x1B0, 0x1B0, 1, -1); (0x1B4, 0x1B6, 2, -1); (0x1B9, 0x1B9, 1, -1);
   (0x1BD, 0x1BD, 1, -1); (0x1BF, 0x1BF, 1, 56); (0x1C5, 0x1C5, 1, -1);
   (0x1C6, 0x1C6, 1, -2); (0x1C8, 0x1C8, 1, -1); (0x1C9, 0x1C9, 1, -2);
   (0x1CB, 0x1CB, 1, -1); (0x1CC, 0x1CC, 1, -2); (0x1CE, 0x1DC, 2, -1);
   (0x1DD, 0x1DD, 1, -79); (0x1DF, 0x1EF, 2, -1); (0x1F2, 0x1F2, 1, -1);
   (0x1F3, 0x1F3, 1, -2); (0x1F5, 0x1F5, 1, -1); (0x1F9, 0x21F, 2, -1);
   (0x223, 0x233, 2, -1); (0x23C, 0x23C, 1, -1); (0x23F, 0x240, 1, 10815);
   (0x242, 0x242, 1, -1); (0x247, 0x24F, 2, -1); (0x250, 0x250, 1, 10783);
   (0x251, 0x251, 1, 10780); (0x252, 0x252, 1, 10782);
   (0x253, 0x253, 1, -210); (0x254, 0x254, 1, -206); (0x256, 0x257, 1, -205);
   (0x259, 0x259, 1, -202); (0x25B, 0x25B, 1, -203);
   (0x25C, 0x25C, 1, 42319); (0x260, 0x260, 1, -205);
   (0x261, 0x261, 1, 42315); (0x263, 0x263, 1, -207);
   (0x265, 0x265, 1, 42280); (0x266, 0x266, 1, 42308);
   (0x268, 0x268, 1, -209); (0x269, 0x269, 1, -211);
   (0x26A, 0x26A, 1, 42308); (0x26B, 0x26B, 1, 10743);
   (0x26C, 0x26C, 1, 42305); (0x26F, 0x26F, 1, -211);
   (0x271, 0x271, 1, 10749); (0x272, 0x272, 1, -213);
   (0x275, 0x275, 1, -214); (0x27D, 0x27D, 1, 10727);
   (0x280, 0x280, 1, -218); (0x282, 0x282, 1, 42307);
   (0x283, 0x283, 1, -218); (0x287, 0x287, 1, 42282);
   (0x288, 0x288, 1, -218); (0x289, 0x289, 1, -69); (0x28A, 0x28B, 1, -217);
   (0x28C, 0x28C, 1, -71); (0x292, 0x292, 1, -219); (0x29D, 0x29D, 1, 42261);
   (0x29E, 0x29E, 1, 42258); (0x345, 0x345, 1, 84); (0x371, 0x373, 2, -1);
   (0x377, 0x377, 1, -1); (0x37B, 0x37D, 1, 130); (0x3AC, 0x3AC, 1, -38);
   (0x3AD, 0x3AF, 1, -37); (0x3B1, 0x3C1, 1, -32); (0x3C2, 0x3C2, 1, -31);
   (0x3C3, 0x3CB, 1, -32); (0x3CC, 0x3CC, 1, -64); (0x3CD, 0x3CE, 1, -63);
   (0x3D0, 0x3D0, 1, -62); (0x3D1, 0x3D1, 1, -57); (0x3D5, 0x3D5, 1, -47);
   (0x3D6, 0x3D6, 1, -54); (0x3D7, 0x3D7, 1, -8); (0x3D9, 0x3EF, 2, -1);
   (0x3F0, 0x3F0, 1, -86); (0x3F1, 0x3F1, 1, -80); (0x3F2, 0x3F2, 1, 7);
   (0x3F3, 0x3F3, 1, -116); (0x3F5, 0x3F5, 1, -96); (0x3F8, 0x3F8, 1, -1);
   (0x3FB, 0x3FB, 1, -1); (0x430, 0x44F, 1, -32); (0x450, 0x45F, 1, -80);
   (0x461, 0x481, 2, -1); (0x48B, 0x4BF, 2, -1); (0x4C2, 0x4CE, 2, -1);
   (0x4CF, 0x4CF, 1, -15); (0x4D1, 0x52F, 2, -1); (0x561, 0x586, 1, -48);
   (0x10D0, 0x10FA, 1, 3008); (0x10FD, 0x10FF, 1, 3008);
   (0x13F8, 0x13FD, 1, -8); (0x1C80, 0x1C80, 1, -6254);
   (0x1C81, 0x1C81, 1, -6253); (0x1C82, 0x1C82, 1, -6244);
   (0x1C83, 0x1C84, 1, -6242); (0x1C85, 0x1C85, 1, -6243);
   (0x1C86, 0x1C86, 1, -6236); (0x1C87, 0x1C87, 1, -6181);
   (0x1C88, 0x1C88, 1, 35266); (0x1D79, 0x1D79, 1, 35332);
   (0x1D7D, 0x1D7D, 1, 3814); (0x1D8E, 0x1D8E, 1, 35384);
   (0x1E01, 0x1E95, 2, -1); (0x1E9B, 0x1E9B, 1, -59);
   (0x1EA1, 0x1EFF, 2, -1); (0x1F00, 0x1F07, 1, 8); (0x1F10, 0x1F15, 1, 8);
   (0x1F20, 0x1F27, 1, 8); (0x1F30, 0x1F37, 1, 8); (0x1F40, 0x1F45, 1, 8);
   (0x1F51, 0x1F57, 2, 8); (0x1F60, 0x1F67, 1, 8); (0x1F70, 0x1F71, 1, 74);
   (0x1F72, 0x1F75, 1, 86); (0x1F76, 0x1F77, 1, 100);
   (0x1F78, 0x1F79, 1, 128); (0x1F7A, 0x1F7B, 1, 112);
   (0x1F7C, 0x1F7D, 1, 126); (0x1FB0, 0x1FB1, 1, 8);
   (0x1FBE, 0x1FBE, 1, -7205); (0x1FD0, 0x1FD1, 1, 8);
   (0x1FE0, 0x1FE1, 1, 8); (0x1FE5, 0x1FE5, 1, 7); (0x214E, 0x214E, 1, -28);
   (0x2170, 0x217F, 1, -16); (0x2184, 0x2184, 1, -1);
   (0x24D0, 0x24E9, 1, -26); (0x2C30, 0x2C5F, 1, -48);
   (0x2C61, 0x2C61, 1, -1); (0x2C65, 0x2C65, 1, -10795);
   (0x2C66, 0x2C66, 1, -10792); (0x2C68, 0x2C6C, 2, -1);
   (0x2C73, 0x2C73, 1, -1); (0x2C76, 0x2C76, 1, -1); (0x2C81, 0x2CE3, 2, -1);
   (0x2CEC, 0x2CEE, 2, -1); (0x2CF3, 0x2CF3, 1, -1);
   (0x2D00, 0x2D25, 1, -7264); (0x2D27, 0x2D27, 1, -7264);
   (0x2D2D, 0x2D2D, 1, -7264); (0xA641, 0xA66D, 2, -1);
   (0xA681, 0xA69B, 2, -1); (0xA723, 0xA72F, 2, -1); (0xA733, 0xA76F, 2, -1);
   (0xA77A, 0xA77C, 2, -1); (0xA77F, 0xA787, 2, -1); (0xA78C, 0xA78C, 1, -1);
   (0xA791, 0xA793, 2, -1); (0xA794, 0xA794, 1, 48); (0xA797, 0xA7A9, 2, -1);
   (0xA7B5, 0xA7C3, 2, -1); (0xA7C8, 0xA7CA, 2, -1); (0xA7D1, 0xA7D1, 1, -1);
   (0xA7D7, 0xA7D9, 2, -1); (0xA7F6, 0xA7F6, 1, -1);
   (0xAB53, 0xAB53, 1, -928); (0xAB70, 0xABBF, 1, -38864);
   (0xFF41, 0xFF5A, 1, -32); (0x10428, 0x1044F, 1, -40);
   (0x104D8, 0x104FB, 1, -40); (0x10597, 0x105A1, 1, -39);
   (0x105A3, 0x105B1, 1, -39); (0x105B3, 0x105B9, 1, -39);
   (0x105BB, 0x105BC, 1, -39); (0x10CC0, 0x10CF2, 1, -64);
   (0x118C0, 0x118DF, 1, -32); (0x16E60, 0x16E7F, 1, -32);
   (0x1E922, 0x1E943, 1, -34)].

(** Code points whose upper-case form has several characters. *)
Definition upperSpecial : list (Z * list Z) :=
  [(0xDF, [0x53; 0x53]); (0x149, [0x2BC; 0x4E]); (0x1F0, [0x4A; 0x30C]);
   (0x390, [0x399; 0x308; 0x301]); (0x3B0, [0x3A5; 0x308; 0x301]);
   (0x587, [0x535; 0x552]); (0x1E96, [0x48; 0x331]); (0x1E97, [0x54; 0x308]);
   (0x1E98, [0x57; 0x30A]); (0x1E99, [0x59; 0x30A]); (0x1E9A, [0x41; 0x2BE]);
   (0x1F50, [0x3A5; 0x313]); (0x1F52, [0x3A5; 0x313; 0x300]);
   (0x1F54, [0x3A5; 0x313; 0x301]); (0x1F56, [0x3A5; 0x313; 0x342]);
   (0x1F80, [0x1F08; 0x399]); (0x1F81, [0x1F09; 0x399]);
   (0x1F82, [0x1F0A; 0x399]); (0x1F83, [0x1F0B; 0x399]);
   (0x1F84, [0x1F0C; 0x399]); (0x1F85, [0x1F0D; 0x399]);
   (0x1F86, [0x1F0E; 0x399]); (0x1F87, [0x1F0F; 0x399]);
   (0x1F88, [0x1F08; 0x399]); (0x1F89, [0x1F09; 0x399]);
   (0x1F8A, [0x1F0A; 0x399]); (0x1F8B, [0x1F0B; 0x399]);
   (0x1F8C, [0x1F0C; 0x399]); (0x1F8D, [0x1F0D; 0x399]);
   (0x1F8E, [0x1F0E; 0x399]); (0x1F8F, [0x1F0F; 0x399]);
   (0x1F90, [0x1F28; 0x399]); (0x1F91, [0x1F29; 0x399]);
   (0x1F92, [0x1F2A; 0x399]); (0x1F93, [0x1F2B; 0x399]);
   (0x1F94, [0x1F2C; 0x399]); (0x1F95, [0x1F2D; 0x399]);
   (0x1F96, [0x1F2E; 0x399]); (0x1F97, [0x1F2F; 0x399]);
   (0x1F98, [0x1F28; 0x399]); (0x1F99, [0x1F29; 0x399]);
   (0x1F9A, [0x1F2A; 0x399]); (0x1F9B, [0x1F2B; 0x399]);
   (0x1F9C, [0x1F2C; 0x399]); (0x1F9D, [0x1F2D; 0x399]);
   (0x1F9E, [0x1F2E; 0x399]); (0x1F9F, [0x1F2F; 0x399]);
   (0x1FA0, [0x1F68; 0x399]); (0x1FA1, [0x1F69; 0x399]);
   (0x1FA2, [0x1F6A; 0x399]); (0x1FA3, [0x1F6B; 0x399]);
   (0x1FA4, [0x1F6C; 0x399]); (0x1FA5, [0x1F6D; 0x399]);
   (0x1FA6, [0x1F6E; 0x399]); (0x1FA7, [0x1F6F; 0x399]);
   (0x1FA8, [0x1F68; 0x399]); (0x1FA9, [0x1F69; 0x399]);
   (0x1FAA, [0x1F6A; 0x399]); (0x1FAB, [0x1F6B; 0x399]);
   (0x1FAC, [0x1F6C; 0x399]); (0x1FAD, [0x1F6D; 0x399]);
   (0x1FAE, [0x1F6E; 0x399]); (0x1FAF, [0x1F6F; 0x399]);
   (0x1FB2, [0x1FBA; 0x399]); (0x1FB3, [0x391; 0x399]);
   (0x1FB4, [0x386; 0x399]); (0x1FB6, [0x391; 0x342]);
   (0x1FB7, [0x391; 0x342; 0x399]); (0x1FBC, [0x391; 0x399]);
   (0x1FC2, [0x1FCA; 0x399]); (0x1FC3, [0x397; 0x399]);
   (0x1FC4, [0x389; 0x399]); (0x1FC6, [0x397; 0x342]);
   (0x1FC7, [0x397; 0x342; 0x399]); (0x1FCC, [0x397; 0x399]);
   (0x1FD2, [0x399; 0x308; 0x300]); (0x1FD3, [0x399; 0x308; 0x301]);
   (0x1FD6, [0x399; 0x342]); (0x1FD7, [0x399; 0x308; 0x342]);
   (0x1FE2, [0x3A5; 0x308; 0x300]); (0x1FE3, [0x3A5; 0x308; 0x301]);
   (0x1FE4, [0x3A1; 0x313]); (0x1FE6, [0x3A5; 0x342]);
   (0x1FE7, [0x3A5; 0x308; 0x342]); (0x1FF2, [0x1FFA; 0x399]);
   (0x1FF3, [0x3A9; 0x399]); (0x1FF4, [0x38F; 0x399]);
   (0x1FF6, [0x3A9; 0x342]); (0x1FF7, [0x3A9; 0x342; 0x399]);
   (0x1FFC, [0x3A9; 0x399]); (0xFB00, [0x46; 0x46]); (0xFB01, [0x46; 0x49]);
   (0xFB02, [0x46; 0x4C]); (0xFB03, [0x46; 0x46; 0x49]);
   (0xFB04, [0x46; 0x46; 0x4C]); (0xFB05, [0x53; 0x54]);
   (0xFB06, [0x53; 0x54]); (0xFB13, [0x544; 0x546]);
   (0xFB14, [0x544; 0x535]); (0xFB15, [0x544; 0x53B]);
   (0xFB16, [0x54E; 0x546]); (0xFB17, [0x544; 0x53D])].

(** Code points with a one-character lower-case form, as runs. *)
Definition lowerRanges : list (Z * Z * Z * Z) :=
  [(0x41, 0x5A, 1, 32); (0xC0, 0xD6, 1, 32); (0xD8, 0xDE, 1, 32);
   (0x100, 0x12E, 2, 1); (0x132, 0x136, 2, 1); (0x139, 0x147, 2, 1);
   (0x14A, 0x176, 2, 1); (0x178, 0x178, 1, -121); (0x179, 0x17D, 2, 1);
   (0x181, 0x181, 1, 210); (0x182, 0x184, 2, 1); (0x186, 0x186, 1, 206);
   (0x187, 0x187, 1, 1); (0x189, 0x18A, 1, 205); (0x18B, 0x18B, 1, 1);
   (0x18E, 0x18E, 1, 79); (0x18F, 0x18F, 1, 202); (0x190, 0x190, 1, 203);
   (0x191, 0x191, 1, 1); (0x193, 0x193, 1, 205); (0x194, 0x194, 1, 207);
   (0x196, 0x196, 1, 211); (0x197, 0x197, 1, 209); (0x198, 0x198, 1, 1);
   (0x19C, 0x19C, 1, 211); (0x19D, 0x19D, 1, 213); (0x19F, 0x19F, 1, 214);
   (0x1A0, 0x1A4, 2, 1); (0x1A6, 0x1A6, 1, 218); (0x1A7, 0x1A7, 1, 1);
   (0x1A9, 0x1A9, 1, 218); (0x1AC, 0x1AC, 1, 1); (0x1AE, 0x1AE, 1, 218);
   (0x1AF, 0x1AF, 1, 1); (0x1B1, 0x1B2, 1, 217); (0x1B3, 0x1B5, 2, 1);
   (0x1B7, 0x1B7, 1, 219); (0x1B8, 0x1B8, 1, 1); (0x1BC, 0x1BC, 1, 1);
   (0x1C4, 0x1C4, 1, 2); (0x1C5, 0x1C5, 1, 1); (0x1C7, 0x1C7, 1, 2);
   (0x1C8, 0x1C8, 1, 1); (0x1CA, 0x1CA, 1, 2); (0x1CB, 0x1DB, 2, 1);
   (0x1DE, 0x1EE, 2, 1); (0x1F1, 0x1F1, 1, 2); (0x1F2, 0x1F4, 2, 1);
   (0x1F6, 0x1F6, 1, -97); (0x1F7, 0x1F7, 1, -56); (0x1F8, 0x21E, 2, 1);
   (0x220, 0x220, 1, -130); (0x222, 0x232, 2, 1); (0x23A, 0x23A, 1, 10795);
   (0x23B, 0x23B, 1, 1); (0x23D, 0x23D, 1, -163); (0x23E, 0x23E, 1, 10792);
   (0x241, 0x241, 1, 1); (0x243, 0x243, 1, -195); (0x244, 0x244, 1, 69);
   (0x245, 0x245, 1, 71); (0x246, 0x24E, 2, 1); (0x370, 0x372, 2, 1);
   (0x376, 0x376, 1, 1); (0x37F, 0x37F, 1, 116); (0x386, 0x386, 1, 38);
   (0x388, 0x38A, 1, 37); (0x38C, 0x38C, 1, 64); (0x38E, 0x38F, 1, 63);
   (0x391, 0x3A1, 1, 32); (0x3A3, 0x3AB, 1, 32); (0x3CF, 0x3CF, 1, 8);
   (0x3D8, 0x3EE, 2, 1); (0x3F4, 0x3F4, 1, -60); (0x3F7, 0x3F7, 1, 1);
   (0x3F9, 0x3F9, 1, -7); (0x3FA, 0x3FA, 1, 1); (0x3FD, 0x3FF, 1, -130);
   (0x400, 0x40F, 1, 80); (0x410, 0x42F, 1, 32); (0x460, 0x480, 2, 1);
   (0x48A, 0x4BE, 2, 1); (0x4C0, 0x4C0, 1, 15); (0x4C1, 0x4CD, 2, 1);
   (0x4D0, 0x52E, 2, 1); (0x531, 0x556, 1, 48); (0x10A0, 0x10C5, 1, 7264);
   (0x10C7, 0x10C7, 1, 7264); (0x10CD, 0x10CD, 1, 7264);
   (0x13A0, 0x13EF, 1, 38864); (0x13F0, 0x13F5, 1, 8);
   (0x1C90, 0x1CBA, 1, -3008); (0x1CBD, 0x1CBF, 1, -3008);
   (0x1E00, 0x1E94, 2, 1); (0x1E9E, 0x1E9E, 1, -7615);
   (0x1EA0, 0x1EFE, 2, 1); (0x1F08, 0x1F0F, 1, -8); (0x1F18, 0x1F1D, 1, -8);
   (0x1F28, 0x1F2F, 1, -8); (0x1F38, 0x1F3F, 1, -8); (0x1F48, 0x1F4D, 1, -8);
   (0x1F59, 0x1F5F, 2, -8); (0x1F68, 0x1F6F, 1, -8); (0x1F88, 0x1F8F, 1, -8);
   (0x1F98, 0x1F9F, 1, -8); (0x1FA8, 0x1FAF, 1, -8); (0x1FB8, 0x1FB9, 1, -8);
   (0x1FBA, 0x1FBB, 1, -74); (0x1FBC, 0x1FBC, 1, -9);
   (0x1FC8, 0x1FCB, 1, -86); (0x1FCC, 0x1FCC, 1, -9);
   (0x1FD8, 0x1FD9, 1, -8); (0x1FDA, 0x1FDB, 1, -100);
   (0x1FE8, 0x1FE9, 1, -8); (0x1FEA, 0x1FEB, 1, -112);
   (0x1FEC, 0x1FEC, 1, -7); (0x1FF8, 0x1FF9, 1, -128);
   (0x1FFA, 0x1FFB, 1, -126); (0x1FFC, 0x1FFC, 1, -9);
   (0x2126, 0x2126, 1, -7517); (0x212A, 0x212A, 1, -8383);
   (0x212B, 0x212B, 1, -8262); (0x2132, 0x2132, 1, 28);
   (0x2160, 0x216F, 1, 16); (0x2183, 0x2183, 1, 1); (0x24B6, 0x24CF, 1, 26);
   (0x2C00, 0x2C2F, 1, 48); (0x2C60, 0x2C60, 1, 1);
   (0x2C62, 0x2C62, 1, -10743); (0x2C63, 0x2C63, 1, -3814);
   (0x2C64, 0x2C64, 1, -10727); (0x2C67, 0x2C6B, 2, 1);
   (0x2C6D, 0x2C6D, 1, -10780); (0x2C6E, 0x2C6E, 1, -10749);
   (0x2C6F, 0x2C6F, 1, -10783); (0x2C70, 0x2C70, 1, -10782);
   (0x2C72, 0x2C72, 1, 1); (0x2C75, 0x2C75, 1, 1);
   (0x2C7E, 0x2C7F, 1, -10815); (0x2C80, 0x2CE2, 2, 1);
   (0x2CEB, 0x2CED, 2, 1); (0x2CF2, 0x2CF2, 1, 1); (0xA640, 0xA66C, 2, 1);
   (0xA680, 0xA69A, 2, 1); (0xA722, 0xA72E, 2, 1); (0xA732, 0xA76E, 2, 1);
   (0xA779, 0xA77B, 2, 1); (0xA77D, 0xA77D, 1, -35332);
   (0xA77E, 0xA786, 2, 1); (0xA78B, 0xA78B, 1, 1);
   (0xA78D, 0xA78D, 1, -42280); (0xA790, 0xA792, 2, 1);
   (0xA796, 0xA7A8, 2, 1); (0xA7AA, 0xA7AA, 1, -42308);
   (0xA7AB, 0xA7AB, 1, -42319); (0xA7AC, 0xA7AC, 1, -42315);
   (0xA7AD, 0xA7AD, 1, -42305); (0xA7AE, 0xA7AE, 1, -42308);
   (0xA7B0, 0xA7B0, 1, -42258); (0xA7B1, 0xA7B1, 1, -42282);
   (0xA7B2, 0xA7B2, 1, -42261); (0xA7B3, 0xA7B3, 1, 928);
   (0xA7B4, 0xA7C2, 2, 1); (0xA7C4, 0xA7C4, 1, -48);
   (0xA7C5, 0xA7C5, 1, -42307); (0xA7C6, 0xA7C6, 1, -35384);
   (0xA7C7, 0xA7C9, 2, 1); (0xA7D0, 0xA7D0, 1, 1); (0xA7D6, 0xA7D8, 2, 1);
   (0xA7F5, 0xA7F5, 1, 1); (0xFF21, 0xFF3A, 1, 32);
   (0x10400, 0x10427, 1, 40); (0x104B0, 0x104D3, 1, 40);
   (0x10570, 0x1057A, 1, 39); (0x1057C, 0x1058A, 1, 39);
   (0x1058C, 0x10592, 1, 39); (0x10594, 0x10595, 1, 39);
   (0x10C80, 0x10CB2, 1, 64); (0x118A0, 0x118BF, 1, 32);
   (0x16E40, 0x16E5F, 1, 32); (0x1E900, 0x1E921, 1, 34)].

(** The code point whose lower-case form has several characters. *)
Definition lowerSpecial : list (Z * list Z) :=
  [(0x130, [0x69; 0x307])].

(** Whether the run holds the code point. *)
Definition inRun (c : Z) (run : Z * Z * Z * Z) : bool :=
  let '(first, last, stride, _) := run in
  (first <=? c) && (c <=? last) && ((c - first) mod stride =? 0).

Definition caseMapping (runs : list (Z * Z * Z * Z))
    (special : list (Z * list Z)) (c : Z) : list Z :=
  match find (fun entry => fst entry =? c) special with
  | Some (_, mapped) => mapped
  | None =>
      match find (inRun c) runs with
      | Some (_, _, _, delta) => [c + delta]
      | None => [c]
      end
  end.

Definition toUppercase : Z -> list Z := caseMapping upperRanges upperSpecial.
Definition toLowercase : Z -> list Z := caseMapping lowerRanges lowerSpecial.

(** The code points of a run, and those a mapping changes. *)
Definition runElements (run : Z * Z * Z * Z) : list Z :=
  let '(first, last, stride, _) := run in
  List.map (fun k => first + Z.of_nat k * stride)
           (seq 0 (Z.to_nat ((last - first) / stride) + 1)).

Definition mappingDomain (runs : list (Z * Z * Z * Z))
    (special : list (Z * list Z)) : list Z :=
  (List.map fst special ++ flat_map runElements runs)%list.

Definition upperDomain : list Z := mappingDomain upperRanges upperSpecial.
Definition lowerDomain : list Z := mappingDomain lowerRanges lowerSpecial.

(** *** The string functions *)

(** [String.prototype.toUpperCase] *)
Definition toUpperCase (s : list Z) : list Z :=
  CodePointsToString (flat_map toUppercase (StringToCodePoints s)).

Fixpoint trimStart (s : list Z) : list Z :=
  match s with
  | [] => []
  | u :: s' => if is_whitespace u then trimStart s' else s
  end.

Fixpoint trimEnd (s : list Z) : list Z :=
  match s with
  | [] => []
  | u :: s' =>
      let r := trimEnd s' in
      if is_whitespace u && is_empty r then [] else u :: r
  end.

Definition trim (s : list Z) : list Z := trimEnd (trimStart s).

(** [a === b] on strings. *)
Fixpoint units_eqb (a b : list Z) : bool :=
  match a, b with
  | [], [] => true
  | u :: a', v :: b' => (u =? v) && units_eqb a' b'
  | _, _ => false
  end.

(** The code units of a string of the 8-bit model. *)
Fixpoint units (s : string) : list Z :=
  match s with
  | EmptyString => []
  | String c s' => Z.of_nat (nat_of_ascii c) :: units s'
  end.

(** *** Values *)

Inductive Value : Type :=
| VUndefined
| VNull
| VBool (b : bool)
| VNumber (n : JsNumber)
| VString (s : list Z).

(** The value of the 8-bit model as a value here. *)
Definition inject (v : JsValue) : Value :=
  match v with
  | JUndefined => VUndefined
  | JNull => VNull
  | JBool b => VBool b
  | JNumber n => VNumber n
  | JString s => VString (units s)
  end.

Definition ToString (v : Value) : list Z :=
  match v with
  | VUndefined => units (Js.ToString JUndefined)
  | VNull => units (Js.ToString JNull)
  | VBool b => units (Js.ToString (JBool b))
  | VNumber n => units (Js.ToString (JNumber n))
  | VString s => s
  end.

(** *** [normalizeAggTypeValue] *)

Definition normalizeAggTypeValue (raw : Value) : Value :=
  match raw with
  | VNull | VUndefined => VNull
  | _ =>
      let upper := toUpperCase (trim (ToString raw)) in
      if is_empty upper then VNull
      else VString (if units_eqb upper (units "AVG") then units "AVERAGE"
                    else upper)
  end.

(** *** Strings that differ only in case *)

(** Code points that are case forms of each other: one is the upper-case
    or the lower-case form of the other, or both have one upper-case
    form.  [except] lists code points whose lower-case form is not looked
    at. *)
Definition caseVariant (except : list Z) (c d : Z) : Prop :=
  c = d \/ toUppercase c = [d] \/ toUppercase d = [c] \/
  toUppercase c = toUppercase d \/
  (toLowercase c = [d] /\ ~ In c except) \/
  (toLowercase d = [c] /\ ~ In d except).

(** Strings that differ only in case, as the specification words it:
    code point by code point, the same letter in either case. *)
Definition spec_differOnlyInCase (x y : list Z) : Prop :=
  Forall2 (caseVariant []) (StringToCodePoints x) (StringToCodePoints y).

(** The letters whose lower-case form has another upper-case form: the
    Greek theta symbol, the capital sharp s, and the ohm, kelvin and
    angstrom signs. *)
Definition ASYMMETRIC_CASE : list Z := [0x3F4; 0x1E9E; 0x2126; 0x212A; 0x212B].

Definition differOnlyInCase (x y : list Z) : Prop :=
  Forall2 (caseVariant ASYMMETRIC_CASE)
          (StringToCodePoints x) (StringToCodePoints y).

(** Code points a pair of surrogates does not split: no high surrogate is
    followed by a low one. *)
Fixpoint paired (text : list Z) : Prop :=
  match text with
  | c :: rest =>
      match rest with
      | d :: _ => is_high_surrogate c && is_low_surrogate d = false /\ paired rest
      | [] => True
      end
  | [] => True
  end.

(** Code units with no white space among them, and at least one. *)
Definition solid (a : list Z) : Prop :=
  a <> [] /\ forallb (fun u => negb (is_whitespace u)) a = true.

(** What is checked of every code point with an upper-case form: the form
    is not empty, is its own upper-case form, and neither the code point
    nor its form holds white space or surrogates. *)
Definition upperEntryOk (c : Z) : bool :=
  negb (is_empty (toUppercase c)) &&
  units_eqb (flat_map toUppercase (toUppercase c)) (toUppercase c) &&
  negb (is_whitespace c) && negb (is_surrogate c) &&
  forallb (fun d => negb (is_whitespace d) && negb (is_surrogate d))
          (toUppercase c).

(** What is checked of every code point with a lower-case form: unless it
    is one of the asymmetric letters, a one-letter lower-case form has the
    same upper-case form. *)
Definition lowerEntryOk (c : Z) : bool :=
  existsb (Z.eqb c) ASYMMETRIC_CASE ||
  match toLowercase c with
  | [d] => units_eqb (toUppercase d) (toUppercase c)
  | _ => true
  end.

End Unicode.

(* ===================================================================== *)
(** * Properties                                                          *)
(* ===================================================================== *)

(** ** Sanity checks of the runtime model *)


Example parseInt_px : parseInt (JString " 42px") = Finite 42 0.
Proof. reflexivity. Qed.

Example parseFloat_exp : parseFloat (JString "-1.25e1abc") = Finite (-125) 1.
Proof. reflexivity. Qed.

Example toString_dec : number_toString (Finite 123450 2) = "1234.5".
Proof. reflexivity. Qed.

Example format_group : NumberFormat_format 2 (Finite 1234567891 3) = "1,234,567.89".
Proof. reflexivity. Qed.

Example toString_layouts :
  List.map number_toString
    [Finite 15 1; Finite 1200 0; Finite (-5) 3; Finite 1 7; Finite 0 2;
     Finite (123 * 10 ^ 20) 0] =
  ["1.5"; "1200"; "-0.005"; "1e-7"; "0"; "1.23e+22"].
Proof. reflexivity. Qed.

Example toNumber_literals :
  List.map ToNumber
    [JString " 0x1F "; JString "0b101"; JString "1e3"; JString "12px";
     JString ""; JString "-Infinity"] =
  [Finite 31 0; Finite 5 0; Finite 1000 0; NaN; Finite 0 0; Infinity true].
Proof. reflexivity. Qed.

Example trim_both : trim "  a b  " = "a b".
Proof. reflexivity. Qed.

Example label_namespaced :
  forall g, aggregateObjectApiNameForLabel g = JString "sitetracker__Project__c" ->
            childObjectLabelSingular g = "Project".
Proof. intros g H. unfold childObjectLabelSingular. rewrite H. reflexivity. Qed.

Example label_camel :
  forall g, aggregateObjectApiNameForLabel g = JString "workOrder_line__c" ->
            childObjectLabelSingular g = "Work Order Line".
Proof. intros g H. unfold childObjectLabelSingular. rewrite H. reflexivity. Qed.

(** ** Normalization of aggregation types *)

Section CaseMapping.

Implicit Types (c : ascii) (s t : string).

Lemma upper_char_idem c : upper_char (upper_char c) = upper_char c.
Proof. destruct c as [[] [] [] [] [] [] [] []]; reflexivity. Qed.

Lemma upper_of_lower_char c : upper_char (lower_char c) = upper_char c.
Proof. destruct c as [[] [] [] [] [] [] [] []]; reflexivity. Qed.

Lemma whitespace_upper_char c : is_whitespace (upper_char c) = is_whitespace c.
Proof. destruct c as [[] [] [] [] [] [] [] []]; reflexivity. Qed.

Lemma is_empty_map f s : is_empty (map_string f s) = is_empty s.
Proof. destruct s; reflexivity. Qed.

Lemma toUpperCase_idem s : toUpperCase (toUpperCase s) = toUpperCase s.
Proof.
  unfold toUpperCase.
  induction s as [|c s IH]; cbn [map_string]; [reflexivity|].
  now rewrite upper_char_idem, IH.
Qed.

Lemma trimStart_upper s : trimStart (toUpperCase s) = toUpperCase (trimStart s).
Proof.
  unfold toUpperCase.
  induction s as [|c s IH]; cbn [map_string trimStart]; [reflexivity|].
  rewrite whitespace_upper_char.
  destruct (is_whitespace c); [exact IH | reflexivity].
Qed.

Lemma trimEnd_upper s : trimEnd (toUpperCase s) = toUpperCase (trimEnd s).
Proof.
  unfold toUpperCase.
  induction s as [|c s IH]; cbn [map_string trimEnd]; [reflexivity|].
  rewrite whitespace_upper_char, IH, is_empty_map.
  destruct (is_whitespace c && is_empty (trimEnd s)); reflexivity.
Qed.

Lemma trim_upper s : trim (toUpperCase s) = toUpperCase (trim s).
Proof. unfold trim. now rewrite trimStart_upper, trimEnd_upper. Qed.

Lemma trimEnd_idem s : trimEnd (trimEnd s) = trimEnd s.
Proof.
  induction s as [|c s IH]; simpl; [reflexivity|].
  destruct (is_whitespace c && is_empty (trimEnd s)) eqn:E; simpl; [reflexivity|].
  now rewrite IH, E.
Qed.

Lemma trimStart_clean s : startsClean (trimStart s) = true.
Proof.
  induction s as [|c s IH]; simpl; [reflexivity|].
  destruct (is_whitespace c) eqn:E; [exact IH | simpl; now rewrite E].
Qed.

Lemma trimStart_of_clean s : startsClean s = true -> trimStart s = s.
Proof.
  destruct s as [|c s]; simpl; [reflexivity|].
  now destruct (is_whitespace c).
Qed.

Lemma trimEnd_clean s : startsClean s = true -> startsClean (trimEnd s) = true.
Proof.
  destruct s as [|c s]; simpl; [reflexivity|].
  intros H. destruct (is_whitespace c) eqn:E; [discriminate|].
  cbn [andb startsClean]. now rewrite E.
Qed.

Lemma trim_idem s : trim (trim s) = trim s.
Proof.
  unfold trim.
  rewrite (trimStart_of_clean (trimEnd (trimStart s))).
  - apply trimEnd_idem.
  - apply trimEnd_clean, trimStart_clean.
Qed.

Lemma sameUpToCase_upper s t : sameUpToCase s t -> toUpperCase s = toUpperCase t.
Proof.
  unfold toUpperCase.
  induction 1 as [|a b s t Hab _ IH]; cbn [map_string]; [reflexivity|].
  rewrite IH. f_equal.
  now rewrite <- (upper_of_lower_char a), Hab, upper_of_lower_char.
Qed.

End CaseMapping.

(** The string part of [normalizeAggTypeValue]. *)
Lemma normalizeAggTypeValue_string s :
  normalizeAggTypeValue (JString s) =
  if is_empty (toUpperCase (trim s)) then JNull
  else JString (if String.eqb (toUpperCase (trim s)) "AVG" then "AVERAGE"
                else toUpperCase (trim s)).
Proof. reflexivity. Qed.

Lemma normalizeAggTypeValue_result raw :
  normalizeAggTypeValue raw = JNull \/
  exists u, normalizeAggTypeValue raw = JString u /\
            is_empty u = false /\
            (u = "AVERAGE" \/ (toUpperCase (trim u) = u /\ String.eqb u "AVG" = false)).
Proof.
  unfold normalizeAggTypeValue.
  destruct (is_nullish raw); [now left|].
  set (u := toUpperCase (trim (ToString raw))).
  destruct (is_empty u) eqn:Eu; [now left|].
  right. destruct (String.eqb u "AVG") eqn:Ea.
  - exists "AVERAGE". repeat split; auto.
  - exists u. repeat split; auto. right. split; [|exact Ea].
    subst u. now rewrite trim_upper, toUpperCase_idem, trim_idem.
Qed.

Lemma normalizeAggTypeValue_idem raw :
  normalizeAggTypeValue (normalizeAggTypeValue raw) = normalizeAggTypeValue raw.
Proof.
  destruct (normalizeAggTypeValue_result raw) as [-> | (u & -> & Hne & [-> | [Hfix Havg]])].
  - reflexivity.
  - reflexivity.
  - rewrite normalizeAggTypeValue_string, Hfix, Hne, Havg. reflexivity.
Qed.

(** [normalizeAggTypeValue] in the 8-bit model, where letters and white
    space are those of ASCII: it gives the same result on strings that
    differ only in the case of their letters and is idempotent on every
    input; on a string it is the trimmed, upper-cased string with AVG
    replaced by AVERAGE; it is [null] for [null], [undefined], the empty
    string and strings of white space.  The same on all strings is
    [normalize_same_upper_case_idempotent] below. *)
Theorem normalizeAggTypeValue_ascii :
  (forall s t, sameUpToCase s t ->
     normalizeAggTypeValue (JString s) = normalizeAggTypeValue (JString t)) /\
  (forall raw,
     normalizeAggTypeValue (normalizeAggTypeValue raw) = normalizeAggTypeValue raw) /\
  (forall s, toUpperCase (trim s) <> EmptyString ->
     normalizeAggTypeValue (JString s) =
     JString (if String.eqb (toUpperCase (trim s)) "AVG" then "AVERAGE"
              else toUpperCase (trim s))) /\
  normalizeAggTypeValue (JString "avg") = JString "AVERAGE" /\
  normalizeAggTypeValue JNull = JNull /\
  normalizeAggTypeValue JUndefined = JNull /\
  (forall s, trim s = EmptyString -> normalizeAggTypeValue (JString s) = JNull).
Proof.
  split; [|split; [|split; [|repeat split]]].
  - intros s t Hst. rewrite !normalizeAggTypeValue_string.
    rewrite <- !trim_upper. now rewrite (sameUpToCase_upper s t Hst).
  - apply normalizeAggTypeValue_idem.
  - intros s Hne. rewrite normalizeAggTypeValue_string.
    destruct (toUpperCase (trim s)); [contradiction | reflexivity].
  - intros s Hs. rewrite normalizeAggTypeValue_string, Hs. reflexivity.
Qed.

Lemma normalizeAggTypeValue_ascii_example :
  sameUpToCase " Count_Distinct" " cOUNT_distinct" /\
  normalizeAggTypeValue (JString " Count_Distinct") =
  normalizeAggTypeValue (JString " cOUNT_distinct") /\
  normalizeAggTypeValue (JString " Count_Distinct") = JString "COUNT_DISTINCT" /\
  normalizeAggTypeValue (JString "   ") = JNull.
Proof.
  assert (H : sameUpToCase " Count_Distinct" " cOUNT_distinct")
    by (repeat (constructor; [reflexivity|]); constructor).
  split; [exact H|]. split; [|split; reflexivity].
  destruct normalizeAggTypeValue_ascii as [Hci _].
  exact (Hci _ _ H).
Defined.

(** ** Strings beyond ASCII: the case tables *)

Section UnicodeStrings.

Import Unicode.

Implicit Types (c d u v : Z) (s t a b l : list Z).

Lemma units_eqb_eq a b : units_eqb a b = true <-> a = b.
Proof.
  revert b. induction a as [|u a IH]; intros [|v b]; cbn [units_eqb];
    try (split; intros; (reflexivity || discriminate)).
  rewrite andb_true_iff, Z.eqb_eq, IH.
  split; [intros [-> ->]; reflexivity | intros [= -> ->]; auto].
Qed.

Lemma inRun_elements c run :
  0 < snd (fst run) -> inRun c run = true -> In c (runElements run).
Proof.
  destruct run as [[[first last] stride] delta].
  cbn [fst snd inRun runElements]. intros Hs H.
  apply andb_true_iff in H as [H Hmod]. apply andb_true_iff in H as [Hlo Hhi].
  apply Z.leb_le in Hlo, Hhi. apply Z.eqb_eq in Hmod.
  assert (Hq : 0 <= (c - first) / stride) by (apply Z.div_pos; lia).
  apply in_map_iff. exists (Z.to_nat ((c - first) / stride)). split.
  - rewrite Z2Nat.id by exact Hq.
    pose proof (Z.div_mod (c - first) stride ltac:(lia)). lia.
  - apply in_seq.
    assert ((c - first) / stride <= (last - first) / stride)
      by (apply Z.div_le_mono; lia).
    lia.
Qed.

Lemma caseMapping_outside runs special c :
  forallb (fun run : Z * Z * Z * Z => 0 <? snd (fst run)) runs = true ->
  ~ In c (mappingDomain runs special) -> caseMapping runs special c = [c].
Proof.
  intros Hs Hout. unfold caseMapping.
  destruct (find _ special) as [[k mapped]|] eqn:E1.
  { exfalso. apply Hout. apply find_some in E1 as [Hin Hk].
    cbn [fst] in Hk. apply Z.eqb_eq in Hk. subst k.
    apply in_or_app. left. apply in_map_iff. now exists (c, mapped). }
  destruct (find (inRun c) runs) as [run|] eqn:E2; [|reflexivity].
  exfalso. apply Hout. apply find_some in E2 as [Hin Hrun].
  apply in_or_app. right. apply in_flat_map. exists run. split; [exact Hin|].
  apply inRun_elements; [|exact Hrun].
  apply Z.ltb_lt. exact (proj1 (forallb_forall _ _) Hs run Hin).
Qed.

Lemma upperRanges_strides :
  forallb (fun run : Z * Z * Z * Z => 0 <? snd (fst run)) upperRanges = true.
Proof. vm_compute. reflexivity. Qed.

Lemma lowerRanges_strides :
  forallb (fun run : Z * Z * Z * Z => 0 <? snd (fst run)) lowerRanges = true.
Proof. vm_compute. reflexivity. Qed.

(** The checks of the two tables, by computation. *)
Lemma upperDomain_ok : forallb upperEntryOk upperDomain = true.
Proof. vm_compute. reflexivity. Qed.

Lemma lowerDomain_ok : forallb lowerEntryOk lowerDomain = true.
Proof. vm_compute. reflexivity. Qed.

Lemma upperEntry c : toUppercase c = [c] \/ upperEntryOk c = true.
Proof.
  destruct (in_dec Z.eq_dec c upperDomain) as [Hin | Hout].
  - right. exact (proj1 (forallb_forall _ _) upperDomain_ok c Hin).
  - left. exact (caseMapping_outside _ _ c upperRanges_strides Hout).
Qed.

Lemma lowerEntry c : toLowercase c = [c] \/ lowerEntryOk c = true.
Proof.
  destruct (in_dec Z.eq_dec c lowerDomain) as [Hin | Hout].
  - right. exact (proj1 (forallb_forall _ _) lowerDomain_ok c Hin).
  - left. exact (caseMapping_outside _ _ c lowerRanges_strides Hout).
Qed.

Lemma upperEntryOk_spec c :
  upperEntryOk c = true ->
  toUppercase c <> [] /\
  flat_map toUppercase (toUppercase c) = toUppercase c /\
  is_whitespace c = false /\ is_surrogate c = false /\
  forall d, In d (toUppercase c) ->
    is_whitespace d = false /\ is_surrogate d = false.
Proof.
  unfold upperEntryOk. rewrite !andb_true_iff, !negb_true_iff.
  intros ((((Hne & Hid) & Hws) & Hsu) & Hall).
  split; [now destruct (toUppercase c)|].
  split; [now apply units_eqb_eq|].
  split; [exact Hws|]. split; [exact Hsu|].
  intros d Hd. apply (proj1 (forallb_forall _ _) Hall) in Hd.
  now rewrite andb_true_iff, !negb_true_iff in Hd.
Qed.

Lemma toUppercase_nonempty c : toUppercase c <> [].
Proof.
  destruct (upperEntry c) as [H | H].
  - now rewrite H.
  - now apply upperEntryOk_spec in H.
Qed.

Lemma toUppercase_idem c :
  flat_map toUppercase (toUppercase c) = toUppercase c.
Proof.
  destruct (upperEntry c) as [H | H].
  - rewrite H. cbn [flat_map]. rewrite H. reflexivity.
  - now apply upperEntryOk_spec in H.
Qed.

Lemma toUppercase_whitespace c : is_whitespace c = true -> toUppercase c = [c].
Proof.
  intros Hws. destruct (upperEntry c) as [H | H]; [exact H|].
  apply upperEntryOk_spec in H. destruct H as (_ & _ & H & _). congruence.
Qed.

Lemma toUppercase_surrogate c : is_surrogate c = true -> toUppercase c = [c].
Proof.
  intros Hs. destruct (upperEntry c) as [H | H]; [exact H|].
  apply upperEntryOk_spec in H. destruct H as (_ & _ & _ & H & _). congruence.
Qed.

Lemma toUppercase_solid c : is_whitespace c = false -> solid (toUppercase c).
Proof.
  intros Hws. split; [apply toUppercase_nonempty|].
  apply forallb_forall. intros d Hd. apply negb_true_iff.
  destruct (upperEntry c) as [H | H].
  - rewrite H in Hd. destruct Hd as [<- | []]. exact Hws.
  - apply upperEntryOk_spec in H. destruct H as (_ & _ & _ & _ & H).
    now apply H.
Qed.

Lemma toUppercase_no_surrogate c d :
  is_surrogate c = false -> In d (toUppercase c) -> is_surrogate d = false.
Proof.
  intros Hs Hd. destruct (upperEntry c) as [H | H].
  - rewrite H in Hd. destruct Hd as [<- | []]. exact Hs.
  - apply upperEntryOk_spec in H. destruct H as (_ & _ & _ & _ & H).
    now apply H.
Qed.

(** A one-letter lower-case form has the upper-case form of the letter,
    the asymmetric letters apart. *)
Lemma toLowercase_upper c d :
  toLowercase c = [d] -> ~ In c ASYMMETRIC_CASE ->
  toUppercase d = toUppercase c.
Proof.
  intros Hl Hc. destruct (lowerEntry c) as [H | H].
  - rewrite H in Hl. now injection Hl as ->.
  - unfold lowerEntryOk in H. apply orb_true_iff in H as [H | H].
    + exfalso. apply Hc. apply existsb_exists in H as (x & Hx & Heq).
      apply Z.eqb_eq in Heq. now subst x.
    + rewrite Hl in H. now apply units_eqb_eq.
Qed.

(** *** Surrogates and white space *)

Lemma high_range u : is_high_surrogate u = true <-> 0xD800 <= u <= 0xDBFF.
Proof. unfold is_high_surrogate. rewrite andb_true_iff, !Z.leb_le. tauto. Qed.

Lemma low_range u : is_low_surrogate u = true <-> 0xDC00 <= u <= 0xDFFF.
Proof. unfold is_low_surrogate. rewrite andb_true_iff, !Z.leb_le. tauto. Qed.

Lemma surrogate_range u : is_surrogate u = true <-> 0xD800 <= u <= 0xDFFF.
Proof.
  unfold is_surrogate. rewrite orb_true_iff, high_range, low_range. lia.
Qed.

Lemma whitespace_range u :
  is_whitespace u = true -> 0 <= u < 0xD800 \/ 0xDFFF < u < 0x10000.
Proof.
  intros H. apply existsb_exists in H as (w & Hin & Heq).
  apply Z.eqb_eq in Heq. subst w.
  cbn [WHITE_SPACE In] in Hin.
  repeat (destruct Hin as [<- | Hin]; [lia|]). destruct Hin.
Qed.

Lemma surrogate_not_whitespace u :
  is_surrogate u = true -> is_whitespace u = false.
Proof.
  intros Hs. apply surrogate_range in Hs.
  destruct (is_whitespace u) eqn:E; [|reflexivity].
  apply whitespace_range in E. lia.
Qed.

Lemma supplementary_not_whitespace c : 0x10000 <= c -> is_whitespace c = false.
Proof.
  intros Hc. destruct (is_whitespace c) eqn:E; [|reflexivity].
  apply whitespace_range in E. lia.
Qed.

Lemma pair_supplementary u v :
  is_high_surrogate u && is_low_surrogate v = true ->
  0x10000 <= UTF16SurrogatePairToCodePoint u v <= 0x10FFFF.
Proof.
  rewrite andb_true_iff, high_range, low_range.
  unfold UTF16SurrogatePairToCodePoint. lia.
Qed.

Lemma encode_pair cp :
  (0x10000 <=? cp) && (cp <=? 0x10FFFF) = true ->
  exists lead trail,
    UTF16EncodeCodePoint cp = [lead; trail] /\
    is_high_surrogate lead = true /\ is_low_surrogate trail = true /\
    UTF16SurrogatePairToCodePoint lead trail = cp.
Proof.
  intros H. unfold UTF16EncodeCodePoint. rewrite H.
  apply andb_true_iff in H as [Hlo Hhi]. apply Z.leb_le in Hlo, Hhi.
  eexists _, _. split; [reflexivity|].
  rewrite high_range, low_range. unfold UTF16SurrogatePairToCodePoint.
  Z.div_mod_to_equations. lia.
Qed.

Lemma encode_single cp :
  (0x10000 <=? cp) && (cp <=? 0x10FFFF) = false -> UTF16EncodeCodePoint cp = [cp].
Proof. intros H. unfold UTF16EncodeCodePoint. now rewrite H. Qed.

Lemma encode_whitespace c :
  is_whitespace c = true -> UTF16EncodeCodePoint c = [c].
Proof.
  intros H. apply whitespace_range in H. apply encode_single.
  apply andb_false_iff. left. apply Z.leb_gt. lia.
Qed.

Lemma encode_solid c : is_whitespace c = false -> solid (UTF16EncodeCodePoint c).
Proof.
  intros Hws. destruct ((0x10000 <=? c) && (c <=? 0x10FFFF)) eqn:E.
  - destruct (encode_pair c E) as (lead & trail & -> & Hl & Ht & _).
    split; [discriminate|]. cbn [forallb].
    rewrite !surrogate_not_whitespace; [reflexivity | |];
      unfold is_surrogate; rewrite ?Hl, ?Ht, ?orb_true_r; reflexivity.
  - rewrite (encode_single c E). split; [discriminate|].
    cbn [forallb]. now rewrite Hws.
Qed.

(** *** Code units and code points *)

Lemma codePoints_ind (P : list Z -> Prop) :
  P [] -> (forall u, P [u]) ->
  (forall u v s,
     is_high_surrogate u && is_low_surrogate v = true -> P s -> P (u :: v :: s)) ->
  (forall u v s,
     is_high_surrogate u && is_low_surrogate v = false ->
     P (v :: s) -> P (u :: v :: s)) ->
  forall s, P s.
Proof.
  intros Hnil Hone Hpair Hsingle.
  assert (H : forall n s, (length s <= n)%nat -> P s).
  { induction n as [|n IH]; intros [|u [|v s]] Hlen; cbn [length] in Hlen;
      try lia; auto.
    destruct (is_high_surrogate u && is_low_surrogate v) eqn:E.
    - apply Hpair; [exact E|]. apply IH. lia.
    - apply Hsingle; [exact E|]. apply IH. cbn [length]. lia. }
  intros s. exact (H (length s) s (le_n _)).
Qed.

Lemma codePoints_cons u v s :
  StringToCodePoints (u :: v :: s) =
  if is_high_surrogate u && is_low_surrogate v
  then UTF16SurrogatePairToCodePoint u v :: StringToCodePoints s
  else u :: StringToCodePoints (v :: s).
Proof. reflexivity. Qed.

Lemma is_empty_codePoints s : is_empty (StringToCodePoints s) = is_empty s.
Proof.
  destruct s as [|u [|v s]]; try reflexivity.
  rewrite codePoints_cons. now destruct (_ && _).
Qed.

(** A code point that is a low surrogate is a code unit of the string. *)
Lemma codePoints_head_low u s c l :
  StringToCodePoints (u :: s) = c :: l -> is_low_surrogate c = true -> c = u.
Proof.
  destruct s as [|v s]; [now intros [= <- _]|].
  rewrite codePoints_cons.
  destruct (is_high_surrogate u && is_low_surrogate v) eqn:E.
  - intros [= <- _] Hc. apply pair_supplementary in E.
    apply low_range in Hc. lia.
  - now intros [= <- _].
Qed.

Lemma codePoints_paired s : paired (StringToCodePoints s).
Proof.
  induction s as [| u | u v s Hp IH | u v s Hp IH] using codePoints_ind.
  - exact I.
  - exact I.
  - rewrite codePoints_cons, Hp.
    destruct (StringToCodePoints s) as [|c l] eqn:E; [exact I|].
    split; [|exact IH].
    apply pair_supplementary in Hp.
    apply andb_false_iff. left.
    destruct (is_high_surrogate _) eqn:Eh; [|reflexivity].
    apply high_range in Eh. lia.
  - rewrite codePoints_cons, Hp.
    destruct (StringToCodePoints (v :: s)) as [|c l] eqn:E; [exact I|].
    split; [|exact IH].
    destruct (is_low_surrogate c) eqn:Ec; [|apply andb_false_r].
    pose proof (codePoints_head_low v s c l E Ec) as Hc. subst c.
    now rewrite Ec in Hp.
Qed.

Lemma paired_tail c l : paired (c :: l) -> paired l.
Proof. destruct l; [intros; exact I | now intros [_ H]]. Qed.

Lemma encode_head_low d l x rest :
  CodePointsToString (d :: l) = x :: rest -> is_low_surrogate x = true -> x = d.
Proof.
  unfold CodePointsToString. cbn [flat_map].
  destruct ((0x10000 <=? d) && (d <=? 0x10FFFF)) eqn:E.
  - destruct (encode_pair d E) as (lead & trail & -> & Hl & _).
    intros [= <- _] Hx. apply high_range in Hl. apply low_range in Hx. lia.
  - rewrite (encode_single d E). now intros [= <- _].
Qed.

(** Encoding and decoding give the code points back. *)
Lemma codePoints_encode l :
  paired l -> StringToCodePoints (CodePointsToString l) = l.
Proof.
  induction l as [|c l IH]; intros Hp; [reflexivity|].
  pose proof (paired_tail _ _ Hp) as Hl.
  change (CodePointsToString (c :: l))
    with (UTF16EncodeCodePoint c ++ CodePointsToString l)%list.
  destruct ((0x10000 <=? c) && (c <=? 0x10FFFF)) eqn:E.
  - destruct (encode_pair c E) as (lead & trail & -> & Hlead & Htrail & Hcp).
    cbn [app]. rewrite codePoints_cons, Hlead, Htrail. cbn [andb].
    now rewrite Hcp, IH.
  - rewrite (encode_single c E). cbn [app].
    destruct l as [|d l']; [reflexivity|].
    destruct (CodePointsToString (d :: l')) as [|x rest] eqn:Ex.
    + rewrite <- (IH Hl). reflexivity.
    + rewrite codePoints_cons.
      assert (Hnp : is_high_surrogate c && is_low_surrogate x = false).
      { destruct (is_low_surrogate x) eqn:Ex'; [|apply andb_false_r].
        pose proof (encode_head_low d l' x rest Ex Ex') as Hx. subst x.
        destruct Hp as [Hp _]. now rewrite Ex' in Hp. }
      now rewrite Hnp, <- (IH Hl).
Qed.

Lemma paired_app_plain a b :
  (forall d, In d a -> is_surrogate d = false) ->
  paired b -> paired (a ++ b).
Proof.
  intros Ha Hb. induction a as [|c a IH]; [exact Hb|].
  cbn [app]. destruct (a ++ b)%list as [|d rest] eqn:E; [exact I|].
  split.
  - assert (Hc : is_surrogate c = false) by (apply Ha; now left).
    unfold is_surrogate in Hc. apply orb_false_iff in Hc as [-> _]. reflexivity.
  - apply IH. intros x Hx. apply Ha. now right.
Qed.

(** Upper-casing the code points gives no pair to put together. *)
Lemma paired_toUppercase l : paired l -> paired (flat_map toUppercase l).
Proof.
  induction l as [|c l IH]; intros Hp; [exact I|].
  pose proof (IH (paired_tail _ _ Hp)) as Hl.
  cbn [flat_map]. destruct (is_surrogate c) eqn:Es.
  - rewrite (toUppercase_surrogate c Es). cbn [app].
    destruct (flat_map toUppercase l) as [|d rest] eqn:E; [exact I|].
    split; [|exact Hl].
    destruct (is_low_surrogate d) eqn:Ed; [|apply andb_false_r].
    destruct l as [|e l']; [discriminate E|].
    cbn [flat_map] in E.
    destruct (is_surrogate e) eqn:Ee.
    + rewrite (toUppercase_surrogate e Ee) in E. injection E as <- _.
      destruct Hp as [Hp _]. now rewrite Ed in Hp.
    + exfalso.
      pose proof (toUppercase_nonempty e) as Hne.
      destruct (toUppercase e) as [|d' up] eqn:Eu; [contradiction|].
      injection E as -> _.
      assert (Hd : is_surrogate d = false).
      { apply (toUppercase_no_surrogate e d Ee). rewrite Eu. now left. }
      unfold is_surrogate in Hd. rewrite Ed, orb_true_r in Hd. discriminate.
  - apply paired_app_plain; [|exact Hl].
    intros d. now apply toUppercase_no_surrogate.
Qed.

Lemma codePoints_toUpperCase s :
  StringToCodePoints (toUpperCase s) =
  flat_map toUppercase (StringToCodePoints s).
Proof. apply codePoints_encode, paired_toUppercase, codePoints_paired. Qed.

Lemma flat_map_toUppercase_idem l :
  flat_map toUppercase (flat_map toUppercase l) = flat_map toUppercase l.
Proof.
  induction l as [|c l IH]; [reflexivity|].
  cbn [flat_map]. now rewrite flat_map_app, toUppercase_idem, IH.
Qed.

Lemma toUpperCase_twice s : toUpperCase (toUpperCase s) = toUpperCase s.
Proof.
  unfold toUpperCase at 1.
  now rewrite codePoints_toUpperCase, flat_map_toUppercase_idem.
Qed.

(** *** Trimming *)

Lemma trimStart_cons u s :
  trimStart (u :: s) = if is_whitespace u then trimStart s else u :: s.
Proof. reflexivity. Qed.

Lemma trimEnd_cons u s :
  trimEnd (u :: s) =
  if is_whitespace u && is_empty (trimEnd s) then [] else u :: trimEnd s.
Proof. reflexivity. Qed.

Lemma trimStart_solid a s : solid a -> trimStart (a ++ s) = (a ++ s)%list.
Proof.
  intros [Hne Hall]. destruct a as [|u a]; [contradiction|].
  cbn [forallb] in Hall. apply andb_true_iff in Hall as [Hu _].
  apply negb_true_iff in Hu. cbn [app]. now rewrite trimStart_cons, Hu.
Qed.

Lemma trimEnd_solid a s :
  forallb (fun u => negb (is_whitespace u)) a = true ->
  trimEnd (a ++ s) = (a ++ trimEnd s)%list.
Proof.
  induction a as [|u a IH]; intros Hall; [reflexivity|].
  cbn [forallb] in Hall. apply andb_true_iff in Hall as [Hu Ha].
  apply negb_true_iff in Hu. cbn [app].
  now rewrite trimEnd_cons, Hu, (IH Ha).
Qed.

Lemma trimEnd_head v s :
  trimEnd (v :: s) = [] \/ exists r, trimEnd (v :: s) = v :: r.
Proof. rewrite trimEnd_cons. destruct (_ && _); eauto. Qed.

Section TrimFlatMap.

Variable f : Z -> list Z.
Hypothesis f_whitespace : forall c, is_whitespace c = true -> f c = [c].
Hypothesis f_solid : forall c, is_whitespace c = false -> solid (f c).

Lemma is_empty_flat_map l : is_empty (flat_map f l) = is_empty l.
Proof.
  destruct l as [|c l]; [reflexivity|]. cbn [flat_map is_empty].
  destruct (is_whitespace c) eqn:E.
  - now rewrite (f_whitespace c E).
  - destruct (f_solid c E) as [Hne _]. now destruct (f c).
Qed.

Lemma trimStart_flat_map l :
  trimStart (flat_map f l) = flat_map f (trimStart l).
Proof.
  induction l as [|c l IH]; [reflexivity|].
  cbn [flat_map]. rewrite trimStart_cons. destruct (is_whitespace c) eqn:E.
  - rewrite (f_whitespace c E). cbn [app]. now rewrite trimStart_cons, E.
  - now rewrite (trimStart_solid _ _ (f_solid c E)).
Qed.

Lemma trimEnd_flat_map l :
  trimEnd (flat_map f l) = flat_map f (trimEnd l).
Proof.
  induction l as [|c l IH]; [reflexivity|].
  cbn [flat_map]. rewrite trimEnd_cons. destruct (is_whitespace c) eqn:E.
  - rewrite (f_whitespace c E). cbn [app].
    rewrite trimEnd_cons, E, IH, is_empty_flat_map.
    destruct (is_empty (trimEnd l)); cbn [andb flat_map]; [reflexivity|].
    now rewrite (f_whitespace c E).
  - destruct (f_solid c E) as [_ Hall].
    rewrite (trimEnd_solid _ _ Hall), IH. reflexivity.
Qed.

End TrimFlatMap.

Lemma codePoints_trimStart s :
  StringToCodePoints (trimStart s) = trimStart (StringToCodePoints s).
Proof.
  induction s as [| u | u v s Hp IH | u v s Hp IH] using codePoints_ind.
  - reflexivity.
  - cbn [StringToCodePoints]. rewrite !trimStart_cons.
    now destruct (is_whitespace u).
  - assert (Hu : is_whitespace u = false).
    { apply surrogate_not_whitespace. unfold is_surrogate.
      apply andb_true_iff in Hp as [-> _]. reflexivity. }
    rewrite trimStart_cons, Hu, codePoints_cons, Hp, trimStart_cons.
    now rewrite supplementary_not_whitespace
      by (apply pair_supplementary in Hp; lia).
  - rewrite codePoints_cons, Hp, !trimStart_cons.
    destruct (is_whitespace u); [exact IH|].
    now rewrite codePoints_cons, Hp.
Qed.

Lemma codePoints_trimEnd s :
  StringToCodePoints (trimEnd s) = trimEnd (StringToCodePoints s).
Proof.
  induction s as [| u | u v s Hp IH | u v s Hp IH] using codePoints_ind.
  - reflexivity.
  - cbn [StringToCodePoints]. rewrite !trimEnd_cons. cbn [trimEnd is_empty].
    now destruct (is_whitespace u).
  - assert (Hu : is_whitespace u = false).
    { apply surrogate_not_whitespace. unfold is_surrogate.
      apply andb_true_iff in Hp as [-> _]. reflexivity. }
    assert (Hv : is_whitespace v = false).
    { apply surrogate_not_whitespace. unfold is_surrogate.
      apply andb_true_iff in Hp as [_ ->]. apply orb_true_r. }
    rewrite trimEnd_cons, Hu, (trimEnd_cons v), Hv. cbn [andb].
    rewrite !codePoints_cons, Hp, trimEnd_cons, IH.
    now rewrite supplementary_not_whitespace
      by (apply pair_supplementary in Hp; lia).
  - rewrite codePoints_cons, Hp, (trimEnd_cons u (v :: s)),
      (trimEnd_cons u (StringToCodePoints (v :: s))), <- IH,
      is_empty_codePoints.
    destruct (is_whitespace u && is_empty (trimEnd (v :: s))); [reflexivity|].
    destruct (trimEnd_head v s) as [-> | [r ->]]; [reflexivity|].
    now rewrite codePoints_cons, Hp.
Qed.

Lemma codePoints_trim s :
  StringToCodePoints (trim s) = trim (StringToCodePoints s).
Proof. unfold trim. now rewrite codePoints_trimEnd, codePoints_trimStart. Qed.

(** Trimming and upper-casing commute. *)
Lemma trim_toUpperCase s : trim (toUpperCase s) = toUpperCase (trim s).
Proof.
  unfold toUpperCase, CodePointsToString, trim.
  rewrite (trimStart_flat_map _ encode_whitespace encode_solid).
  rewrite (trimEnd_flat_map _ encode_whitespace encode_solid).
  rewrite (trimStart_flat_map _ toUppercase_whitespace toUppercase_solid).
  rewrite (trimEnd_flat_map _ toUppercase_whitespace toUppercase_solid).
  now rewrite codePoints_trimEnd, codePoints_trimStart.
Qed.

Lemma trimEnd_twice s : trimEnd (trimEnd s) = trimEnd s.
Proof.
  induction s as [|u s IH]; [reflexivity|].
  rewrite trimEnd_cons.
  destruct (is_whitespace u && is_empty (trimEnd s)) eqn:E; [reflexivity|].
  now rewrite trimEnd_cons, IH, E.
Qed.

Lemma trimStart_trimEnd s :
  trimStart (trimEnd (trimStart s)) = trimEnd (trimStart s).
Proof.
  induction s as [|u s IH]; [reflexivity|].
  rewrite trimStart_cons. destruct (is_whitespace u) eqn:E; [exact IH|].
  rewrite trimEnd_cons, E. cbn [andb]. now rewrite trimStart_cons, E.
Qed.

Lemma trim_twice s : trim (trim s) = trim s.
Proof. unfold trim. now rewrite trimStart_trimEnd, trimEnd_twice. Qed.

(** *** [normalizeAggTypeValue] on all strings *)

Lemma normalize_string s :
  normalizeAggTypeValue (VString s) =
  if is_empty (toUpperCase (trim s)) then VNull
  else VString (if units_eqb (toUpperCase (trim s)) (units "AVG")
                then units "AVERAGE" else toUpperCase (trim s)).
Proof. reflexivity. Qed.

(** What [normalizeAggTypeValue] returns: [null], AVERAGE, or a string
    that trimming and upper-casing leave alone and that is not AVG. *)
Lemma normalize_result raw :
  normalizeAggTypeValue raw = VNull \/
  normalizeAggTypeValue raw = VString (units "AVERAGE") \/
  exists upper,
    normalizeAggTypeValue raw = VString upper /\ is_empty upper = false /\
    toUpperCase (trim upper) = upper /\ units_eqb upper (units "AVG") = false.
Proof.
  assert (H : forall s,
            normalizeAggTypeValue (VString s) = VNull \/
            normalizeAggTypeValue (VString s) = VString (units "AVERAGE") \/
            exists upper,
              normalizeAggTypeValue (VString s) = VString upper /\
              is_empty upper = false /\
              toUpperCase (trim upper) = upper /\
              units_eqb upper (units "AVG") = false).
  { intros s. rewrite normalize_string.
    set (upper := toUpperCase (trim s)).
    destruct (is_empty upper) eqn:Ee; [now left|]. right.
    destruct (units_eqb upper (units "AVG")) eqn:Ea; [now left|]. right.
    exists upper. repeat split; auto.
    subst upper. now rewrite <- trim_toUpperCase, toUpperCase_twice,
      trim_toUpperCase, trim_twice. }
  destruct raw as [| | b | n | s]; try (now left).
  - exact (H (ToString (VBool b))).
  - exact (H (ToString (VNumber n))).
  - exact (H s).
Qed.

Lemma normalize_twice raw :
  normalizeAggTypeValue (normalizeAggTypeValue raw) = normalizeAggTypeValue raw.
Proof.
  destruct (normalize_result raw)
    as [-> | [-> | (upper & -> & Hne & Hfix & Havg)]].
  - reflexivity.
  - reflexivity.
  - now rewrite normalize_string, Hfix, Hne, Havg.
Qed.

(** Case forms have one upper-case form. *)
Lemma caseVariant_toUppercase c d :
  caseVariant ASYMMETRIC_CASE c d -> toUppercase c = toUppercase d.
Proof.
  intros [-> | [H | [H | [H | [[H Hc] | [H Hd]]]]]].
  - reflexivity.
  - pose proof (toUppercase_idem c) as Hi. rewrite H in Hi.
    cbn [flat_map] in Hi. rewrite app_nil_r in Hi. now rewrite H, Hi.
  - pose proof (toUppercase_idem d) as Hi. rewrite H in Hi.
    cbn [flat_map] in Hi. rewrite app_nil_r in Hi. now rewrite H, Hi.
  - exact H.
  - symmetry. now apply toLowercase_upper.
  - now apply toLowercase_upper.
Qed.

Lemma differOnlyInCase_toUpperCase x y :
  differOnlyInCase x y -> toUpperCase x = toUpperCase y.
Proof.
  unfold differOnlyInCase, toUpperCase. intros H. f_equal.
  induction H as [|c d l l' Hcd _ IH]; [reflexivity|].
  cbn [flat_map]. now rewrite (caseVariant_toUppercase c d Hcd), IH.
Qed.

Lemma same_upper_normalize x y :
  toUpperCase x = toUpperCase y ->
  normalizeAggTypeValue (VString x) = normalizeAggTypeValue (VString y).
Proof.
  intros H. rewrite !normalize_string, <- !trim_toUpperCase. now rewrite H.
Qed.

(** *** The 8-bit model is the ASCII part *)

Lemma units_inj (s t : string) : units s = units t -> s = t.
Proof.
  revert t. induction s as [|c s IH]; intros [|d t]; try discriminate;
    [reflexivity|].
  cbn [units]. intros [= Hc Ht]. apply Nat2Z.inj in Hc.
  rewrite <- (ascii_nat_embedding c), <- (ascii_nat_embedding d), Hc.
  now rewrite (IH t Ht).
Qed.

Lemma units_eqb_units (s t : string) :
  units_eqb (units s) (units t) = String.eqb s t.
Proof.
  destruct (String.eqb_spec s t) as [-> | Hne].
  - now apply units_eqb_eq.
  - destruct (units_eqb (units s) (units t)) eqn:E; [|reflexivity].
    apply units_eqb_eq, units_inj in E. contradiction.
Qed.

Lemma ascii_char (c : ascii) :
  isAscii c = true ->
  is_whitespace (Z.of_nat (nat_of_ascii c)) = Js.is_whitespace c /\
  is_surrogate (Z.of_nat (nat_of_ascii c)) = false /\
  toUppercase (Z.of_nat (nat_of_ascii c)) =
    [Z.of_nat (nat_of_ascii (upper_char c))] /\
  isAscii (upper_char c) = true.
Proof.
  destruct c as [[] [] [] [] [] [] [] []]; intros H;
    try discriminate H; vm_compute; repeat split; reflexivity.
Qed.

Lemma units_trimStart (s : string) :
  asciiOnly s = true -> trimStart (units s) = units (Js.trimStart s).
Proof.
  induction s as [|c s IH]; [reflexivity|].
  cbn [asciiOnly]. intros H. apply andb_true_iff in H as [Hc Hs].
  cbn [units Js.trimStart]. rewrite trimStart_cons.
  destruct (ascii_char c Hc) as (-> & _).
  destruct (Js.is_whitespace c); [exact (IH Hs) | reflexivity].
Qed.

Lemma is_empty_units (s : string) : is_empty (units s) = Js.is_empty s.
Proof. now destruct s. Qed.

Lemma units_trimEnd (s : string) :
  asciiOnly s = true -> trimEnd (units s) = units (Js.trimEnd s).
Proof.
  induction s as [|c s IH]; [reflexivity|].
  cbn [asciiOnly]. intros H. apply andb_true_iff in H as [Hc Hs].
  cbn [units Js.trimEnd]. rewrite trimEnd_cons, (IH Hs), is_empty_units.
  destruct (ascii_char c Hc) as (-> & _).
  now destruct (Js.is_whitespace c && Js.is_empty (Js.trimEnd s)).
Qed.

Lemma asciiOnly_trimStart (s : string) :
  asciiOnly s = true -> asciiOnly (Js.trimStart s) = true.
Proof.
  induction s as [|c s IH]; [reflexivity|].
  intros H. cbn [Js.trimStart]. destruct (Js.is_whitespace c); [|exact H].
  cbn [asciiOnly] in H. apply andb_true_iff in H as [_ Hs]. exact (IH Hs).
Qed.

Lemma asciiOnly_trimEnd (s : string) :
  asciiOnly s = true -> asciiOnly (Js.trimEnd s) = true.
Proof.
  induction s as [|c s IH]; [reflexivity|].
  cbn [asciiOnly]. intros H. apply andb_true_iff in H as [Hc Hs].
  cbn [Js.trimEnd]. destruct (_ && _); [reflexivity|].
  cbn [asciiOnly]. now rewrite Hc, (IH Hs).
Qed.

Lemma units_trim (s : string) :
  asciiOnly s = true -> trim (units s) = units (Js.trim s).
Proof.
  intros H. unfold trim, Js.trim.
  now rewrite (units_trimStart s H), (units_trimEnd _ (asciiOnly_trimStart s H)).
Qed.

Lemma codePoints_units (s : string) :
  asciiOnly s = true -> StringToCodePoints (units s) = units s.
Proof.
  induction s as [|c s IH]; [reflexivity|].
  cbn [asciiOnly]. intros H. apply andb_true_iff in H as [Hc Hs].
  destruct s as [|d s]; [reflexivity|].
  cbn [units] in *. rewrite codePoints_cons, (IH Hs).
  destruct (ascii_char c Hc) as (_ & Hsur & _).
  unfold is_surrogate in Hsur. apply orb_false_iff in Hsur as [-> _].
  reflexivity.
Qed.

Lemma units_toUpperCase (s : string) :
  asciiOnly s = true -> toUpperCase (units s) = units (Js.toUpperCase s).
Proof.
  intros H. unfold toUpperCase. rewrite (codePoints_units s H).
  unfold Js.toUpperCase.
  induction s as [|c s IH]; [reflexivity|].
  cbn [asciiOnly] in H. apply andb_true_iff in H as [Hc Hs].
  cbn [units map_string flat_map].
  destruct (ascii_char c Hc) as (_ & _ & -> & Hup).
  unfold CodePointsToString in *. cbn [flat_map app]. rewrite (IH Hs).
  destruct (ascii_char _ Hup) as (_ & Hsur & _).
  rewrite encode_single; [reflexivity|].
  apply andb_false_iff. left. apply Z.leb_gt.
  destruct (0x10000 <=? Z.of_nat (nat_of_ascii (upper_char c))) eqn:E;
    [|now apply Z.leb_gt].
  apply Z.leb_le in E. pose proof (nat_ascii_bounded (upper_char c)). lia.
Qed.

End UnicodeStrings.

(** On ASCII strings the 8-bit [normalizeAggTypeValue] is the one on all
    strings. *)
Lemma normalize_ascii (s : string) :
  asciiOnly s = true ->
  Unicode.normalizeAggTypeValue (Unicode.VString (Unicode.units s)) =
  Unicode.inject (normalizeAggTypeValue (JString s)).
Proof.
  intros H. rewrite normalize_string.
  assert (Ht : asciiOnly (trim s) = true)
    by (apply asciiOnly_trimEnd, asciiOnly_trimStart, H).
  rewrite (units_trim s H), (units_toUpperCase _ Ht).
  rewrite is_empty_units, units_eqb_units.
  unfold normalizeAggTypeValue. cbn [is_nullish ToString].
  destruct (is_empty _); [reflexivity|].
  now destruct (String.eqb _ "AVG").
Qed.

(** C6: [normalizeAggTypeValue], on all strings.  It is idempotent on
    every input.  It gives one result on inputs with the same upper-case
    form, so on inputs that differ only in case, the five letters apart
    whose lower-case form has another upper-case form (the Greek theta
    symbol, the capital sharp s, the ohm, kelvin and angstrom signs).  On
    a string it is the trimmed, upper-cased string with AVG replaced by
    AVERAGE, so "avg" becomes "AVERAGE"; it is [null] for [null],
    [undefined], the empty string and strings of white space.  On ASCII
    strings it is the function of the 8-bit model. *)
Theorem normalize_same_upper_case_idempotent :
  (forall raw,
     Unicode.normalizeAggTypeValue (Unicode.normalizeAggTypeValue raw) =
     Unicode.normalizeAggTypeValue raw) /\
  (forall x y,
     Unicode.toUpperCase x = Unicode.toUpperCase y ->
     Unicode.normalizeAggTypeValue (Unicode.VString x) =
     Unicode.normalizeAggTypeValue (Unicode.VString y)) /\
  (forall x y,
     Unicode.differOnlyInCase x y ->
     Unicode.normalizeAggTypeValue (Unicode.VString x) =
     Unicode.normalizeAggTypeValue (Unicode.VString y)) /\
  (forall s,
     Unicode.normalizeAggTypeValue (Unicode.VString s) =
     let upper := Unicode.toUpperCase (Unicode.trim s) in
     if Unicode.is_empty upper then Unicode.VNull
     else if Unicode.units_eqb upper (Unicode.units "AVG")
          then Unicode.VString (Unicode.units "AVERAGE")
          else Unicode.VString upper) /\
  Unicode.normalizeAggTypeValue (Unicode.VString (Unicode.units "avg")) =
    Unicode.VString (Unicode.units "AVERAGE") /\
  Unicode.normalizeAggTypeValue Unicode.VNull = Unicode.VNull /\
  Unicode.normalizeAggTypeValue Unicode.VUndefined = Unicode.VNull /\
  (forall s, Unicode.trim s = [] ->
     Unicode.normalizeAggTypeValue (Unicode.VString s) = Unicode.VNull) /\
  (forall s : string,
     asciiOnly s = true ->
     Unicode.normalizeAggTypeValue (Unicode.VString (Unicode.units s)) =
     Unicode.inject (normalizeAggTypeValue (JString s))).
Proof.
  split; [apply normalize_twice|].
  split; [apply same_upper_normalize|].
  split; [intros x y H; apply same_upper_normalize,
                          differOnlyInCase_toUpperCase, H|].
  split.
  { intros s. rewrite normalize_string. cbn zeta.
    destruct (Unicode.is_empty _); [reflexivity|].
    now destruct (Unicode.units_eqb _ _). }
  split; [reflexivity|]. split; [reflexivity|]. split; [reflexivity|].
  split; [|apply normalize_ascii].
  intros s Hs. rewrite normalize_string, Hs. reflexivity.
Qed.

(** The kelvin sign and "k", and the capital and the small sharp s, differ
    only in case, and are not normalized to one result: the kelvin sign
    and the capital sharp s are their own upper-case forms, "k" becomes
    "K" and the small sharp s "SS". *)
Lemma kelvin_sign_and_k_normalize_apart :
  (Unicode.spec_differOnlyInCase [0x212A] (Unicode.units "k") /\
   Unicode.normalizeAggTypeValue (Unicode.VString [0x212A]) =
     Unicode.VString [0x212A] /\
   Unicode.normalizeAggTypeValue (Unicode.VString (Unicode.units "k")) =
     Unicode.VString (Unicode.units "K") /\
   Unicode.normalizeAggTypeValue (Unicode.VString [0x212A]) <>
   Unicode.normalizeAggTypeValue (Unicode.VString (Unicode.units "k"))) /\
  (Unicode.spec_differOnlyInCase [0x1E9E] [0xDF] /\
   Unicode.normalizeAggTypeValue (Unicode.VString [0x1E9E]) =
     Unicode.VString [0x1E9E] /\
   Unicode.normalizeAggTypeValue (Unicode.VString [0xDF]) =
     Unicode.VString (Unicode.units "SS") /\
   Unicode.normalizeAggTypeValue (Unicode.VString [0x1E9E]) <>
   Unicode.normalizeAggTypeValue (Unicode.VString [0xDF])).
Proof.
  split; (split; [|split; [|split]]).
  - constructor; [|constructor].
    right. right. right. right. left. split; [reflexivity | intros []].
  - reflexivity.
  - reflexivity.
  - discriminate.
  - constructor; [|constructor].
    right. right. right. right. left. split; [reflexivity | intros []].
  - reflexivity.
  - reflexivity.
  - discriminate.
Defined.

(** "é" and "É" in " Moyenne_é " and " mOYENNE_É" differ only in case, as
    do the other letters; both are normalized to "MOYENNE_É".  No-break
    spaces are trimmed, and "avg" between them becomes "AVERAGE"; a
    string of white space gives [null]. *)
Lemma normalize_mixed_case_beyond_ascii :
  let x := (Unicode.units " Moyenne_" ++ [0xE9; 0x20])%list in
  let y := (Unicode.units " mOYENNE_" ++ [0xC9])%list in
  Unicode.differOnlyInCase (Unicode.trim x) (Unicode.trim y) /\
  Unicode.normalizeAggTypeValue (Unicode.VString (Unicode.trim x)) =
  Unicode.normalizeAggTypeValue (Unicode.VString (Unicode.trim y)) /\
  Unicode.normalizeAggTypeValue (Unicode.VString x) =
    Unicode.VString (Unicode.units "MOYENNE_" ++ [0xC9])%list /\
  Unicode.normalizeAggTypeValue
    (Unicode.VString ([0xA0] ++ Unicode.units "avg" ++ [0xFEFF; 0xA0])%list) =
    Unicode.VString (Unicode.units "AVERAGE") /\
  Unicode.normalizeAggTypeValue (Unicode.VString [0x2003; 0x20; 0x3000]) =
    Unicode.VNull.
Proof.
  intros x y.
  assert (H : Unicode.differOnlyInCase (Unicode.trim x) (Unicode.trim y)).
  { unfold Unicode.differOnlyInCase.
    change (Unicode.StringToCodePoints (Unicode.trim x))
      with [0x4D; 0x6F; 0x79; 0x65; 0x6E; 0x6E; 0x65; 0x5F; 0xE9].
    change (Unicode.StringToCodePoints (Unicode.trim y))
      with [0x6D; 0x4F; 0x59; 0x45; 0x4E; 0x4E; 0x45; 0x5F; 0xC9].
    repeat (constructor;
            [first [ left; reflexivity
                   | right; left; reflexivity
                   | right; right; left; reflexivity ] |]).
    constructor. }
  split; [exact H|]. split; [|split; [|split]; reflexivity].
  destruct normalize_same_upper_case_idempotent as (_ & _ & Hci & _).
  exact (Hci _ _ H).
Defined.

(** ** Recomputation: frame, classification, display value *)

Lemma strict_eq_string s v : strict_eq (JString s) v = true <-> v = JString s.
Proof.
  destruct v; simpl; try (split; [discriminate | intros H; discriminate H]).
  rewrite String.eqb_eq. split; [intros -> | intros [= ->]]; reflexivity.
Qed.

Lemma strict_eq_string_r s v : strict_eq v (JString s) = true <-> v = JString s.
Proof.
  destruct v; simpl; try (split; [discriminate | intros H; discriminate H]).
  rewrite String.eqb_eq. split; [intros -> | intros [= ->]]; reflexivity.
Qed.

Lemma includes_spec l v :
  includes l v = true <-> exists k, In k l /\ v = JString k.
Proof.
  unfold includes. rewrite existsb_exists.
  split; intros (k & Hin & Hk); exists k; split; auto; now apply strict_eq_string.
Qed.

Lemma value_present_spec v :
  is_nullish v || strict_eq v (JString EmptyString) = false <->
  v <> JUndefined /\ v <> JNull /\ v <> JString EmptyString.
Proof.
  rewrite orb_false_iff. split.
  - intros [Hn He]. repeat split; intros ->; simpl in *; discriminate.
  - intros (H1 & H2 & H3). split.
    + destruct v; simpl; congruence.
    + destruct (strict_eq v (JString EmptyString)) eqn:E; [|reflexivity].
      apply strict_eq_string_r in E. contradiction.
Qed.

(** C10: [recomputeTileDerivedFields] returns a tile with the same
    configuration and runtime state (index, label, aggregateFieldApiName,
    initialAggregationType, filterCondition, decimalPlaces, isLoading,
    error, value, recordCount, isCurrency, isPercent, isDate, fieldLabel,
    isAggregationMenuOpen); what it rewrites is aggregateType (the
    normalized type), fieldCategory (the resolved category) and the six
    derived view fields. *)
Theorem recompute_frame (this : Grid) (tile : Tile) :
  let tile' := recomputeTileDerivedFields this tile in
  (index tile' = index tile /\
   label tile' = label tile /\
   aggregateFieldApiName tile' = aggregateFieldApiName tile /\
   initialAggregationType tile' = initialAggregationType tile /\
   filterCondition tile' = filterCondition tile /\
   decimalPlaces tile' = decimalPlaces tile /\
   isLoading tile' = isLoading tile /\
   error tile' = error tile /\
   value tile' = value tile /\
   recordCount tile' = recordCount tile /\
   isCurrency tile' = isCurrency tile /\
   isPercent tile' = isPercent tile /\
   isDate tile' = isDate tile /\
   fieldLabel tile' = fieldLabel tile /\
   isAggregationMenuOpen tile' = isAggregationMenuOpen tile) /\
  (aggregateType tile' =
     js_or (normalizeAggTypeValue
              (js_or (js_or (aggregateType tile) (initialAggregationType tile))
                     (JString "SUM")))
           (JString "SUM") /\
   fieldCategory tile' = resolveFieldCategory tile) /\
  (displayValue tile' = computeDisplayValue tile /\
   hasRecordCount tile' = computeHasRecordCount tile /\
   summaryRecordLabel tile' = computeSummaryRecordLabel this tile /\
   summaryLabel tile' = computeSummaryLabel this tile /\
   aggregationMenuOptions tile' = computeAggregationMenuOptions tile /\
   gearMenuClass tile' = computeGearMenuClass tile).
Proof.
  intros tile'. subst tile'. unfold recomputeTileDerivedFields.
  cbn [index label aggregateFieldApiName initialAggregationType filterCondition
       decimalPlaces isLoading error value recordCount isCurrency isPercent
       isDate fieldLabel isAggregationMenuOpen aggregateType fieldCategory
       displayValue hasRecordCount summaryRecordLabel summaryLabel
       aggregationMenuOptions gearMenuClass].
  unfold currentAggregateType.
  repeat split.
Qed.

(** The derived fields do not depend on what the input tile held in its
    derived fields. *)
Lemma recompute_ignores_derived this t d1 d2 d3 d4 d5 d6 :
  recomputeTileDerivedFields this
    (mkTile (index t) (label t) (aggregateFieldApiName t)
       (initialAggregationType t) (filterCondition t) (decimalPlaces t)
       (fieldCategory t) (aggregateType t) (isLoading t) (error t) (value t)
       (recordCount t) (isCurrency t) (isPercent t) (isDate t) (fieldLabel t)
       (isAggregationMenuOpen t) d1 d2 d3 d4 d5 d6) =
  recomputeTileDerivedFields this t.
Proof. destruct t; reflexivity. Qed.

Lemma numeric_types_spec v :
  includes NUMERIC_TYPES v = true <->
  v = JString "SUM" \/ v = JString "AVERAGE" \/ v = JString "MAX" \/
  v = JString "MIN" \/ v = JString "COUNT" \/ v = JString "COUNT_DISTINCT".
Proof.
  rewrite includes_spec. unfold NUMERIC_TYPES. split.
  - intros (k & Hin & ->). simpl in Hin.
    destruct Hin as [<- | [<- | [<- | [<- | [<- | [<- | []]]]]]]; tauto.
  - intros H.
    destruct H as [-> | [-> | [-> | [-> | [-> | ->]]]]];
      eexists; (split; [|reflexivity]); simpl; tauto.
Qed.

Lemma isDateAggregate_spec tile :
  isDateAggregate tile = true <->
  isDate tile = true /\
  (currentAggregateType tile = JString "MIN" \/
   currentAggregateType tile = JString "MAX").
Proof.
  unfold isDateAggregate.
  rewrite andb_true_iff, orb_true_iff, !strict_eq_string_r. tauto.
Qed.

Lemma displayValue_recompute this tile :
  displayValue (recomputeTileDerivedFields this tile) =
  if is_nullish (value tile) || strict_eq (value tile) (JString EmptyString)
  then JString "-"
  else if isNumericAggregate tile then formatNumericValue tile
  else value tile.
Proof. reflexivity. Qed.

(** C5: the aggregate type of a tile is numeric for display exactly when
    it is one of SUM, AVERAGE, MAX, MIN, COUNT, COUNT_DISTINCT and the
    tile is not a date-flagged MIN or MAX.  A numeric tile shows what the
    numeric branch (parse, format, wrap) yields; a date-flagged MIN or MAX
    tile is not numeric and shows the raw value, with no parsing, grouping
    or wrapping.  (In both cases "-" stands for a value that is null,
    undefined or empty.) *)
Theorem numeric_aggregate_date_exception (this : Grid) (tile : Tile) :
  let aggType := currentAggregateType tile in
  let shown := displayValue (recomputeTileDerivedFields this tile) in
  let absent :=
    is_nullish (value tile) || strict_eq (value tile) (JString EmptyString) in
  let dateMinMax :=
    isDate tile = true /\ (aggType = JString "MIN" \/ aggType = JString "MAX") in
  (isNumericAggregate tile = true <->
     (aggType = JString "SUM" \/ aggType = JString "AVERAGE" \/
      aggType = JString "MAX" \/ aggType = JString "MIN" \/
      aggType = JString "COUNT" \/ aggType = JString "COUNT_DISTINCT") /\
     ~ dateMinMax) /\
  (isNumericAggregate tile = true ->
     shown = if absent then JString "-" else formatNumericValue tile) /\
  (dateMinMax ->
     isNumericAggregate tile = false /\
     shown = if absent then JString "-" else value tile).
Proof.
  intros aggType shown absent dateMinMax.
  assert (Hnum : isNumericAggregate tile = true <->
     (aggType = JString "SUM" \/ aggType = JString "AVERAGE" \/
      aggType = JString "MAX" \/ aggType = JString "MIN" \/
      aggType = JString "COUNT" \/ aggType = JString "COUNT_DISTINCT") /\
     ~ dateMinMax).
  { unfold isNumericAggregate. rewrite andb_true_iff, negb_true_iff.
    rewrite numeric_types_spec. fold aggType.
    rewrite <- not_true_iff_false, isDateAggregate_spec. reflexivity. }
  split; [exact Hnum|]. split.
  - intros Hn. unfold shown, absent.
    rewrite displayValue_recompute, Hn. reflexivity.
  - intros Hd.
    assert (Hf : isNumericAggregate tile = false).
    { apply not_true_iff_false. intros Hn. apply Hnum in Hn. tauto. }
    split; [exact Hf|]. unfold shown, absent.
    rewrite displayValue_recompute, Hf. reflexivity.
Qed.

(** A MAX tile over a date field shows the date as it came; the same
    value under SUM would go through the numeric branch. *)
Lemma date_maximum_sample :
  let tile :=
    withLoadState
      (withAggregateType (buildInitialTileConfig sampleGrid 1) (JString "MAX"))
      false JNull (JString "2024-05-01") (JNumber (of_Z 3)) false false true
      JNull in
  isNumericAggregate tile = false /\
  displayValue (recomputeTileDerivedFields sampleGrid tile) = JString "2024-05-01" /\
  formatNumericValue tile = JString "2,024".
Proof.
  intros tile.
  destruct (numeric_aggregate_date_exception sampleGrid tile) as (_ & _ & Hdate).
  destruct Hdate as [Hf Hshown]; [split; [reflexivity | right; reflexivity]|].
  split; [exact Hf|]. split; [exact Hshown | reflexivity].
Defined.

(** ** The display value of a settled tile *)

Lemma currentAggregateType_withLoadState tile l e v r c p d f :
  currentAggregateType (withLoadState tile l e v r c p d f) =
  currentAggregateType tile.
Proof. reflexivity. Qed.

(** A successful settlement of a numeric tile: the value is parsed,
    formatted with the tile's fraction digits and wrapped. *)
Lemma settled_numeric_display this tile data num digits :
  truthy (Response.errorMessage data) = false ->
  Response.value data <> JUndefined ->
  Response.value data <> JNull ->
  Response.value data <> JString EmptyString ->
  includes NUMERIC_TYPES (currentAggregateType tile) = true ->
  (truthy (Response.isDate data) = true ->
   currentAggregateType tile <> JString "MIN" /\
   currentAggregateType tile <> JString "MAX") ->
  parseFloat (Response.value data) = num ->
  isNaN num = false ->
  NumberFormat_maxFrac (fractionDigits tile) = Some digits ->
  displayValue (settledTile this (Resolved (Some data)) tile) =
  JString (wrapFormatted (truthy (Response.isCurrency data))
             (truthy (Response.isPercent data))
             (NumberFormat_format digits num)).
Proof.
  intros He Hv1 Hv2 Hv3 Hnum Hdate Hparse Hnan Hdigits.
  unfold settledTile. rewrite He.
  cbn [recomputeTileDerivedFields displayValue]. unfold computeDisplayValue.
  cbn [withLoadState value].
  assert (Hp : is_nullish (Response.value data) ||
               strict_eq (Response.value data) (JString EmptyString) = false)
    by (apply value_present_spec; auto).
  rewrite Hp.
  assert (Hn : isNumericAggregate
                 (withLoadState tile false JNull (Response.value data)
                    (Response.recordCount data)
                    (truthy (Response.isCurrency data))
                    (truthy (Response.isPercent data))
                    (truthy (Response.isDate data))
                    (Response.fieldLabel data)) = true).
  { unfold isNumericAggregate.
    rewrite currentAggregateType_withLoadState, Hnum. cbn [andb].
    apply negb_true_iff, not_true_iff_false. intros Hd.
    apply isDateAggregate_spec in Hd.
    rewrite currentAggregateType_withLoadState in Hd. cbn [isDate withLoadState] in Hd.
    destruct Hd as [Hd1 Hd2]. destruct (Hdate Hd1). tauto. }
  rewrite Hn. unfold formatNumericValue.
  cbn [withLoadState value isCurrency isPercent].
  rewrite Hparse, Hnan.
  change (fractionDigits (withLoadState tile false JNull (Response.value data)
                    (Response.recordCount data)
                    (truthy (Response.isCurrency data))
                    (truthy (Response.isPercent data))
                    (truthy (Response.isDate data))
                    (Response.fieldLabel data))) with (fractionDigits tile).
  rewrite Hdigits. unfold wrapFormatted.
  destruct (truthy (Response.isCurrency data)); [reflexivity|].
  destruct (truthy (Response.isPercent data)); reflexivity.
Qed.

(** C1, as the code has it: when the load of a numeric tile settles
    successfully with value 1234.5 and isCurrency true, and the tile's
    decimalPlaces is 2, the display value is "$1,234.5": the value is
    parsed as a float, grouped, rounded to at most 2 fraction digits
    (with no padding zeros, the minimum being 0) and prefixed with "$".
    In general the formatted number is prefixed with "$" when isCurrency,
    else suffixed with "%" when isPercent, never both. *)
Theorem currency_display_at_most_two_decimals :
  (forall this tile data,
     truthy (Response.errorMessage data) = false ->
     Response.value data = JNumber (Finite 12345 1) ->
     truthy (Response.isCurrency data) = true ->
     decimalPlaces tile = JNumber (of_Z 2) ->
     includes NUMERIC_TYPES (currentAggregateType tile) = true ->
     truthy (Response.isDate data) = false ->
     displayValue (settledTile this (Resolved (Some data)) tile) =
     JString "$1,234.5") /\
  (forall this tile data num digits,
     truthy (Response.errorMessage data) = false ->
     Response.value data <> JUndefined ->
     Response.value data <> JNull ->
     Response.value data <> JString EmptyString ->
     includes NUMERIC_TYPES (currentAggregateType tile) = true ->
     truthy (Response.isDate data) = false ->
     parseFloat (Response.value data) = num ->
     isNaN num = false ->
     NumberFormat_maxFrac (fractionDigits tile) = Some digits ->
     displayValue (settledTile this (Resolved (Some data)) tile) =
     JString
       (if truthy (Response.isCurrency data)
        then "$" ++ NumberFormat_format digits num
        else if truthy (Response.isPercent data)
        then NumberFormat_format digits num ++ "%"
        else NumberFormat_format digits num)).
Proof.
  split.
  - intros this tile data He Hv Hc Hd Hnum Hdate.
    rewrite (settled_numeric_display this tile data (Finite 12345 1) 2%nat);
      try (rewrite Hv; discriminate); auto.
    + now rewrite Hc.
    + rewrite Hdate. discriminate.
    + now rewrite Hv.
    + unfold fractionDigits. now rewrite Hd.
  - intros this tile data num digits He Hv1 Hv2 Hv3 Hnum Hdate Hparse Hnan Hdigits.
    rewrite (settled_numeric_display this tile data num digits); auto.
    rewrite Hdate. discriminate.
Qed.

Lemma currency_display_sample :
  displayValue
    (settledTile sampleGrid (Resolved (Some currencyResponse))
       (buildInitialTileConfig sampleGrid 1)) = JString "$1,234.5".
Proof.
  destruct currency_display_at_most_two_decimals as [H _].
  apply H; reflexivity.
Defined.

(** C1, as stated, fails: tile 1 of the sample grid settles with value
    1234.5, isCurrency true and decimalPlaces 2, and displays "$1,234.5",
    not "$1,234.50". *)
Lemma scenario_C_display_is_not_padded :
  exists t,
    In t (tiles (fst (loadTile_settle sampleGrid (of_Z 1)
                        (Resolved (Some currencyResponse)) emptyEnv))) /\
    index t = 1 /\
    value t = JNumber (Finite 12345 1) /\
    isCurrency t = true /\
    decimalPlaces t = JNumber (of_Z 2) /\
    error t = JNull /\
    displayValue t = JString "$1,234.5" /\
    displayValue t <> JString "$1,234.50".
Proof.
  eexists. split; [left; reflexivity|].
  repeat split; try reflexivity. discriminate.
Qed.

(** ** Loading: preconditions, request, settlement *)

Lemma append_cons c (s t : string) : (String c s ++ t = String c (s ++ t))%string.
Proof. reflexivity. Qed.

Lemma append_assoc_s (a b c : string) : ((a ++ b) ++ c = a ++ (b ++ c))%string.
Proof.
  induction a as [|x a IH]; [reflexivity|].
  now rewrite !append_cons, IH.
Qed.

Lemma contains_prefix sub post : contains (sub ++ post) sub.
Proof. exists EmptyString, post. reflexivity. Qed.

Lemma contains_append_l pre s sub : contains s sub -> contains (pre ++ s) sub.
Proof.
  intros (a & b & ->). exists (pre ++ a)%string, b.
  now rewrite append_assoc_s.
Qed.

Lemma contains_append_r s post sub : contains s sub -> contains (s ++ post) sub.
Proof.
  intros (a & b & ->). exists a, (b ++ post)%string.
  now rewrite !append_assoc_s.
Qed.

Lemma contains_refl s : contains s s.
Proof.
  exists EmptyString, EmptyString. change (s = s ++ EmptyString)%string.
  induction s as [|c s IH]; [reflexivity | now rewrite append_cons, <- IH].
Qed.

Lemma join_contains_head sep x rest : contains (join sep (x :: rest)) x.
Proof.
  destruct rest as [|y rest]; cbn [join].
  - apply contains_refl.
  - apply contains_prefix.
Qed.

Lemma tiles_clearTileTimeout this idx env :
  tiles (fst (clearTileTimeout this idx env)) = tiles this.
Proof.
  unfold clearTileTimeout.
  destruct (_tileTimeouts this !! timeoutKey idx); reflexivity.
Qed.

Lemma requests_clearTileTimeout this idx env :
  requests (snd (clearTileTimeout this idx env)) = requests env.
Proof.
  unfold clearTileTimeout.
  destruct (_tileTimeouts this !! timeoutKey idx); reflexivity.
Qed.

Lemma globalConfigError_truthy this :
  truthy (globalConfigError this) = true <-> missingProperties this <> [].
Proof.
  unfold globalConfigError.
  destruct (missingProperties this); simpl; split; congruence.
Qed.

Lemma globalConfigError_falsy this :
  truthy (globalConfigError this) = false <-> globalConfigError this = JNull.
Proof.
  unfold globalConfigError.
  destruct (missingProperties this); simpl; split; congruence.
Qed.

(** Which configurations are incomplete. *)
Lemma missingProperties_spec this :
  missingProperties this <> [] <->
  truthy (childObjectApiName this) = false \/
  truthy (relationshipFieldApiName this) = false \/
  (truthy (js_or (trimmed_if_set (grandchildObjectApiName this))
                 (trimmed_if_set (grandchildRelationshipFieldApiName this))) = true /\
   (truthy (grandchildObjectApiName this) = false \/
    truthy (grandchildRelationshipFieldApiName this) = false)).
Proof.
  unfold missingProperties.
  destruct (truthy (childObjectApiName this));
  destruct (truthy (relationshipFieldApiName this));
  destruct (truthy (js_or _ _));
  destruct (truthy (grandchildObjectApiName this));
  destruct (truthy (grandchildRelationshipFieldApiName this));
  simpl; split; intros H; try congruence; try tauto;
  try (exfalso; intuition congruence).
Qed.

Lemma globalConfigError_names_child_object this :
  truthy (childObjectApiName this) = false ->
  exists msg, globalConfigError this = JString msg /\ contains msg "Child Object".
Proof.
  intros Hc. unfold globalConfigError.
  assert (Hm : exists rest, missingProperties this = "Child Object" :: rest).
  { unfold missingProperties. rewrite Hc. simpl. eauto. }
  destruct Hm as [rest ->].
  eexists. split; [reflexivity|].
  apply contains_append_l, contains_append_r, join_contains_head.
Qed.

Lemma tileConfigMessage_names_tile idx :
  contains (tileConfigMessage idx) ("Tile " ++ number_toString idx) /\
  contains (tileConfigMessage idx) "Aggregate Field".
Proof.
  unfold tileConfigMessage. split.
  - exists EmptyString. eexists.
    change (EmptyString ++ ?x)%string with x.
    rewrite append_assoc_s. reflexivity.
  - do 6 apply contains_append_l.
    change " Aggregate Field"%string with (" " ++ "Aggregate Field")%string.
    rewrite append_assoc_s.
    apply contains_append_l, contains_prefix.
Qed.

(** The precondition checks of [loadTile], with the configuration test as
    [globalConfigError] makes it.  [loadTile] checks its preconditions in
    order and stops at the first that fails, leaving the environment (so
    the list of service calls) as it was.  First, when the shared
    configuration is incomplete (no child object, no relationship field,
    or a grandchild property that is not blank and one of the two empty
    or absent), the tiles with the index take the global
    configuration message as their error and stop loading; the message
    contains "Child Object" when the child object is missing.  Otherwise,
    when the tile has no aggregate field, they take the per-tile message,
    which contains "Tile <index>" and "Aggregate Field" ("Tile 3" for tile
    3). *)
Theorem loadTile_precondition_errors :
  (forall this idx env,
     truthy (globalConfigError this) = true ->
     loadTile_begin this idx env =
       Returned
         (updateTile this idx (fun tile =>
            recomputeTileDerivedFields this
              (withClearedResult tile false (globalConfigError this))))
         env /\
     forall tile,
       let tile' := recomputeTileDerivedFields this
                      (withClearedResult tile false (globalConfigError this)) in
       error tile' = globalConfigError this /\ isLoading tile' = false /\
       index tile' = index tile) /\
  (forall this,
     truthy (globalConfigError this) = true <->
     truthy (childObjectApiName this) = false \/
     truthy (relationshipFieldApiName this) = false \/
     (truthy (js_or (trimmed_if_set (grandchildObjectApiName this))
                    (trimmed_if_set (grandchildRelationshipFieldApiName this))) = true /\
      (truthy (grandchildObjectApiName this) = false \/
       truthy (grandchildRelationshipFieldApiName this) = false))) /\
  (forall this,
     truthy (childObjectApiName this) = false ->
     exists msg, globalConfigError this = JString msg /\
                 contains msg "Child Object") /\
  (forall this idx env currentTile,
     truthy (globalConfigError this) = false ->
     findTile this idx = Some currentTile ->
     truthy (aggregateFieldApiName currentTile) = false ->
     loadTile_begin this idx env =
       Returned
         (updateTile this idx (fun tile =>
            recomputeTileDerivedFields this
              (withClearedResult tile false (JString (tileConfigMessage idx)))))
         env /\
     forall tile,
       let tile' := recomputeTileDerivedFields this
                      (withClearedResult tile false
                         (JString (tileConfigMessage idx))) in
       error tile' = JString (tileConfigMessage idx) /\ isLoading tile' = false /\
       index tile' = index tile) /\
  (forall idx,
     contains (tileConfigMessage idx) ("Tile " ++ number_toString idx) /\
     contains (tileConfigMessage idx) "Aggregate Field") /\
  (contains (tileConfigMessage (of_Z 3)) "Tile 3" /\
   contains (tileConfigMessage (of_Z 3)) "Aggregate Field").
Proof.
  split; [|split; [|split; [|split; [|split]]]].
  - intros this idx env Hg. split.
    + unfold loadTile_begin. now rewrite Hg.
    + intros tile. cbn. auto.
  - intros this. rewrite globalConfigError_truthy. apply missingProperties_spec.
  - apply globalConfigError_names_child_object.
  - intros this idx env cur Hg Hfind Hfield. split.
    + unfold loadTile_begin. now rewrite Hg, Hfind, Hfield.
    + intros tile. cbn. auto.
  - apply tileConfigMessage_names_tile.
  - apply (tileConfigMessage_names_tile (of_Z 3)).
Qed.

(** Scenarios A and B on the sample grids. *)
Lemma loadTile_precondition_scenarios :
  (exists this' msg,
     loadTile_begin unconfiguredGrid (of_Z 1) emptyEnv = Returned this' emptyEnv /\
     List.map error (tiles this') = [JString msg; JNull; JNull] /\
     contains msg "Child Object") /\
  (exists this',
     loadTile_begin sampleGrid (of_Z 3) emptyEnv = Returned this' emptyEnv /\
     List.map error (tiles this') =
       [JNull; JNull; JString (tileConfigMessage (of_Z 3))]).
Proof.
  destruct loadTile_precondition_errors as (Ha & _ & Hc & Hb & _).
  split.
  - destruct (Hc unconfiguredGrid eq_refl) as (msg & Hmsg & Hcontains).
    destruct (Ha unconfiguredGrid (of_Z 1) emptyEnv eq_refl) as [Hload _].
    eexists. exists msg. split; [exact Hload|]. split; [|exact Hcontains].
    rewrite Hmsg. reflexivity.
  - destruct (Hb sampleGrid (of_Z 3) emptyEnv (buildInitialTileConfig sampleGrid 3)
                eq_refl eq_refl eq_refl) as [Hload _].
    eexists. split; [exact Hload | reflexivity].
Defined.

Lemma hasIndex_recompute this idx tile :
  hasIndex idx (recomputeTileDerivedFields this tile) = hasIndex idx tile.
Proof. reflexivity. Qed.

Lemma find_update (p : Tile -> bool) (f : Tile -> Tile) (l : list Tile) :
  (forall t, p (f t) = p t) ->
  List.find p (List.map (fun t => if p t then f t else t) l) =
  option_map f (List.find p l).
Proof.
  intros Hp. induction l as [|t l IH]; [reflexivity|].
  cbn [List.map List.find]. destruct (p t) eqn:E.
  - now rewrite Hp, E.
  - now rewrite E.
Qed.

Lemma currentAggregateType_truthy tile : truthy (currentAggregateType tile) = true.
Proof.
  unfold currentAggregateType, js_or at 1.
  destruct (truthy (normalizeAggTypeValue _)) eqn:E; [exact E | reflexivity].
Qed.

Lemma js_or_truthy a b : truthy a = true -> js_or a b = a.
Proof. unfold js_or. now intros ->. Qed.

Lemma js_or_falsy a b : truthy a = false -> js_or a b = b.
Proof. unfold js_or. now intros ->. Qed.

Lemma normalized_or_sum_fixpoint raw :
  js_or (normalizeAggTypeValue (js_or (normalizeAggTypeValue raw) (JString "SUM")))
        (JString "SUM") =
  js_or (normalizeAggTypeValue raw) (JString "SUM").
Proof.
  destruct (truthy (normalizeAggTypeValue raw)) eqn:E.
  - rewrite (js_or_truthy (normalizeAggTypeValue raw)) by exact E.
    rewrite normalizeAggTypeValue_idem. now rewrite js_or_truthy.
  - rewrite (js_or_falsy (normalizeAggTypeValue raw)) by exact E. reflexivity.
Qed.

(** Recomputing a recomputed tile keeps its aggregate type. *)
Lemma currentAggregateType_idem this tile :
  currentAggregateType (recomputeTileDerivedFields this tile) =
  currentAggregateType tile.
Proof.
  unfold currentAggregateType at 1.
  cbn [recomputeTileDerivedFields aggregateType initialAggregationType].
  rewrite (js_or_truthy (currentAggregateType tile)) by apply currentAggregateType_truthy.
  rewrite (js_or_truthy (currentAggregateType tile)) by apply currentAggregateType_truthy.
  unfold currentAggregateType. apply normalized_or_sum_fixpoint.
Qed.

(** What [loadTile] sends when it reaches the service call: the request
    is built from the first tile with the index, it carries that tile's
    aggregate type (COUNT stays COUNT), filter condition and field, and
    the grandchild identifiers exactly in grandchild mode, [null]
    otherwise. *)
Lemma loadTile_request_passthrough this idx env this' env' :
  loadTile_begin this idx env = Awaiting this' env' ->
  exists currentTile req,
    findTile this idx = Some currentTile /\
    requests env' = (requests env ++ [req])%list /\
    Request.aggregateType req = currentAggregateType currentTile /\
    (aggregateType currentTile = currentAggregateType currentTile ->
     Request.aggregateType req = aggregateType currentTile) /\
    (aggregateType currentTile = JString "COUNT" ->
     Request.aggregateType req = JString "COUNT") /\
    Request.filterCondition req = filterCondition currentTile /\
    Request.aggregateFieldApiName req = aggregateFieldApiName currentTile /\
    Request.parentId req = recordId this /\
    Request.childObjectApiName req = childObjectApiName this /\
    Request.relationshipFieldApiName req = relationshipFieldApiName this /\
    (isGrandchildMode this = true ->
     Request.grandchildObjectApiName req = grandchildObjectApiName this /\
     Request.grandchildRelationshipFieldApiName req =
       grandchildRelationshipFieldApiName this) /\
    (isGrandchildMode this = false ->
     Request.grandchildObjectApiName req = JNull /\
     Request.grandchildRelationshipFieldApiName req = JNull).
Proof.
  unfold loadTile_begin.
  destruct (truthy (globalConfigError this)); [discriminate|].
  destruct (findTile this idx) as [cur|] eqn:Hfind; [|discriminate].
  destruct (negb (truthy (aggregateFieldApiName cur))); [discriminate|].
  destruct (clearTileTimeout this idx env) as [this1 env1] eqn:Hclear.
  destruct (setTimeout env1) as [id env2] eqn:Htimer.
  assert (Htiles1 : tiles this1 = tiles this).
  { pose proof (tiles_clearTileTimeout this idx env) as H. now rewrite Hclear in H. }
  assert (Hreq1 : requests env1 = requests env).
  { pose proof (requests_clearTileTimeout this idx env) as H. now rewrite Hclear in H. }
  assert (Hreq2 : requests env2 = requests env1).
  { unfold setTimeout in Htimer. injection Htimer as _ <-. reflexivity. }
  assert (Hcfg : recordId this1 = recordId this /\
                 childObjectApiName this1 = childObjectApiName this /\
                 relationshipFieldApiName this1 = relationshipFieldApiName this /\
                 grandchildObjectApiName this1 = grandchildObjectApiName this /\
                 grandchildRelationshipFieldApiName this1 =
                   grandchildRelationshipFieldApiName this).
  { unfold clearTileTimeout in Hclear.
    destruct (_tileTimeouts this !! timeoutKey idx);
      injection Hclear as <- _; repeat split. }
  destruct Hcfg as (Hc1 & Hc2 & Hc3 & Hc4 & Hc5).
  match goal with
  | |- context [findTile ?g idx] => set (this3 := g)
  end.
  set (tileAfterReset :=
         recomputeTileDerivedFields this1 (withClearedResult cur true JNull)).
  assert (Hfind3 : findTile this3 idx = Some tileAfterReset).
  { unfold findTile, this3, updateTile. cbn [tiles set_tileTimeouts set_tiles].
    rewrite find_update by reflexivity.
    rewrite Htiles1. unfold findTile in Hfind. now rewrite Hfind. }
  rewrite Hfind3. intros [= <- <-].
  exists cur, (rollupRequest this3 tileAfterReset).
  split; [reflexivity|].
  split; [cbn [getRollup requests]; now rewrite Hreq2, Hreq1|].
  assert (Hagg : Request.aggregateType (rollupRequest this3 tileAfterReset) =
                 currentAggregateType cur).
  { unfold tileAfterReset.
    cbn [rollupRequest Request.aggregateType recomputeTileDerivedFields
         aggregateType initialAggregationType].
    change (currentAggregateType (withClearedResult cur true JNull))
      with (currentAggregateType cur).
    rewrite (js_or_truthy (currentAggregateType cur)) by apply currentAggregateType_truthy.
    rewrite (js_or_truthy (currentAggregateType cur)) by apply currentAggregateType_truthy.
    reflexivity. }
  split; [exact Hagg|].
  split; [intros Hcanon; now rewrite Hagg|].
  split; [intros Hcount; rewrite Hagg; unfold currentAggregateType;
          rewrite Hcount; reflexivity|].
  assert (Hmode : isGrandchildMode this3 = isGrandchildMode this).
  { unfold isGrandchildMode, this3.
    cbn [set_tileTimeouts updateTile set_tiles grandchildObjectApiName
         grandchildRelationshipFieldApiName].
    now rewrite Hc4, Hc5. }
  cbn [rollupRequest Request.filterCondition Request.aggregateFieldApiName
       Request.parentId Request.childObjectApiName
       Request.relationshipFieldApiName Request.grandchildObjectApiName
       Request.grandchildRelationshipFieldApiName].
  rewrite Hmode.
  unfold this3, tileAfterReset.
  cbn [set_tileTimeouts updateTile set_tiles recordId childObjectApiName
       relationshipFieldApiName grandchildObjectApiName
       grandchildRelationshipFieldApiName
       recomputeTileDerivedFields withClearedResult withLoadState
       filterCondition aggregateFieldApiName].
  rewrite Hc1, Hc2, Hc3, Hc4, Hc5.
  do 5 (split; [reflexivity|]).
  split; intros Hm; rewrite Hm; split; reflexivity.
Qed.

(** The sample grid loads tile 2, a COUNT tile with a filter. *)
Example loadTile_request_sample :
  exists this' env',
    loadTile_begin sampleGrid (of_Z 2) emptyEnv = Awaiting this' env' /\
    requests env' =
      [ Request.mk (JString "001A") (JString "Project__c") (JString "Account__c")
          (JString "Id") (JString "COUNT") (JString "Status__c = 'Open'")
          JNull JNull ].
Proof. eexists _, _. split; reflexivity. Qed.

(** C3 on the earlier copy of the component: a tile whose selected
    aggregation type is COUNT is requested as "COUNT()", and the
    grandchild parameters are not passed at all, where the current
    [loadTile] sends COUNT as it is. *)
Theorem legacy_request_rewrites_count this tile :
  aggregateType tile = JString "COUNT" ->
  Request.aggregateType (Legacy.rollupRequest this tile) = JString "COUNT()" /\
  Request.aggregateType (Legacy.rollupRequest this tile) <> aggregateType tile /\
  Request.grandchildObjectApiName (Legacy.rollupRequest this tile) = JUndefined /\
  Request.grandchildRelationshipFieldApiName (Legacy.rollupRequest this tile)
    = JUndefined /\
  Request.aggregateType (rollupRequest this tile) = JString "COUNT".
Proof.
  intros H.
  cbn [Legacy.rollupRequest rollupRequest Request.aggregateType
       Request.grandchildObjectApiName Request.grandchildRelationshipFieldApiName].
  rewrite H. repeat split; try reflexivity. discriminate.
Qed.

Lemma legacy_request_count_sample :
  let tile := buildInitialTileConfig sampleGrid 2 in
  aggregateType tile = JString "COUNT" /\
  Request.aggregateType (Legacy.rollupRequest sampleGrid tile) = JString "COUNT()" /\
  Request.aggregateType (rollupRequest sampleGrid tile) = JString "COUNT".
Proof.
  assert (H : aggregateType (buildInitialTileConfig sampleGrid 2) = JString "COUNT")
    by reflexivity.
  destruct (legacy_request_rewrites_count sampleGrid _ H) as (H1 & _ & _ & _ & H2).
  split; [exact H|]. split; [exact H1 | exact H2].
Defined.

(** C4: when the service resolves with a response that carries an error
    message, the tiles with the index stop loading with that message as
    their error, take the response's recordCount and fieldLabel and its
    isCurrency, isPercent and isDate flags (as booleans), and hold no
    value, so that the display value is "-". *)
Theorem business_error_adopts_metadata this idx data env :
  truthy (Response.errorMessage data) = true ->
  tiles (fst (loadTile_settle this idx (Resolved (Some data)) env)) =
    List.map
      (fun tile => if hasIndex idx tile
                   then settledTile this (Resolved (Some data)) tile else tile)
      (tiles this) /\
  forall tile,
    let tile' := settledTile this (Resolved (Some data)) tile in
    index tile' = index tile /\
    isLoading tile' = false /\
    error tile' = Response.errorMessage data /\
    recordCount tile' = Response.recordCount data /\
    isCurrency tile' = truthy (Response.isCurrency data) /\
    isPercent tile' = truthy (Response.isPercent data) /\
    isDate tile' = truthy (Response.isDate data) /\
    fieldLabel tile' = Response.fieldLabel data /\
    value tile' = JUndefined /\
    displayValue tile' = JString "-" /\
    hasRecordCount tile' = negb (is_nullish (Response.recordCount data)).
Proof.
  intros He. split.
  - unfold loadTile_settle. rewrite tiles_clearTileTimeout. reflexivity.
  - intros tile tile'. subst tile'. unfold settledTile. rewrite He.
    cbn [recomputeTileDerivedFields withLoadState index isLoading error
         recordCount isCurrency isPercent isDate fieldLabel value displayValue
         hasRecordCount].
    repeat split.
Qed.

Lemma business_error_sample :
  List.map (fun t => (error t, recordCount t, isCurrency t, fieldLabel t,
                      displayValue t, summaryRecordLabel t))
    (tiles (fst (loadTile_settle sampleGrid (of_Z 1)
                   (Resolved (Some businessErrorResponse)) emptyEnv))) =
  [ (JString "Invalid field: Amount__c", JNumber (of_Z 7), true,
     JString "Amount", JString "-", JString "7 Project records");
    (JNull, JNull, false, JNull, JString "-", JNull);
    (JNull, JNull, false, JNull, JString "-", JNull) ].
Proof.
  destruct (business_error_adopts_metadata sampleGrid (of_Z 1)
              businessErrorResponse emptyEnv eq_refl) as [-> _].
  reflexivity.
Defined.

(** ** A grandchild property that holds blanks only *)

(** [loadTile] on a complete configuration and a tile with a field. *)
Lemma loadTile_begin_ready this idx env cur :
  truthy (globalConfigError this) = false ->
  findTile this idx = Some cur ->
  truthy (aggregateFieldApiName cur) = true ->
  loadTile_begin this idx env =
    let this1 := fst (clearTileTimeout this idx env) in
    let env1 := snd (clearTileTimeout this idx env) in
    let this2 :=
      updateTile this1 idx (fun tile =>
        recomputeTileDerivedFields this1 (withClearedResult tile true JNull)) in
    let this3 :=
      set_tileTimeouts this2
        (<[ timeoutKey idx := nextTimer env1 ]> (_tileTimeouts this2)) in
    Awaiting this3
      (getRollup
         (rollupRequest this3
            (recomputeTileDerivedFields this1 (withClearedResult cur true JNull)))
         (snd (setTimeout env1))).
Proof.
  intros Hg Hfind Hfield. unfold loadTile_begin.
  rewrite Hg, Hfind, Hfield. cbn [negb].
  pose proof (tiles_clearTileTimeout this idx env) as Htiles.
  destruct (clearTileTimeout this idx env) as [this1 env1]. cbn [fst snd] in *.
  unfold setTimeout at 1. cbn zeta.
  match goal with
  | |- context [findTile ?g idx] =>
      assert (Hfind3 : findTile g idx =
                Some (recomputeTileDerivedFields this1
                        (withClearedResult cur true JNull)))
  end.
  { unfold findTile, updateTile. cbn [tiles set_tileTimeouts set_tiles].
    rewrite find_update by reflexivity.
    rewrite Htiles. unfold findTile in Hfind. now rewrite Hfind. }
  rewrite Hfind3. reflexivity.
Qed.

(** A property that is set: [x && x.toString().trim()] is truthy. *)
Lemma trimmed_if_set_string s :
  trimmed_if_set (JString s) =
  if is_empty s then JString s else JString (trim s).
Proof. unfold trimmed_if_set, js_and. now destruct s. Qed.

Lemma truthy_string s : truthy (JString s) = negb (is_empty s).
Proof. now destruct s. Qed.

Lemma trim_empty_string : trim EmptyString = EmptyString.
Proof. reflexivity. Qed.

(** The grandchild properties as [isGrandchildMode] and the request see
    them do not depend on the tiles and timeouts. *)
Lemma isGrandchildMode_config this this' :
  grandchildObjectApiName this' = grandchildObjectApiName this ->
  grandchildRelationshipFieldApiName this' = grandchildRelationshipFieldApiName this ->
  isGrandchildMode this' = isGrandchildMode this.
Proof. intros Ho Hr. unfold isGrandchildMode. now rewrite Ho, Hr. Qed.

(** C2: a grandchild pair of which one property is set and the other
    holds only white space is let through by the configuration check.
    On a grid with a child object and a relationship field,
    [globalConfigError] is [null] although [isGrandchildMode] is false:
    [loadTile] of a tile with an aggregate field sets no error and calls
    the service, with [null] for both grandchild parameters. *)
Theorem blank_grandchild_property_passes_config_check
    this idx env currentTile set blank :
  truthy (childObjectApiName this) = true ->
  truthy (relationshipFieldApiName this) = true ->
  is_empty (trim set) = false ->
  is_empty blank = false ->
  is_empty (trim blank) = true ->
  (grandchildObjectApiName this = JString set /\
   grandchildRelationshipFieldApiName this = JString blank) \/
  (grandchildObjectApiName this = JString blank /\
   grandchildRelationshipFieldApiName this = JString set) ->
  findTile this idx = Some currentTile ->
  truthy (aggregateFieldApiName currentTile) = true ->
  globalConfigError this = JNull /\
  isGrandchildMode this = false /\
  exists this' env' request,
    loadTile_begin this idx env = Awaiting this' env' /\
    requests env' = (requests env ++ [request])%list /\
    Request.childObjectApiName request = childObjectApiName this /\
    Request.grandchildObjectApiName request = JNull /\
    Request.grandchildRelationshipFieldApiName request = JNull /\
    forall tile, In tile (tiles this') -> hasIndex idx tile = true ->
      error tile = JNull /\ isLoading tile = true.
Proof.
  intros Hchild Hrel Hset Hblank Hblank' Hpair Hfind Hfield.
  assert (Hset' : is_empty set = false).
  { destruct set; [discriminate Hset | reflexivity]. }
  assert (Hmissing : missingProperties this = []).
  { unfold missingProperties. rewrite Hchild, Hrel.
    destruct Hpair as [[-> ->] | [-> ->]];
      rewrite !trimmed_if_set_string, Hset', Hblank; unfold js_or;
      rewrite !truthy_string, ?Hset, ?Hblank', ?Hset', ?Hblank; cbn [negb];
      rewrite ?truthy_string, ?Hset, ?Hblank', ?Hset', ?Hblank;
      reflexivity. }
  assert (Hnull : globalConfigError this = JNull).
  { unfold globalConfigError. now rewrite Hmissing. }
  assert (Hmode : isGrandchildMode this = false).
  { unfold isGrandchildMode.
    destruct Hpair as [[-> ->] | [-> ->]];
      rewrite !trimmed_if_set_string, Hset', Hblank; unfold js_and;
      rewrite !truthy_string, ?Hset, ?Hblank', ?Hset', ?Hblank; cbn [negb];
      rewrite ?truthy_string, ?Hset, ?Hblank', ?Hset', ?Hblank;
      reflexivity. }
  split; [exact Hnull|]. split; [exact Hmode|].
  assert (Hg : truthy (globalConfigError this) = false) by now rewrite Hnull.
  rewrite (loadTile_begin_ready this idx env currentTile Hg Hfind Hfield).
  cbn zeta.
  eexists _, _, _. split; [reflexivity|].
  split; [cbn [getRollup requests setTimeout snd];
          now rewrite requests_clearTileTimeout|].
  assert (Hkeep : isGrandchildMode
            (set_tileTimeouts
               (updateTile (fst (clearTileTimeout this idx env)) idx
                  (fun tile =>
                     recomputeTileDerivedFields (fst (clearTileTimeout this idx env))
                       (withClearedResult tile true JNull)))
               (<[ timeoutKey idx := nextTimer (snd (clearTileTimeout this idx env)) ]>
                  (_tileTimeouts
                     (updateTile (fst (clearTileTimeout this idx env)) idx
                        (fun tile =>
                           recomputeTileDerivedFields
                             (fst (clearTileTimeout this idx env))
                             (withClearedResult tile true JNull))))))
            = false).
  { rewrite <- Hmode. apply isGrandchildMode_config;
      unfold clearTileTimeout;
      destruct (_tileTimeouts this !! timeoutKey idx); reflexivity. }
  split.
  { cbn [rollupRequest Request.childObjectApiName].
    unfold clearTileTimeout.
    destruct (_tileTimeouts this !! timeoutKey idx); reflexivity. }
  split; [unfold rollupRequest; cbn [Request.grandchildObjectApiName];
          now rewrite Hkeep|].
  split; [unfold rollupRequest;
          cbn [Request.grandchildRelationshipFieldApiName];
          now rewrite Hkeep|].
  intros tile Hin Hidx.
  cbn [tiles set_tileTimeouts updateTile set_tiles] in Hin.
  apply in_map_iff in Hin. destruct Hin as (u & Hu & _).
  destruct (hasIndex idx u) eqn:E.
  - subst tile. split; reflexivity.
  - subst tile. congruence.
Qed.

(** Tile 1 of the grid whose grandchild relationship field is three
    blanks: no configuration error, and the service is called for the
    child object with no grandchild parameters. *)
Lemma blank_grandchild_property_sample :
  globalConfigError blankGrandchildGrid = JNull /\
  isGrandchildMode blankGrandchildGrid = false /\
  exists this' env' request,
    loadTile_begin blankGrandchildGrid (of_Z 1) emptyEnv = Awaiting this' env' /\
    requests env' = [request] /\
    Request.childObjectApiName request = JString "Project__c" /\
    Request.grandchildObjectApiName request = JNull /\
    Request.grandchildRelationshipFieldApiName request = JNull /\
    forall tile, In tile (tiles this') -> hasIndex (of_Z 1) tile = true ->
      error tile = JNull /\ isLoading tile = true.
Proof.
  exact (blank_grandchild_property_passes_config_check
           blankGrandchildGrid (of_Z 1) emptyEnv
           (buildInitialTileConfig blankGrandchildGrid 1) "Task__c" "   "
           eq_refl eq_refl eq_refl eq_refl eq_refl
           (or_introl (conj eq_refl eq_refl)) eq_refl eq_refl).
Defined.

(** ** Layout: clamped dimensions and tile slots *)






Lemma index_buildInitialTileConfig this i :
  index (buildInitialTileConfig this i) = i.
Proof. reflexivity. Qed.

Lemma indices_initializeTilesFromConfig this :
  List.map index (tiles (initializeTilesFromConfig this)) = slotIndices this.
Proof.
  unfold initializeTilesFromConfig. cbn [tiles set_tiles].
  rewrite List.map_map.
  erewrite List.map_ext; [apply List.map_id|].
  intros i. apply index_buildInitialTileConfig.
Qed.



Lemma NoDup_slotIndices this : List.NoDup (slotIndices this).
Proof.
  unfold slotIndices. apply Finite.Injective_map_NoDup.
  - intros a b. apply Nat2Z.inj.
  - apply seq_NoDup.
Qed.



(** ** Tile updates keep slots, canonical types and closed menus *)

Section TileUpdates.

Variable this : Grid.
Implicit Types (t u : Tile) (l : list Tile).

Lemma canonical_recompute tile :
  canonical (recomputeTileDerivedFields this tile).
Proof.
  unfold canonical. rewrite currentAggregateType_idem. reflexivity.
Qed.

Lemma keepsSlot_refl t : keepsSlot t t.
Proof. split; auto. Qed.

Lemma keeps_refl t : keeps t t.
Proof. split; [apply keepsSlot_refl | auto]. Qed.

Lemma keepsSlot_trans a b c : keepsSlot a b -> keepsSlot b c -> keepsSlot a c.
Proof. intros [H1 H2] [H3 H4]. split; [congruence | auto]. Qed.

Lemma keeps_trans a b c : keeps a b -> keeps b c -> keeps a c.
Proof.
  intros [H1 H2] [H3 H4]. split; [eapply keepsSlot_trans; eauto | auto].
Qed.

Lemma keeps_keepsSlot a b : keeps a b -> keepsSlot a b.
Proof. now intros [H _]. Qed.

Lemma keeps_recompute t u :
  index u = index t ->
  (isAggregationMenuOpen u = true -> isAggregationMenuOpen t = true) ->
  keeps t (recomputeTileDerivedFields this u).
Proof.
  intros Hi Ho. split; [split|].
  - exact Hi.
  - intros _. apply canonical_recompute.
  - exact Ho.
Qed.

Lemma keepsSlot_recompute t u :
  index u = index t -> keepsSlot t (recomputeTileDerivedFields this u).
Proof. intros Hi. split; [exact Hi | intros _; apply canonical_recompute]. Qed.

Lemma keeps_settledTile outcome t : keeps t (settledTile this outcome t).
Proof.
  destruct outcome as [[data|] | err]; apply keeps_recompute; auto.
Qed.

Lemma Forall2_refl_on {A} (R : A -> A -> Prop) (l : list A) :
  (forall x, R x x) -> Forall2 R l l.
Proof. intros H. induction l; constructor; auto. Qed.

Lemma Forall2_map_right {A} (R : A -> A -> Prop) (f : A -> A) (l : list A) :
  (forall x, R x (f x)) -> Forall2 R l (List.map f l).
Proof. intros H. induction l; cbn [List.map]; constructor; auto. Qed.

Lemma Forall2_trans_on {A} (R : A -> A -> Prop) (l1 l2 l3 : list A) :
  (forall a b c, R a b -> R b c -> R a c) ->
  Forall2 R l1 l2 -> Forall2 R l2 l3 -> Forall2 R l1 l3.
Proof.
  intros Ht H12. revert l3.
  induction H12 as [|a b l1 l2 Hab _ IH]; intros l3 H23; inversion H23; subst.
  - constructor.
  - constructor; eauto.
Qed.

Lemma Forall2_weaken {A} (R S : A -> A -> Prop) (l1 l2 : list A) :
  (forall a b, R a b -> S a b) -> Forall2 R l1 l2 -> Forall2 S l1 l2.
Proof. intros H. induction 1; constructor; auto. Qed.

Lemma keepsSlot_indices l l' :
  Forall2 keepsSlot l l' -> List.map index l' = List.map index l.
Proof.
  induction 1 as [|t t' l l' [Hi _] _ IH]; cbn [List.map]; [reflexivity|].
  now rewrite Hi, IH.
Qed.

Lemma keepsSlot_canonical l l' :
  Forall2 keepsSlot l l' -> Forall canonical l -> Forall canonical l'.
Proof.
  induction 1 as [|t t' l l' [_ Hc] _ IH]; intros Hall; [constructor|].
  inversion Hall; subst. constructor; auto.
Qed.

Lemma keeps_openMenus l l' :
  Forall2 keeps l l' ->
  (length (openMenus l') <= length (openMenus l))%nat.
Proof.
  unfold openMenus.
  induction 1 as [|t t' l l' [_ Ho] _ IH]; cbn [List.filter]; [lia|].
  destruct (isAggregationMenuOpen t') eqn:E'.
  - rewrite (Ho eq_refl). cbn [length]. lia.
  - destruct (isAggregationMenuOpen t); cbn [length]; lia.
Qed.

Lemma keeps_menusOnlyClosed l l' :
  Forall2 keeps l l' -> menusOnlyClosed l l'.
Proof.
  apply Forall2_weaken. intros a b [[Hi _] Ho]. split; assumption.
Qed.

End TileUpdates.

(** ** Handlers evolve an instance *)

Section Handlers.

Implicit Types (this : Grid) (env : Env) (idx : JsNumber).

Lemma evolvesWith_refl R this :
  (forall t, R t t) -> evolvesWith R this this.
Proof.
  intros H. repeat split. now apply Forall2_refl_on.
Qed.

(** The handler returned without touching the instance. *)
Ltac unchanged :=
  apply evolvesWith_refl; first [apply keeps_refl | apply keepsSlot_refl].

Lemma evolvesWith_trans R a b c :
  (forall x y z, R x y -> R y z -> R x z) ->
  evolvesWith R a b -> evolvesWith R b c -> evolvesWith R a c.
Proof.
  intros Ht (H1 & H2 & H3) (H4 & H5 & H6). split; [congruence|].
  split; [congruence|]. eapply Forall2_trans_on; eauto.
Qed.

Lemma evolvesWith_weaken (R S : Tile -> Tile -> Prop) a b :
  (forall x y, R x y -> S x y) -> evolvesWith R a b -> evolvesWith S a b.
Proof.
  intros H (H1 & H2 & H3). repeat split; auto. eapply Forall2_weaken; eauto.
Qed.

Lemma evolves_set_tiles R this f :
  (forall t, R t (f t)) ->
  evolvesWith R this (set_tiles this (List.map f (tiles this))).
Proof.
  intros H. repeat split. cbn [tiles set_tiles]. now apply Forall2_map_right.
Qed.

Lemma evolves_updateTile this idx f :
  (forall t, keeps t (f t)) -> evolvesWith keeps this (updateTile this idx f).
Proof.
  intros H. apply evolves_set_tiles. intros t.
  destruct (hasIndex idx t); [apply H | apply keeps_refl].
Qed.

Lemma evolves_set_tileTimeouts this m :
  evolvesWith keeps this (set_tileTimeouts this m).
Proof.
  repeat split. cbn [tiles set_tileTimeouts].
  apply Forall2_refl_on, keeps_refl.
Qed.

Lemma evolves_clearTileTimeout this idx env :
  evolvesWith keeps this (fst (clearTileTimeout this idx env)).
Proof.
  unfold clearTileTimeout.
  destruct (_tileTimeouts this !! timeoutKey idx); cbn [fst].
  - apply evolves_set_tileTimeouts.
  - unchanged.
Qed.

Lemma evolves_loadTile_begin this idx env :
  evolvesWith keeps this (fst (afterLoadStep (loadTile_begin this idx env))).
Proof.
  unfold loadTile_begin.
  destruct (truthy (globalConfigError this)).
  { cbn [afterLoadStep fst]. apply evolves_updateTile.
    intros t. apply keeps_recompute; auto. }
  destruct (findTile this idx) as [cur|].
  2:{ cbn [afterLoadStep fst]. unchanged. }
  destruct (negb (truthy (aggregateFieldApiName cur))).
  { cbn [afterLoadStep fst]. apply evolves_updateTile.
    intros t. apply keeps_recompute; auto. }
  pose proof (evolves_clearTileTimeout this idx env) as H1.
  destruct (clearTileTimeout this idx env) as [this1 env1]. cbn [fst] in H1.
  destruct (setTimeout env1) as [id env2].
  set (this2 := updateTile this1 idx _).
  assert (H2 : evolvesWith keeps this1 this2).
  { apply evolves_updateTile. intros t. apply keeps_recompute; auto. }
  set (this3 := set_tileTimeouts this2 _).
  assert (H3 : evolvesWith keeps this this3).
  { eapply evolvesWith_trans; [apply keeps_trans | exact H1 |].
    eapply evolvesWith_trans; [apply keeps_trans | exact H2 |].
    apply evolves_set_tileTimeouts. }
  destruct (findTile this3 idx).
  - cbn [afterLoadStep fst]. exact H3.
  - pose proof (evolves_clearTileTimeout this3 idx env2) as H4.
    destruct (clearTileTimeout this3 idx env2) as [this4 env4].
    cbn [afterLoadStep fst] in *.
    eapply evolvesWith_trans; [apply keeps_trans | exact H3 | exact H4].
Qed.

Lemma evolves_loadTile_settle this idx outcome env :
  evolvesWith keeps this (fst (loadTile_settle this idx outcome env)).
Proof.
  unfold loadTile_settle.
  eapply evolvesWith_trans; [apply keeps_trans | | apply evolves_clearTileTimeout].
  apply evolves_updateTile. intros t. apply keeps_settledTile.
Qed.

Lemma evolves_refreshAllTiles this env :
  evolvesWith keeps this (fst (refreshAllTiles this env)).
Proof.
  unfold refreshAllTiles.
  assert (H : forall l st, evolvesWith keeps this (fst st) ->
            evolvesWith keeps this
              (fst (fold_left
                 (fun st tile =>
                    match loadTile_begin (fst st) (of_Z (index tile)) (snd st) with
                    | Returned this' env' | Awaiting this' env' => (this', env')
                    end) l st))).
  { induction l as [|t l IH]; intros st Hst; [exact Hst|].
    cbn [fold_left]. apply IH.
    eapply evolvesWith_trans; [apply keeps_trans | exact Hst |].
    pose proof (evolves_loadTile_begin (fst st) (of_Z (index t)) (snd st)) as Hb.
    destruct (loadTile_begin (fst st) (of_Z (index t)) (snd st)); exact Hb. }
  apply H. unchanged.
Qed.

Lemma evolves_handleGlobalRefresh this src env :
  evolvesWith keeps this (fst (handleGlobalRefresh this src env)).
Proof.
  unfold handleGlobalRefresh.
  destruct (_ && _ && _); [unchanged|].
  apply evolves_refreshAllTiles.
Qed.

Lemma evolves_renderedCallback this env :
  evolvesWith keeps this (fst (renderedCallback this env)).
Proof.
  unfold renderedCallback.
  destruct (_initialized this); [unchanged|].
  destruct (negb (truthy (recordId this))); [unchanged|].
  destruct (negb (truthy (globalConfigError (set_initialized this true)))).
  - eapply evolvesWith_trans; [apply keeps_trans | | apply evolves_refreshAllTiles].
    repeat split. apply Forall2_refl_on, keeps_refl.
  - repeat split. apply Forall2_refl_on, keeps_refl.
Qed.

Lemma evolves_errorCallback this thrown :
  evolvesWith keeps this (errorCallback this thrown).
Proof.
  unfold errorCallback. apply evolves_set_tiles.
  intros t. apply keeps_recompute; auto.
Qed.

Lemma evolves_closeAllAggregationMenus this :
  evolvesWith keeps this (closeAllAggregationMenus this).
Proof.
  unfold closeAllAggregationMenus.
  destruct (existsb isAggregationMenuOpen (tiles this));
    [|unchanged].
  apply evolves_set_tiles. intros t.
  destruct (isAggregationMenuOpen t) eqn:E; [|apply keeps_refl].
  apply keeps_recompute; auto.
Qed.

Lemma evolves_handleWindowClick this a b :
  evolvesWith keeps this (handleWindowClick this a b).
Proof.
  unfold handleWindowClick.
  destruct (negb a); [unchanged|].
  destruct b; [unchanged|].
  apply evolves_closeAllAggregationMenus.
Qed.

Lemma evolves_handleGlobalCloseMenus this detail :
  evolvesWith keeps this (handleGlobalCloseMenus this detail).
Proof.
  unfold handleGlobalCloseMenus.
  destruct detail as [instanceId|]; [|unchanged].
  destruct (_ || _); [unchanged|].
  apply evolves_closeAllAggregationMenus.
Qed.

Lemma evolves_handleAggregationMenuClick this dataIndex dataValue env :
  evolvesWith keeps this
    (fst (afterLoadStep (handleAggregationMenuClick this dataIndex dataValue env))).
Proof.
  unfold handleAggregationMenuClick.
  destruct (negb (truthy (JNumber (ToNumber dataIndex))));
    [unchanged|].
  destruct (is_empty _).
  - cbn [afterLoadStep fst]. apply evolves_updateTile.
    intros t. apply keeps_recompute; [reflexivity | discriminate].
  - eapply evolvesWith_trans; [apply keeps_trans | | apply evolves_loadTile_begin].
    apply evolves_updateTile.
    intros t. apply keeps_recompute; [reflexivity | discriminate].
Qed.

Lemma evolves_handleGearClick this dataIndex env :
  evolvesWith keepsSlot this (fst (handleGearClick this dataIndex env)).
Proof.
  unfold handleGearClick.
  destruct (negb (truthy (JNumber (ToNumber dataIndex))));
    [unchanged|].
  cbn [fst]. apply evolves_set_tiles. intros t.
  destruct (hasIndex (ToNumber dataIndex) t);
    [apply keepsSlot_recompute; reflexivity|].
  destruct (isAggregationMenuOpen t);
    [apply keepsSlot_recompute; reflexivity | apply keepsSlot_refl].
Qed.

End Handlers.

(** ** At most one menu is open *)

Lemma pow10_pos s : 0 < pow10 s.
Proof. unfold pow10. apply Z.pow_pos_nonneg; lia. Qed.

(** Two tiles that match the same index value sit in the same slot. *)
Lemma hasIndex_same_slot idx t u :
  hasIndex idx t = true -> hasIndex idx u = true -> index t = index u.
Proof.
  unfold hasIndex, of_Z. destruct idx as [| neg | m s]; cbn [num_eqb];
    try discriminate.
  change (pow10 0) with 1. rewrite !Z.mul_1_r, !Z.eqb_eq.
  intros H1 H2. pose proof (pow10_pos s). nia.
Qed.

Lemma at_most_one_with_index idx l :
  List.NoDup (List.map index l) ->
  (length (List.filter (hasIndex idx) l) <= 1)%nat.
Proof.
  induction l as [|t l IH]; cbn [List.map List.filter]; [cbn; lia|].
  intros Hnd. inversion Hnd as [|x xs Hnotin Hnd']; subst.
  destruct (hasIndex idx t) eqn:E; [|auto].
  assert (Hnone : List.filter (hasIndex idx) l = []).
  { destruct (List.filter (hasIndex idx) l) as [|u rest] eqn:Ef; [reflexivity|].
    exfalso. apply Hnotin.
    assert (Hu : In u (List.filter (hasIndex idx) l)) by (rewrite Ef; now left).
    apply filter_In in Hu. destruct Hu as [Hin Hidx].
    rewrite (hasIndex_same_slot idx t u E Hidx). now apply in_map. }
  rewrite Hnone. cbn. lia.
Qed.

(** The tile update of [handleGearClick]. *)
Lemma gear_open_only_at_index this idx l :
  (length (openMenus
     (List.map
        (fun tile =>
           if hasIndex idx tile then
             recomputeTileDerivedFields this
               (withMenuOpen tile (negb (isAggregationMenuOpen tile)))
           else if isAggregationMenuOpen tile then
             recomputeTileDerivedFields this (withMenuOpen tile false)
           else tile) l))
   <= length (List.filter (hasIndex idx) l))%nat.
Proof.
  unfold openMenus.
  induction l as [|t l IH]; cbn [List.map List.filter]; [lia|].
  destruct (hasIndex idx t).
  - match goal with
    | |- context [isAggregationMenuOpen ?x] => destruct (isAggregationMenuOpen x)
    end; cbn [length]; lia.
  - destruct (isAggregationMenuOpen t) eqn:E.
    + cbn [recomputeTileDerivedFields withMenuOpen isAggregationMenuOpen]. exact IH.
    + rewrite E. exact IH.
Qed.

Lemma slotIndices_config this this' :
  config this' = config this -> slotIndices this' = slotIndices this.
Proof.
  unfold config. intros [= _ Hr Hc _ _ _ _ _].
  unfold slotIndices, maxSlots, normalizedRows, normalizedColumns.
  now rewrite Hr, Hc.
Qed.

Lemma wellFormed_NoDup this :
  wellFormed this -> List.NoDup (List.map index (tiles this)).
Proof.
  intros [[-> | ->] _]; [constructor | apply NoDup_slotIndices].
Qed.

Lemma wellFormed_slots this this' R :
  (forall a b, R a b -> keepsSlot a b) ->
  evolvesWith R this this' ->
  (tiles this = [] \/ List.map index (tiles this) = slotIndices this) ->
  (tiles this' = [] \/ List.map index (tiles this') = slotIndices this').
Proof.
  intros HR (Hcfg & _ & Hall) Hslots.
  apply (Forall2_weaken R keepsSlot) in Hall; [|exact HR].
  destruct Hslots as [Hnil | Hidx].
  - left. rewrite Hnil in Hall. now inversion Hall.
  - right. rewrite (keepsSlot_indices _ _ Hall), Hidx.
    symmetry. now apply slotIndices_config.
Qed.

Lemma wellFormed_evolves this this' :
  evolvesWith keeps this this' -> wellFormed this -> wellFormed this'.
Proof.
  intros Hev (Hslots & Hopen & Hcanon). split; [|split].
  - exact (wellFormed_slots this this' keeps keeps_keepsSlot Hev Hslots).
  - destruct Hev as (_ & _ & Hall). unfold atMostOneMenuOpen in *.
    pose proof (keeps_openMenus _ _ Hall). lia.
  - destruct Hev as (_ & _ & Hall).
    eapply keepsSlot_canonical; [|exact Hcanon].
    eapply Forall2_weaken; [|exact Hall]. apply keeps_keepsSlot.
Qed.

Lemma wellFormed_handleGearClick this dataIndex env :
  wellFormed this -> wellFormed (fst (handleGearClick this dataIndex env)).
Proof.
  intros Hwf. pose proof (evolves_handleGearClick this dataIndex env) as Hev.
  destruct Hwf as (Hslots & Hopen & Hcanon).
  assert (Hnd : List.NoDup (List.map index (tiles this)))
    by (apply wellFormed_NoDup; repeat split; assumption).
  split; [|split].
  - exact (wellFormed_slots this _ keepsSlot (fun a b H => H) Hev Hslots).
  - unfold atMostOneMenuOpen, handleGearClick in *.
    destruct (negb (truthy (JNumber (ToNumber dataIndex)))); [exact Hopen|].
    cbn [fst tiles set_tiles].
    pose proof (gear_open_only_at_index this (ToNumber dataIndex) (tiles this)).
    pose proof (at_most_one_with_index (ToNumber dataIndex) (tiles this) Hnd).
    lia.
  - destruct Hev as (_ & _ & Hall).
    eapply keepsSlot_canonical; eauto.
Qed.

Lemma closed_buildInitialTileConfig this i :
  isAggregationMenuOpen (buildInitialTileConfig this i) = false.
Proof. reflexivity. Qed.

Lemma openMenus_initialize this :
  openMenus (tiles (initializeTilesFromConfig this)) = [].
Proof.
  unfold initializeTilesFromConfig, openMenus. cbn [tiles set_tiles].
  induction (slotIndices this) as [|i l IH]; [reflexivity|].
  cbn [List.map List.filter]. now rewrite closed_buildInitialTileConfig.
Qed.

Lemma wellFormed_initialize this :
  wellFormed (initializeTilesFromConfig this).
Proof.
  split; [|split].
  - right. rewrite indices_initializeTilesFromConfig. reflexivity.
  - unfold atMostOneMenuOpen. rewrite openMenus_initialize. cbn. lia.
  - unfold initializeTilesFromConfig. cbn [tiles set_tiles].
    apply List.Forall_forall. intros t Ht. apply in_map_iff in Ht.
    destruct Ht as (i & <- & _). apply canonical_recompute.
Qed.

Lemma wellFormed_connectedCallback this env :
  wellFormed (fst (connectedCallback this env)).
Proof.
  unfold connectedCallback.
  destruct (negb (truthy (_instanceId this)));
    [destruct (takeInstanceId env)|]; apply wellFormed_initialize.
Qed.

Lemma wellFormed_step s s' : step s s' -> wellFormed (fst s) -> wellFormed (fst s').
Proof.
  intros Hstep. destruct Hstep; cbn [fst]; intros Hwf.
  - apply wellFormed_connectedCallback.
  - eapply wellFormed_evolves; [apply evolves_renderedCallback | exact Hwf].
  - eapply wellFormed_evolves; [apply evolves_errorCallback | exact Hwf].
  - eapply wellFormed_evolves; [apply evolves_loadTile_begin | exact Hwf].
  - eapply wellFormed_evolves; [apply evolves_loadTile_settle | exact Hwf].
  - eapply wellFormed_evolves; [apply evolves_handleGlobalRefresh | exact Hwf].
  - eapply wellFormed_evolves; [apply evolves_closeAllAggregationMenus | exact Hwf].
  - eapply wellFormed_evolves; [apply evolves_handleWindowClick | exact Hwf].
  - eapply wellFormed_evolves; [apply evolves_handleGlobalCloseMenus | exact Hwf].
  - now apply wellFormed_handleGearClick.
  - eapply wellFormed_evolves; [apply evolves_handleAggregationMenuClick | exact Hwf].
  - eapply wellFormed_evolves; [apply evolves_set_tileTimeouts | exact Hwf].
Qed.

Lemma wellFormed_reachable s : reachable s -> wellFormed (fst s).
Proof.
  induction 1 as [this env Hnil | s s' _ IH Hstep].
  - cbn [fst]. split; [now left|]. unfold atMostOneMenuOpen.
    rewrite Hnil. split; [cbn; lia | constructor].
  - eapply wellFormed_step; eauto.
Qed.

Lemma closeAllAggregationMenus_closes this :
  openMenus (tiles (closeAllAggregationMenus this)) = [].
Proof.
  unfold closeAllAggregationMenus, openMenus.
  destruct (existsb isAggregationMenuOpen (tiles this)) eqn:E.
  - cbn [tiles set_tiles]. clear E.
    induction (tiles this) as [|t l IH]; [reflexivity|].
    cbn [List.map List.filter].
    destruct (isAggregationMenuOpen t) eqn:Et.
    + cbn [recomputeTileDerivedFields withMenuOpen isAggregationMenuOpen].
      apply IH.
    + rewrite Et. apply IH.
  - induction (tiles this) as [|t l IH]; [reflexivity|].
    cbn [existsb] in E. apply orb_false_iff in E. destruct E as [Et El].
    cbn [List.filter]. rewrite Et. now apply IH.
Qed.

(** C9: the tiles are built with their menus closed; in every state of
    an instance at most one tile has its menu open; a gear click leaves
    the menu of every tile of another index closed; and the menu-item
    click, the root click, the outside click and the close signal of
    another instance open no menu (the last three close them all when
    they act). *)
Theorem at_most_one_menu_open :
  (forall this, openMenus (tiles (initializeTilesFromConfig this)) = []) /\
  (forall s, reachable s -> atMostOneMenuOpen (fst s)) /\
  (forall this dataIndex env t,
     truthy (JNumber (ToNumber dataIndex)) = true ->
     In t (tiles (fst (handleGearClick this dataIndex env))) ->
     hasIndex (ToNumber dataIndex) t = false ->
     isAggregationMenuOpen t = false) /\
  (forall this dataIndex dataValue env,
     menusOnlyClosed (tiles this)
       (tiles (fst (afterLoadStep
                      (handleAggregationMenuClick this dataIndex dataValue env))))) /\
  (forall this,
     menusOnlyClosed (tiles this) (tiles (handleRootClick this)) /\
     openMenus (tiles (handleRootClick this)) = []) /\
  (forall this hasTemplate targetInside,
     menusOnlyClosed (tiles this)
       (tiles (handleWindowClick this hasTemplate targetInside)) /\
     (hasTemplate = true -> targetInside = false ->
      openMenus (tiles (handleWindowClick this hasTemplate targetInside)) = [])) /\
  (forall this detail,
     menusOnlyClosed (tiles this) (tiles (handleGlobalCloseMenus this detail)) /\
     (forall instanceId,
        detail = Some instanceId -> truthy instanceId = true ->
        strict_eq instanceId (_instanceId this) = false ->
        openMenus (tiles (handleGlobalCloseMenus this detail)) = [])).
Proof.
  split; [apply openMenus_initialize|].
  split; [intros s Hs; apply (wellFormed_reachable s Hs)|].
  split.
  { intros this dataIndex env t Hidx Hin Hother.
    unfold handleGearClick in Hin. rewrite Hidx in Hin.
    cbn [negb fst tiles set_tiles] in Hin.
    apply in_map_iff in Hin. destruct Hin as (u & <- & _).
    destruct (hasIndex (ToNumber dataIndex) u) eqn:Eu.
    - rewrite hasIndex_recompute in Hother. unfold hasIndex in *.
      cbn [withMenuOpen index] in Hother. congruence.
    - destruct (isAggregationMenuOpen u) eqn:Eo; [reflexivity | exact Eo]. }
  split.
  { intros. apply keeps_menusOnlyClosed.
    apply evolves_handleAggregationMenuClick. }
  split.
  { intros this. split.
    - apply keeps_menusOnlyClosed, evolves_closeAllAggregationMenus.
    - apply closeAllAggregationMenus_closes. }
  split.
  { intros this a b. split.
    - apply keeps_menusOnlyClosed, evolves_handleWindowClick.
    - intros -> ->. apply closeAllAggregationMenus_closes. }
  intros this detail. split.
  - apply keeps_menusOnlyClosed, evolves_handleGlobalCloseMenus.
  - intros instanceId -> Ht Hne. unfold handleGlobalCloseMenus.
    rewrite Ht, Hne. apply closeAllAggregationMenus_closes.
Qed.

Lemma reachable_pair s : reachable s -> reachable (fst s, snd s).
Proof. now destruct s. Qed.

(** Opening the gear menu of tile 1 and then of tile 2 on the sample
    grid. *)
Lemma gear_click_sample :
  let s0 := connectedCallback sampleConfig emptyEnv in
  let s1 := handleGearClick (fst s0) (JString "1") (snd s0) in
  let s2 := handleGearClick (fst s1) (JString "2") (snd s1) in
  List.map isAggregationMenuOpen (tiles (fst s1)) = [true; false; false] /\
  List.map isAggregationMenuOpen (tiles (fst s2)) = [false; true; false] /\
  atMostOneMenuOpen (fst s2) /\
  List.map isAggregationMenuOpen (tiles (handleRootClick (fst s2))) =
    [false; false; false].
Proof.
  intros s0 s1 s2.
  destruct at_most_one_menu_open as (_ & Hreach & _).
  split; [reflexivity|]. split; [reflexivity|]. split; [|reflexivity].
  apply Hreach. unfold s2.
  apply (reachable_step (fst s1, snd s1)); [|apply step_gear_click].
  apply reachable_pair. unfold s1.
  apply (reachable_step (fst s0, snd s0)); [|apply step_gear_click].
  apply reachable_pair. unfold s0.
  apply (reachable_step (sampleConfig, emptyEnv)); [|apply step_connected].
  apply reachable_created. reflexivity.
Defined.








(** ** The refresh signal *)

Lemma ignoresRefresh_spec this src :
  ignoresRefresh this src = true <->
  truthy src = true /\ truthy (recordId this) = true /\
  strict_eq src (recordId this) = false.
Proof.
  unfold ignoresRefresh.
  rewrite !andb_true_iff, negb_true_iff. tauto.
Qed.

Lemma handleGlobalRefresh_ignored this src env :
  ignoresRefresh this src = true -> handleGlobalRefresh this src env = (this, env).
Proof. unfold ignoresRefresh, handleGlobalRefresh. now intros ->. Qed.

Lemma handleGlobalRefresh_refreshes this src env :
  ignoresRefresh this src = false ->
  handleGlobalRefresh this src env = refreshAllTiles this env.
Proof. unfold ignoresRefresh, handleGlobalRefresh. now intros ->. Qed.

Lemma strict_eq_refl_truthy v : truthy v = true -> strict_eq v v = true.
Proof.
  destruct v as [| | b | n | s]; cbn; try discriminate.
  - now destruct b.
  - destruct n as [| neg | m sc]; cbn; try discriminate.
    + now destruct neg.
    + intros _. apply Z.eqb_refl.
  - intros _. apply String.eqb_refl.
Qed.

Lemma strict_eq_sym a b : strict_eq a b = strict_eq b a.
Proof.
  destruct a as [| | x | n | s], b as [| | y | m | t]; cbn; try reflexivity.
  - now destruct x, y.
  - destruct n as [| n1 | m1 s1], m as [| n2 | m2 s2]; cbn; try reflexivity.
    + now destruct n1, n2.
    + apply Z.eqb_sym.
  - apply String.eqb_sym.
Qed.

(** Listeners that ignore a signal come out of its delivery as they
    went in. *)
Lemma deliverRefresh_ignoring src listeners env :
  Forall2 (fun g g' => ignoresRefresh g src = true -> g' = g)
    listeners (fst (deliverRefresh src listeners env)).
Proof.
  revert env. induction listeners as [|g rest IH]; intros env;
    cbn [deliverRefresh]; [constructor|].
  destruct (handleGlobalRefresh g src env) as [g' env'] eqn:E.
  specialize (IH env').
  destruct (deliverRefresh src rest env') as [rest' env''].
  cbn [fst] in *. constructor; [|exact IH].
  intros Hi. rewrite (handleGlobalRefresh_ignored _ _ _ Hi) in E.
  now injection E as <- _.
Qed.

(** C8, as the code has it: a listening instance ignores a refresh
    signal exactly when the signal carries a non-empty source record id,
    the instance has a non-empty record id of its own, and the two
    differ; it then stays as it is and calls nothing.  In every other
    case it runs [refreshAllTiles].  So when refresh is clicked on an
    instance bound to a record, every instance of the page bound to
    another record stays as it is; of two instances bound to different
    records, the one clicked reloads and the other neither changes nor
    calls the service. *)
Theorem refresh_signal_needs_both_record_ids :
  (forall this src env,
     truthy src = true -> truthy (recordId this) = true ->
     strict_eq src (recordId this) = false ->
     handleGlobalRefresh this src env = (this, env)) /\
  (forall this src env,
     (truthy src = false \/ truthy (recordId this) = false \/
      strict_eq src (recordId this) = true) ->
     handleGlobalRefresh this src env = refreshAllTiles this env) /\
  (forall page n sender,
     nth_error (instances page) n = Some sender ->
     windowDefined (pageEnv page) = true ->
     truthy (recordId sender) = true ->
     Forall2
       (fun g g' =>
          truthy (recordId g) = true ->
          strict_eq (recordId sender) (recordId g) = false -> g' = g)
       (instances page) (instances (handleRefreshAllClick page n))) /\
  (forall a b env,
     windowDefined env = true ->
     truthy (recordId a) = true -> truthy (recordId b) = true ->
     strict_eq (recordId a) (recordId b) = false ->
     let sent := dispatchEvent (RefreshSignal (recordId a)) env in
     handleRefreshAllClick (mkPage [a; b] env) 0 =
       mkPage [fst (refreshAllTiles a sent); b] (snd (refreshAllTiles a sent))).
Proof.
  split; [|split; [|split]].
  - intros this src env H1 H2 H3. apply handleGlobalRefresh_ignored.
    apply ignoresRefresh_spec. auto.
  - intros this src env H. apply handleGlobalRefresh_refreshes.
    apply not_true_iff_false. rewrite ignoresRefresh_spec.
    intros (H1 & H2 & H3). destruct H as [H | [H | H]]; congruence.
  - intros page n sender Hnth Hw Hs.
    unfold handleRefreshAllClick. rewrite Hnth, Hw.
    unfold refreshDetail. rewrite (js_or_truthy _ _ Hs).
    pose proof (deliverRefresh_ignoring (recordId sender) (instances page)
                  (dispatchEvent (RefreshSignal (recordId sender)) (pageEnv page)))
      as Hall.
    destruct (deliverRefresh _ _ _) as [gs env']. cbn [fst instances] in *.
    eapply Forall2_weaken; [|exact Hall].
    intros g g' Hig Hg Hne. apply Hig, ignoresRefresh_spec. auto.
  - intros a b env Hw Ha Hb Hab sent.
    unfold handleRefreshAllClick. cbn [instances pageEnv nth_error].
    rewrite Hw. unfold refreshDetail. rewrite (js_or_truthy _ _ Ha).
    fold sent. cbn [deliverRefresh].
    rewrite (handleGlobalRefresh_refreshes a (recordId a) sent).
    2:{ apply not_true_iff_false. rewrite ignoresRefresh_spec.
        intros (_ & _ & H). rewrite (strict_eq_refl_truthy _ Ha) in H.
        discriminate. }
    destruct (refreshAllTiles a sent) as [a' env'] eqn:E. cbn [fst snd].
    rewrite (handleGlobalRefresh_ignored b (recordId a) env').
    + reflexivity.
    + apply ignoresRefresh_spec. auto.
Qed.

(** Refresh clicked on the grid of record 001A, with the grid of record
    001B on the same page: the first loads its two configured tiles, the
    second stays as it was. *)
Lemma refresh_two_records_sample :
  let page := handleRefreshAllClick (mkPage [sampleGrid; otherGrid] emptyEnv) 0 in
  List.map (fun g => List.map isLoading (tiles g)) (instances page) =
    [[true; true; false]; [false; false; false]] /\
  List.map Request.parentId (requests (pageEnv page)) =
    [JString "001A"; JString "001A"] /\
  nth_error (instances page) 1 = Some otherGrid.
Proof.
  intros page.
  destruct refresh_signal_needs_both_record_ids as (_ & _ & _ & Hpage).
  unfold page.
  rewrite (Hpage sampleGrid otherGrid emptyEnv eq_refl eq_refl eq_refl eq_refl).
  repeat split.
Defined.

(** C8, as stated, fails: the signal of record 001A is non-empty and
    differs from the record id of a listener that has none, and yet the
    listener reloads its tiles and calls the service. *)
Lemma refresh_reaches_listener_without_record :
  spec_ignoresRefresh unboundGrid (JString "001A") = true /\
  List.map isLoading (tiles unboundGrid) = [false; false; false] /\
  List.map isLoading
    (tiles (fst (handleGlobalRefresh unboundGrid (JString "001A") emptyEnv))) =
    [true; true; false] /\
  List.map Request.aggregateFieldApiName
    (requests (snd (handleGlobalRefresh unboundGrid (JString "001A") emptyEnv))) =
    [JString "Amount__c"; JString "Id"].
Proof. repeat split. Qed.
